(** * kiwi: a shallow embedding of the WebSocket engine's core

  The Go sources are embedded function by function.  Unsigned Go integers
  are [Z] values with the wrap-around of every operation written out, byte
  slices are [list Z], Go strings are [string], Go maps are [gmap], and a
  run-time panic is an explicit outcome. *)

From Stdlib Require Import ZArith Lia List Bool Ascii String.
From stdpp Require Import gmap strings list.

Local Open Scope Z_scope.

(** ** Fixed-width unsigned arithmetic *)

Module Word.

Definition wrap (w : Z) (x : Z) : Z := x mod 2 ^ w.

Definition u8 := wrap 8.
Definition u16 := wrap 16.
Definition u32 := wrap 32.
Definition u64 := wrap 64.

(** [x << n] on a [w]-bit unsigned operand. *)
Definition shl (w : Z) (x n : Z) : Z := wrap w (Z.shiftl x n).

Definition MaxUint16 : Z := 65535.
Definition MaxUint64 : Z := 18446744073709551615.

Definition is_byte (b : Z) : Prop := 0 <= b < 256.
Definition is_bit (b : Z) : Prop := b = 0 \/ b = 1.

End Word.

Import Word.

(** ** io.Reader

  A reader is the sequence of chunks still to be delivered.  One [Read]
  into a buffer of [n] bytes hands out bytes of the first chunk only, at
  most [n] of them, and reports [EOF] once no chunk is left. *)

Module IO.

Inductive error := EOF.

Definition Reader := list (list Z).

Definition Read (r : Reader) (n : nat) : list Z * option error * Reader :=
  match r with
  | [] => ([], Some EOF, [])
  | c :: rest =>
      if (length c <=? n)%nat then (c, None, rest)
      else (take n c, None, drop n c :: rest)
  end.

(** bytes.NewReader / bytes.NewBuffer: the whole slice is available. *)
Definition NewReader (bs : list Z) : Reader :=
  match bs with [] => [] | _ => [bs] end.

(** Bytes not yet delivered. *)
Definition pending (r : Reader) : list Z := concat r.

(** A bound on the number of [Read] calls that can still return data. *)
Definition reads_left (r : Reader) : nat :=
  (length r + length (concat r))%nat.

End IO.

Import IO.

(** ** Outcomes of fallible code *)

Inductive result (E A : Type) : Type :=
| Ok (a : A)
| Err (e : E).
Arguments Ok {E A} a.
Arguments Err {E A} e.

(** ** math/rand, as far as the sources use it

  The generator algorithm belongs to Go's library; the embedding takes it
  as an interface.  Generator objects live in a heap, so that a call can
  be run after any history of earlier calls. *)

Class MathRand : Type := {
  Source : Type;
  NewSource : Z -> Source;
  Source_Uint32 : Source -> Z * Source
}.

Module Rand.
Section WithRand.
Context `{MathRand}.

Abbreviation Heap := (list Source).
Definition M (A : Type) : Type := Heap -> A * Heap.

Definition ret {A} (a : A) : M A := fun h => (a, h).
Definition bind {A B} (m : M A) (k : A -> M B) : M B :=
  fun h => let '(a, h') := m h in k a h'.

(** rand.New(src): a fresh generator object. *)
Definition New (src : Source) : M nat :=
  fun h => (length h, h ++ [src]).

(** r.Uint32(): advances the generator [r]. *)
Definition Uint32 (r : nat) : M Z :=
  fun h =>
    match h !! r with
    | Some s => let '(v, s') := Source_Uint32 s in (u32 v, <[r := s']> h)
    | None => (0, h)
    end.

End WithRand.
End Rand.

Notation "'call' x <- m 'in' k" := (Rand.bind m (fun x => k))
(at level 10, x name, m at level 100, k at level 200, only parsing).

(** ** util.go: ReadBytesAsMath *)

Module Util.

Inductive error := ErrBufNotEnough.

(** The body of the [for] loop; [None] only when [fuel] runs out. *)
Fixpoint ReadBytesAsMath_loop (fuel : nat) (r : Reader) (size n : Z)
    (byts : list Z) : option (result error (list Z) * Reader) :=
  match fuel with
  | O => None
  | S fuel' =>
      let '(buf, err, r') := Read r 512 in
      let i := Z.of_nat (length buf) in
      if 0 <? i then
        let n' := u64 (n + u64 i) in
        let byts' := byts ++ buf in
        if n' =? size then Some (Ok byts', r')
        else
          match err with
          | Some _ => Some (Err ErrBufNotEnough, r')
          | None => ReadBytesAsMath_loop fuel' r' size n' byts'
          end
      else
        match err with
        | Some _ => Some (Err ErrBufNotEnough, r')
        | None => ReadBytesAsMath_loop fuel' r' size n byts
        end
  end.

Definition ReadBytesAsMath_fuel (r : Reader) : nat := S (reads_left r).

(** Every round takes a chunk, or 512 bytes of one, off the reader, so the
    fuel below lasts; the second case is not reached. *)
Definition ReadBytesAsMath (r : Reader) (size : Z)
    : result error (list Z) * Reader :=
  match ReadBytesAsMath_loop (ReadBytesAsMath_fuel r) r size 0 [] with
  | Some out => out
  | None => (Err ErrBufNotEnough, r)
  end.

End Util.

(** ** frame.go *)

Module Frame.

Definition OpcodeContinue : Z := 0x0.
Definition OpcodeText : Z := 0x1.
Definition OpcodeBinary : Z := 0x2.
Definition OpcodeClose : Z := 0x8.
Definition OpcodePing : Z := 0x9.
Definition OpcodePong : Z := 0xA.

Record Frame : Type := mkFrame {
  FIN : Z;
  RSV1 : Z;
  RSV2 : Z;
  RSV3 : Z;
  Opcode : Z;
  MASK : Z;
  PayloadLen : Z;
  MaskingKey : Z;
  PayloadData : list Z
}.

(** [&Frame{}] *)
Definition zero : Frame := mkFrame 0 0 0 0 0 0 0 0 [].

Definition set_head (fin r1 r2 r3 op : Z) (f : Frame) : Frame :=
  mkFrame fin r1 r2 r3 op (MASK f) (PayloadLen f) (MaskingKey f) (PayloadData f).
Definition set_MASK (v : Z) (f : Frame) : Frame :=
  mkFrame (FIN f) (RSV1 f) (RSV2 f) (RSV3 f) (Opcode f) v
          (PayloadLen f) (MaskingKey f) (PayloadData f).
Definition set_PayloadLen (v : Z) (f : Frame) : Frame :=
  mkFrame (FIN f) (RSV1 f) (RSV2 f) (RSV3 f) (Opcode f) (MASK f)
          v (MaskingKey f) (PayloadData f).
Definition set_MaskingKey (v : Z) (f : Frame) : Frame :=
  mkFrame (FIN f) (RSV1 f) (RSV2 f) (RSV3 f) (Opcode f) (MASK f)
          (PayloadLen f) v (PayloadData f).
Definition set_PayloadData (v : list Z) (f : Frame) : Frame :=
  mkFrame (FIN f) (RSV1 f) (RSV2 f) (RSV3 f) (Opcode f) (MASK f)
          (PayloadLen f) (MaskingKey f) v.

Inductive error :=
| ErrDeformedFirstTwoBytes
| ErrDeformedOpcode
| ErrDeformedExtendedPayloadLength
| ErrDeformedMaskingKey
| ErrDeformedPayloadData
| ErrFrameTooLarge
| ErrDeformedPayloadLength
| ErrTooLargeFrame.

Definition CheckOpcode (code : Z) : bool :=
  (code =? OpcodeContinue) || (code =? OpcodeText) || (code =? OpcodeBinary)
  || (code =? OpcodeClose) || (code =? OpcodePing) || (code =? OpcodePing)
  || (code =? OpcodePong).

(** [data[i] ^= maskingKey[i % 4]]; every caller passes a 4-byte key. *)
Definition MaskData (data maskingKey : list Z) : list Z :=
  imap (fun i d => Z.lxor d (nth (i mod 4)%nat maskingKey 0)) data.

(** [err != nil || i != k] after a [Read] into a [k]-byte buffer. *)
Definition short_read (buf : list Z) (err : option IO.error) (k : nat) : bool :=
  match err with
  | Some _ => true
  | None => negb (length buf =? k)%nat
  end.

(** The extended payload length, steps 4 of the decoder. *)
Definition read_length (f : Frame) (r : Reader) (pLen : Z)
    : Frame * Reader * option error :=
  if pLen <=? 125 then (set_PayloadLen (u64 pLen) f, r, None)
  else if pLen =? 126 then
    let '(byt2, err, r) := Read r 2 in
    if short_read byt2 err 2 then (f, r, Some ErrDeformedExtendedPayloadLength)
    else
      let p16 := Z.lor (shl 16 (nth 0 byt2 0) 8) (nth 1 byt2 0) in
      (set_PayloadLen p16 f, r, None)
  else if pLen =? 127 then
    let '(byt8, err, r) := Read r 8 in
    if short_read byt8 err 8 then (f, r, Some ErrDeformedExtendedPayloadLength)
    else
      let b k := nth k byt8 0 in
      let p64 :=
        Z.lor (Z.lor (Z.lor (Z.lor (Z.lor (Z.lor (Z.lor
          (shl 64 (b 0%nat) 56) (shl 64 (b 1%nat) 48)) (shl 64 (b 2%nat) 40))
          (shl 64 (b 3%nat) 32)) (shl 64 (b 4%nat) 24)) (shl 64 (b 5%nat) 16))
          (shl 64 (b 6%nat) 8)) (b 7%nat) in
      (set_PayloadLen p64 f, r, None)
  else (f, r, Some ErrDeformedPayloadLength).

Definition FromBufReader (f : Frame) (r : Reader) (maxPayloadLen : Z)
    : Frame * Reader * option error :=
  let '(byt2, err, r) := Read r 2 in
  if short_read byt2 err 2 then (f, r, Some ErrDeformedFirstTwoBytes)
  else
    let b0 := nth 0 byt2 0 in
    let b1 := nth 1 byt2 0 in
    let f := set_head (Z.shiftr b0 7)
                      (Z.shiftr (shl 8 b0 1) 7)
                      (Z.shiftr (shl 8 b0 2) 7)
                      (Z.shiftr (shl 8 b0 3) 7)
                      (Z.land b0 0xF) f in
    if negb (CheckOpcode (Opcode f)) then (f, r, Some ErrDeformedOpcode)
    else
      let f := set_MASK (Z.shiftr b1 7) f in
      let pLen := Z.land b1 0x7F in
      match read_length f r pLen with
      | (f, r, Some e) => (f, r, Some e)
      | (f, r, None) =>
          if PayloadLen f >? maxPayloadLen then (f, r, Some ErrFrameTooLarge)
          else
            let '(f, r, mkb, err) :=
              if MASK f =? 1 then
                let '(mkb, err, r) := Read r 4 in
                if short_read mkb err 4 then (f, r, mkb, Some ErrDeformedMaskingKey)
                else
                  let k i := nth i mkb 0 in
                  (set_MaskingKey
                     (Z.lor (Z.lor (Z.lor (shl 32 (k 0%nat) 24) (shl 32 (k 1%nat) 16))
                                   (shl 32 (k 2%nat) 8)) (k 3%nat)) f,
                   r, mkb, None)
              else (f, r, [], None) in
            match err with
            | Some e => (f, r, Some e)
            | None =>
                if pLen >? 0 then
                  match Util.ReadBytesAsMath r (PayloadLen f) with
                  | (Err _, r) => (f, r, Some ErrDeformedPayloadData)
                  | (Ok pld, r) =>
                      let pld := if MASK f =? 1 then MaskData pld mkb else pld in
                      (set_PayloadData pld f, r, None)
                  end
                else (f, r, None)
            end
      end.

Section WithRand.
Context `{MathRand}.

Definition MakeMaskingKey : Rand.M (list Z) :=
  call r <- Rand.New (NewSource 35) in
  call mk <- Rand.Uint32 r in
  Rand.ret [u8 (Z.shiftr mk 24); u8 (Z.shiftr mk 16); u8 (Z.shiftr mk 8); u8 mk].

(** The 7-bit length field and the extended length bytes. *)
Definition length_field (pLength : Z) : option (Z * list Z) :=
  if pLength <=? 125 then Some (pLength, [])
  else if pLength <=? MaxUint16 then
    Some (126, [u8 (Z.shiftr pLength 8); u8 pLength])
  else if u64 pLength <=? MaxUint64 then
    Some (127, [u8 (Z.shiftr pLength 56); u8 (Z.shiftr pLength 48);
                u8 (Z.shiftr pLength 40); u8 (Z.shiftr pLength 32);
                u8 (Z.shiftr pLength 24); u8 (Z.shiftr pLength 16);
                u8 (Z.shiftr pLength 8); u8 pLength])
  else None.

Definition ToBytes (f : Frame) (mask : bool)
    : Rand.M (Frame * result error (list Z)) :=
  fun h =>
    let byt0 :=
      u8 (Z.lor (Z.lor (Z.lor (Z.lor (shl 8 (FIN f) 7) (shl 8 (RSV1 f) 6))
                              (shl 8 (RSV2 f) 5)) (shl 8 (RSV3 f) 4)) (Opcode f)) in
    let pLength := Z.of_nat (length (PayloadData f)) in
    match length_field pLength with
    | None => ((f, Err ErrTooLargeFrame), h)
    | Some (pLen, extPLen) =>
        let f := if mask then set_MASK 1 f else f in
        let byt1 := u8 (Z.lor (shl 8 (MASK f) 7) (u8 pLen)) in
        let byts := [byt0; byt1] ++ extPLen in
        let '(byts, h) :=
          if mask then let '(mkb, h) := MakeMaskingKey h in (byts ++ mkb, h)
          else (byts, h) in
        ((f, Ok (byts ++ PayloadData f)), h)
    end.

End WithRand.

End Frame.

(** ** util.go: UTF-8 helpers *)

Module Utf8.

Inductive error :=
| ErrDeformedUnicode (u : Z)
| ErrEmptyUtf8
| ErrDeformedUtf8 (u8 : list Z).

Definition Unicode2utf8 (u : Z) : result error (list Z) :=
  if u <=? 0x7F then Ok [u8 u]
  else if (u >=? 0x80) && (u <=? 0x7FF) then
    Ok [u8 (Z.lor (Z.shiftr u 6) 0xC0);
        u8 (Z.lor (Z.land u 0x3F) 0x80)]
  else if (u >=? 0x800) && (u <=? 0xFFFF) then
    Ok [u8 (Z.lor (Z.shiftr u 12) 0xE0);
        u8 (Z.lor (Z.shiftr (Z.land u 0xFC0) 6) 0x80);
        u8 (Z.lor (Z.land u 0x3F) 0x80)]
  else if (u >=? 0x10000) && (u <=? 0x10FFFF) then
    Ok [u8 (Z.lor (Z.shiftr u 18) 0xF0);
        u8 (Z.lor (Z.shiftr (Z.land u 0x3F000) 12) 0x80);
        u8 (Z.lor (Z.shiftr (Z.land u 0xFC0) 6) 0x80);
        u8 (Z.lor (Z.land u 0x3F) 0x80)]
  else Err (ErrDeformedUnicode u).

Definition Utf82unicode (bs : list Z) : result error Z :=
  let u8l := length bs in
  match bs with
  | [] => Err ErrEmptyUtf8
  | b1 :: _ =>
      let at_ k := nth k bs 0 in
      if b1 <=? 0x7F then Ok (u32 b1)
      else if (Z.shiftr b1 5 =? 0x6) && (u8l =? 2)%nat then
        Ok (Z.lor (shl 32 (Z.land b1 0x1F) 6) (Z.land (at_ 1%nat) 0x3F))
      else if (Z.shiftr b1 4 =? 0xE) && (u8l =? 3)%nat then
        Ok (Z.lor (Z.lor (shl 32 (Z.land b1 0xF) 12)
                         (shl 32 (Z.land (at_ 1%nat) 0x3F) 6))
                  (Z.land (at_ 2%nat) 0x3F))
      else if (Z.shiftr b1 3 =? 0x1E) && (u8l =? 4)%nat then
        Ok (Z.lor (Z.lor (Z.lor (shl 32 (Z.land b1 0x7) 18)
                                (shl 32 (Z.land (at_ 1%nat) 0x3F) 12))
                         (shl 32 (Z.land (at_ 2%nat) 0x3F) 6))
                  (Z.land (at_ 3%nat) 0x3F))
      else Err (ErrDeformedUtf8 bs)
  end.

(** The [for] loop of [IsIntactUtf8] on the index [i]; [None] only when
    [fuel] runs out.  Each round ends in [i++], after the [i++], [i += 2]
    or [i += 3] of its branch. *)
Fixpoint IsIntactUtf8_loop (fuel : nat) (bs : list Z) (i : nat) : option bool :=
  match fuel with
  | O => None
  | S fuel' =>
      let u8l := length bs in
      let at_ k := nth k bs 0 in
      if (i =? u8l)%nat then Some (i =? u8l)%nat
      else
        let b1 := at_ i in
        if b1 <=? 0x7F then IsIntactUtf8_loop fuel' bs (i + 1)
        else if Z.shiftr b1 5 =? 0x6 then
          if (2 <=? u8l - i)%nat
             && (Z.land (at_ (i + 1)%nat) 0xC0 =? 0x80)
             && ((at_ i >? 0xC0) || (at_ (i + 1)%nat >? 0x80))
          then IsIntactUtf8_loop fuel' bs (i + 1 + 1)
          else Some false
        else if Z.shiftr b1 4 =? 0xE then
          if (3 <=? u8l - i)%nat then
            let tu := Z.lor (Z.lor (shl 32 (Z.land b1 0xF) 12)
                                   (shl 32 (Z.land (at_ (i + 1)%nat) 0x3F) 6))
                            (Z.land (at_ (i + 2)%nat) 0x3F) in
            if (tu >=? 0x800) && (tu <=? 0xFFFF)
               && negb ((tu >=? 0xD800) && (tu <=? 0xDFFF))
            then IsIntactUtf8_loop fuel' bs (i + 2 + 1)
            else Some false
          else Some false
        else if Z.shiftr b1 3 =? 0x1E then
          if (4 <=? u8l - i)%nat
             && (Z.land (at_ i) 0x7 <=? 0x4)
             && (Z.land (at_ (i + 1)%nat) 0xC0 =? 0x80)
             && (Z.land (at_ (i + 1)%nat) 0x3F <=? 0xF)
             && (Z.land (at_ (i + 2)%nat) 0xC0 =? 0x80)
             && (Z.land (at_ (i + 3)%nat) 0xC0 =? 0x80)
          then IsIntactUtf8_loop fuel' bs (i + 3 + 1)
          else Some false
        else Some false
  end.

(** Every round advances [i], so the fuel below lasts; the second case is
    not reached. *)
Definition IsIntactUtf8 (bs : list Z) : bool :=
  match IsIntactUtf8_loop (S (length bs)) bs 0 with
  | Some ok => ok
  | None => false
  end.

End Utf8.

(** ** crypto/sha1 and encoding/base64

  Both belong to Go's library; they are written out here after FIPS 180-4
  and RFC 4648 so that accept keys can be computed. *)

Module Sha1.

Definition rotl (x n : Z) : Z :=
  u32 (Z.lor (Z.shiftl x n) (Z.shiftr x (32 - n))).

Definition add32 (x y : Z) : Z := u32 (x + y).

Definition be_bytes (k : nat) (x : Z) : list Z :=
  map (fun i => u8 (Z.shiftr x (8 * Z.of_nat i))) (rev (seq 0 k)).

Definition be_word (bs : list Z) : Z :=
  fold_left (fun acc b => acc * 256 + b) bs 0.

Definition pad (msg : list Z) : list Z :=
  let l := Z.of_nat (length msg) in
  msg ++ [0x80] ++ repeat 0 (Z.to_nat ((55 - l) mod 64)) ++ be_bytes 8 (u64 (8 * l)).

Fixpoint chunks {A} (n : nat) (k : nat) (l : list A) : list (list A) :=
  match n with
  | O => []
  | S n' => take k l :: chunks n' k (drop k l)
  end.

Fixpoint schedule (n : nat) (w : list Z) : list Z :=
  match n with
  | O => w
  | S n' =>
      let t := length w in
      let x := Z.lxor (Z.lxor (Z.lxor (nth (t - 3) w 0) (nth (t - 8) w 0))
                              (nth (t - 14) w 0)) (nth (t - 16) w 0) in
      schedule n' (w ++ [rotl x 1])
  end.

Definition state : Type := Z * Z * Z * Z * Z.

Definition round (st : state) (tw : nat * Z) : state :=
  let '(a, b, c, d, e) := st in
  let '(t, w) := tw in
  let '(f, k) :=
    if (t <? 20)%nat then
      (Z.lor (Z.land b c) (Z.land (Z.lxor b 0xFFFFFFFF) d), 0x5A827999)
    else if (t <? 40)%nat then (Z.lxor (Z.lxor b c) d, 0x6ED9EBA1)
    else if (t <? 60)%nat then
      (Z.lor (Z.lor (Z.land b c) (Z.land b d)) (Z.land c d), 0x8F1BBCDC)
    else (Z.lxor (Z.lxor b c) d, 0xCA62C1D6) in
  let temp := add32 (add32 (add32 (add32 (rotl a 5) f) e) k) w in
  (temp, a, rotl b 30, c, d).

Definition block (st : state) (blk : list Z) : state :=
  let w := schedule 64 (map be_word (chunks 16 4 blk)) in
  let '(a, b, c, d, e) := fold_left round (combine (seq 0 80) w) st in
  let '(h0, h1, h2, h3, h4) := st in
  (add32 h0 a, add32 h1 b, add32 h2 c, add32 h3 d, add32 h4 e).

Definition init : state :=
  (0x67452301, 0xEFCDAB89, 0x98BADCFE, 0x10325476, 0xC3D2E1F0).

(** [h := sha1.New(); h.Write(msg); h.Sum(nil)] *)
Definition Sum (msg : list Z) : list Z :=
  let p := pad msg in
  let '(h0, h1, h2, h3, h4) :=
    fold_left block (chunks (length p / 64) 64 p) init in
  be_bytes 4 h0 ++ be_bytes 4 h1 ++ be_bytes 4 h2 ++ be_bytes 4 h3 ++ be_bytes 4 h4.

End Sha1.

Module Base64.

Local Open Scope string_scope.

Definition encodeStd : string :=
  "ABCDEFGHIJKLMNOPQRSTUVWXYZabcdefghijklmnopqrstuvwxyz0123456789+/".

Definition digit (v : Z) : ascii :=
  match String.get (Z.to_nat (v mod 64)) encodeStd with
  | Some c => c
  | None => "="%char
  end.

Fixpoint encode (fuel : nat) (bs : list Z) : string :=
  match fuel, bs with
  | S fuel', a :: b :: c :: rest =>
      let v := a * 65536 + b * 256 + c in
      String (digit (v / 262144)) (String (digit (v / 4096))
        (String (digit (v / 64)) (String (digit v) (encode fuel' rest))))
  | _, [a; b] =>
      let v := a * 65536 + b * 256 in
      String (digit (v / 262144)) (String (digit (v / 4096))
        (String (digit (v / 64)) "="))
  | _, [a] =>
      let v := a * 65536 in
      String (digit (v / 262144)) (String (digit (v / 4096)) "==")
  | _, _ => ""
  end.

(** base64.StdEncoding.EncodeToString *)
Definition EncodeToString (bs : list Z) : string := encode (length bs) bs.

End Base64.

Module Accept.

Local Open Scope string_scope.

Definition keySuffixGUID : string := "258EAFA5-E914-47DA-95CA-C5AB0DC85B11".

(** [[]byte(s)] *)
Definition bytes_of_string (s : string) : list Z :=
  map (fun c => Z.of_N (N_of_ascii c)) (list_ascii_of_string s).

Definition MakeAcceptKey (reqKey : string) : string :=
  Base64.EncodeToString (Sha1.Sum (bytes_of_string (reqKey ++ keySuffixGUID))).

End Accept.

(** ** Code that can panic *)

Inductive exec (A : Type) : Type :=
| Ret (a : A)
| Panic.
Arguments Ret {A} a.
Arguments Panic {A}.

Definition exec_bind {A B} (m : exec A) (k : A -> exec B) : exec B :=
match m with
| Ret a => k a
| Panic => Panic
end.

Notation "'try' x <- m 'in' k" := (exec_bind m (fun x => k))
(at level 10, x name, m at level 100, k at level 200, only parsing).

(** ** header.go *)

Module Header.

Local Open Scope string_scope.
Local Open Scope Z_scope.

Abbreviation Header := (gmap string (list string)).

Inductive error := ErrDeformedHeader (line : string).

(** bytes.IndexByte *)
Fixpoint IndexByte (s : string) (c : ascii) : Z :=
  match s with
  | "" => -1
  | String a s' =>
      if Ascii.eqb a c then 0
      else let i := IndexByte s' c in if i <? 0 then -1 else i + 1
  end.

(** bytes.Buffer's ReadBytes: the line with its delimiter, what is left
    in the buffer, and [EOF] when the delimiter was not found. *)
Fixpoint ReadBytes (br : string) (delim : ascii)
    : string * string * option IO.error :=
  match br with
  | "" => ("", "", Some EOF)
  | String a br' =>
      if Ascii.eqb a delim then (String a "", br', None)
      else let '(line, rest, err) := ReadBytes br' delim in
           (String a line, rest, err)
  end.

Definition len (s : string) : Z := Z.of_nat (String.length s).

(** [s[lo:hi]], with Go's bounds check. *)
Definition slice (s : string) (lo hi : Z) : exec string :=
  if (0 <=? lo) && (lo <=? hi) && (hi <=? len s)
  then Ret (substring (Z.to_nat lo) (Z.to_nat (hi - lo)) s)
  else Panic.

(** [h[key] = append(h[key], val)] *)
Definition append_val (h : Header) (key val : string) : Header :=
  <[key := (default [] (h !! key) ++ [val])%list]> h.

(** One round of the [for] loop on a line that [ReadBytes] returned. *)
Definition FromBytes_line (h : Header) (line : string) (isCRLF : bool)
    : exec (Header * option error) :=
  let kvSep := IndexByte line ":"%char in
  if kvSep <? 0 then Ret (h, Some (ErrDeformedHeader line))
  else
    try val <- (if isCRLF then slice line (kvSep + 2) (len line - 2)
                else slice line (kvSep + 2) (len line - 1)) in
    try key <- slice line 0 kvSep in
    Ret (append_val h key val, None).

(** [None] only when [fuel] runs out. *)
Fixpoint FromBytes_loop (fuel : nat) (h : Header) (br : string) (isCRLF : bool)
    : option (exec (Header * option error)) :=
  match fuel with
  | O => None
  | S fuel' =>
      let '(line, br', err) := ReadBytes br "010"%char in
      match err with
      | Some EOF => Some (Ret (h, None))
      | None =>
          match FromBytes_line h line isCRLF with
          | Ret (h', None) => FromBytes_loop fuel' h' br' isCRLF
          | out => Some out
          end
      end
  end.

(** Every round takes a line off the buffer, so the fuel below lasts; the
    second case is not reached. *)
Definition FromBytes (h : Header) (bs : string) (isCRLF : bool)
    : exec (Header * option error) :=
  match FromBytes_loop (S (String.length bs)) h bs isCRLF with
  | Some out => out
  | None => Ret (h, None)
  end.

Definition Get (h : Header) (key : string) : list string :=
  default [] (h !! key).

Definition GetOne (h : Header) (key : string) : exec string :=
  match Get h key with
  | v :: _ => Ret v
  | [] => Panic
  end.

Definition HasKey (h : Header) (key : string) : bool :=
  match h !! key with Some _ => true | None => false end.

Definition HasKeyAndValEqual (h : Header) (key val : string) : exec bool :=
  match h !! key with
  | None => Ret false
  | Some v =>
      match v with
      | v0 :: _ => Ret (String.eqb v0 val)
      | [] => Panic
      end
  end.

(** strings.Contains *)
Fixpoint Contains (s substr : string) : bool :=
  String.prefix substr s
  || match s with
     | "" => false
     | String _ s' => Contains s' substr
     end.

Definition HasKeyAndValContains (h : Header) (key val : string) : exec bool :=
  match h !! key with
  | None => Ret false
  | Some v =>
      match v with
      | v0 :: _ => Ret (Contains v0 val)
      | [] => Panic
      end
  end.

End Header.

(** ** conn.go: the default handshake check *)

(** The [OnConnOpenRouter] interface, as far as the check uses it. *)
Class OnConnOpenRouter (R : Type) : Type := {
  HasHandler : R -> string -> bool
}.

Module Conn.

Local Open Scope string_scope.
Local Open Scope Z_scope.
Import Header.

Record HandshakeRequest : Type := {
  Method : string;
  RequestURI : string;
  RequestURL_Path : string;
  Proto : string;
  ProtoVer : string;
  Header_ : Header
}.

Inductive error := ProtocolError (ErrorString : string).

Definition ErrNotSupportedVersion : error := ProtocolError "not supported version".

Definition StatusBadRequest : Z := 400.
Definition StatusNotFound : Z := 404.

(** [DefaultOnConnOpenRouter]: a map from path to handler. *)
#[export] Instance DefaultOnConnOpenRouter {Handler : Type}
    : OnConnOpenRouter (gmap string Handler) :=
  {| HasHandler r reqPath := match r !! reqPath with Some _ => true | None => false end |}.

Definition DefaultServerHandshakeCheck {R} `{OnConnOpenRouter R}
    (hsReq : HandshakeRequest) (onConnOpenRouter : R)
    : exec (Z * option error) :=
  let header := Header_ hsReq in
  if negb (String.eqb (ProtoVer hsReq) "1.1") then
    Ret (StatusBadRequest, Some (ProtocolError "invalid http proto ver"))
  else if negb (HasKey header "Host") then
    Ret (StatusBadRequest, Some (ProtocolError "missing header 'Host'"))
  else
    try c <- HasKeyAndValContains header "Connection" "Upgrade" in
    if negb c then
      Ret (StatusBadRequest,
           Some (ProtocolError "missing or invalid header 'Connection'"))
    else
    try u <- HasKeyAndValEqual header "Upgrade" "websocket" in
    if negb u then
      Ret (StatusBadRequest,
           Some (ProtocolError "missing or invalid header 'Upgrade'"))
    else
    try v <- HasKeyAndValEqual header "Sec-WebSocket-Version" "13" in
    if negb v then
      Ret (StatusBadRequest,
           Some (ProtocolError "missing or invalid header 'Sec-WebSocket-Version'"))
    else
    if negb (HasKey header "Sec-WebSocket-Version") then
      Ret (StatusBadRequest,
           Some (ProtocolError "missing header 'Sec-WebSocket-Version'"))
    else
    try one <- GetOne header "Sec-WebSocket-Version" in
    if negb (String.eqb one "13") then
      Ret (StatusBadRequest, Some ErrNotSupportedVersion)
    else
    if negb (HasKey header "Sec-WebSocket-Key") then
      Ret (StatusBadRequest, Some (ProtocolError "missing header 'Sec-WebSocket-Key"))
    else
    if negb (HasHandler onConnOpenRouter (RequestURL_Path hsReq)) then
      Ret (StatusNotFound,
           Some (ProtocolError ("service not found for: " +:+ RequestURL_Path hsReq)))
    else Ret (0, None).

End Conn.

(** ** server.go: the connection pool *)

Module ConnPool.

(** A connection, as far as the pool looks at it. *)
Record Conn : Type := mkConn {
  ID : Z;
  state : Z
}.

Record ConnPool : Type := mkConnPool {
  p : gmap Z Conn;
  idx : Z;
  count : Z
}.

Definition NewConnPool : ConnPool := mkConnPool ∅ 0 0.

(** [Add] writes the new ID into the connection it was given. *)
Definition Add (cp : ConnPool) (c : Conn) : ConnPool * Conn :=
  let idx' := u64 (idx cp + 1) in
  let c' := mkConn idx' (state c) in
  (mkConnPool (<[idx' := c']> (p cp)) idx' (u64 (count cp + 1)), c').

Definition Get (cp : ConnPool) (id : Z) : option Conn := p cp !! id.

Definition Del (cp : ConnPool) (c : Conn) : ConnPool :=
  mkConnPool (delete (ID c) (p cp)) (idx cp) (u64 (count cp - 1)).

Definition Count (cp : ConnPool) : Z := count cp.

End ConnPool.

(** ** util.go and frame.go: close codes and the close frame *)

Module Close.

Local Open Scope string_scope.
Local Open Scope Z_scope.

Definition CloseCodeNormalClosure : Z := 1000.
Definition CloseCodeGoingAway : Z := 1001.
Definition CloseCodeProtocolError : Z := 1002.
Definition CloseCodeUnsupportedData : Z := 1003.
Definition CloseCodeNoStatusRcvd : Z := 1005.
Definition CloseCodeAbnormalClosure : Z := 1006.
Definition CloseCodeInvalidFramePayloadData : Z := 1007.
Definition CloseCodePolicyViolation : Z := 1008.
Definition CloseCodeMessageTooBig : Z := 1009.
Definition CloseCodeMandatoryExt : Z := 1010.
Definition CloseCodeInternalServerError : Z := 1011.
Definition CloseCodeTLSHandshake : Z := 1015.

Definition closeCodeText : gmap Z string :=
  list_to_map
    [(CloseCodeNormalClosure, "Normal Closure");
     (CloseCodeGoingAway, "Going Away");
     (CloseCodeProtocolError, "Protocol error");
     (CloseCodeUnsupportedData, "Unsupported Data");
     (CloseCodeNoStatusRcvd, "No Status Rcvd");
     (CloseCodeAbnormalClosure, "Abnormal Closure");
     (CloseCodeInvalidFramePayloadData, "Invalid frame payload data");
     (CloseCodePolicyViolation, "Policy Violation");
     (CloseCodeMessageTooBig, "Message Too Big");
     (CloseCodeMandatoryExt, "Mandatory Ext");
     (CloseCodeInternalServerError, "Internal Server Error");
     (CloseCodeTLSHandshake, "TLS handshake")].

(** [closeCodeText[code]]: the empty string for a code that is no key. *)
Definition CloseCodeText (code : Z) : string :=
  default "" (closeCodeText !! code).


End Close.

(** ** handshake.go *)

(** net/url, as far as the sources use it: the path of the parsed URL, or
    nothing when parsing fails. *)
Class NetUrl : Type := {
  url_Parse : string -> option string
}.

Module Handshake.

Local Open Scope string_scope.
Local Open Scope Z_scope.
Import Header.

Inductive error := HandshakeError (ErrorString : string).

Definition LF : ascii := "010"%char.
Definition CR : ascii := "013"%char.

Definition emptyLine1 : string := String LF (String LF "").
Definition emptyLine2 : string := String CR (String LF (String CR (String LF ""))).

(** [bsLen > k && bytes.Compare(bs[bsLen-k:], line) == 0] *)
Definition ends_with (bs : string) (k : Z) (line : string) : exec bool :=
  if len bs >? k then
    try tail <- slice bs (len bs - k) (len bs) in Ret (String.eqb tail line)
  else Ret false.

Definition checkLastEmptyLine (bs : string) : exec (bool * bool) :=
  try lf <- ends_with bs 2 emptyLine1 in
  if lf then Ret (false, true)
  else
    try crlf <- ends_with bs 4 emptyLine2 in
    if crlf then Ret (true, true) else Ret (false, false).

Definition parseRequestLine (bs : string) (isCRLF : bool)
    : exec (Z * string * string * string * string * option string) :=
  let newline := IndexByte bs LF in
  if newline <? 0 then Ret (0, "", "", "", "", Some "missing newline")
  else
    try line <- (if isCRLF then slice bs 0 (newline - 1) else slice bs 0 newline) in
    let s1 := IndexByte line " "%char in
    try after1 <- slice line (s1 + 1) (len line) in
    let s2 := IndexByte after1 " "%char in
    if (s1 <? 0) || (s2 <? 0) then Ret (0, "", "", "", "", Some "deformed parts")
    else
      let s2 := s2 + (s1 + 1) in
      try p <- slice line (s2 + 1) (len line) in
      let ps := IndexByte p "/"%char in
      if ps <? 0 then Ret (0, "", "", "", "", Some "deformed proto")
      else
        try method <- slice line 0 s1 in
        try requestUri <- slice line (s1 + 1) s2 in
        try proto <- slice p 0 ps in
        try protoVer <- slice p (ps + 1) (len p) in
        Ret (newline, method, requestUri, proto, protoVer, None).

(** [string(bs)] *)
Definition string_of_bytes (bs : list Z) : string :=
  string_of_list_ascii (map (fun b => ascii_of_N (Z.to_N b)) bs).

Definition ReadFrom `{NetUrl} (r : Reader) (maxSize : Z)
    : exec (result error Conn.HandshakeRequest * Reader) :=
  let maxHandshakeBytes := maxSize + 1 in
  if maxHandshakeBytes <? 0 then Panic
  else
    let '(buf, err, r) := Read r (Z.to_nat maxHandshakeBytes) in
    let reqSize := Z.of_nat (length buf) in
    match err with
    | Some _ => Ret (Err (HandshakeError "unable to read handshake"), r)
    | None =>
        if reqSize =? maxHandshakeBytes
        then Ret (Err (HandshakeError "too large handshake"), r)
        else
          let hs := string_of_bytes buf in
          try chk <- checkLastEmptyLine hs in
          let '(isCRLF, ok) := chk in
          if negb ok then Ret (Err (HandshakeError "missing last empty line"), r)
          else
            try hs <- (if isCRLF then slice hs 0 (reqSize - 2)
                       else slice hs 0 (reqSize - 1)) in
            try prl <- parseRequestLine hs isCRLF in
            let '(reqLineLen, method, requestUri, proto, protoVer, err) := prl in
            match err with
            | Some e => Ret (Err (HandshakeError ("invalid request line: " +:+ e)), r)
            | None =>
                try block <- slice hs (reqLineLen + 1) (len hs) in
                try parsed <- FromBytes ∅ block isCRLF in
                match parsed with
                | (_, Some (ErrDeformedHeader line)) =>
                    Ret (Err (HandshakeError ("deformed header: " +:+ line)), r)
                | (header, None) =>
                    match url_Parse requestUri with
                    | None =>
                        Ret (Err (HandshakeError
                                    ("deformed requestUri: " +:+ requestUri)), r)
                    | Some path =>
                        Ret (Ok {| Conn.Method := method;
                                   Conn.RequestURI := requestUri;
                                   Conn.RequestURL_Path := path;
                                   Conn.Proto := proto;
                                   Conn.ProtoVer := protoVer;
                                   Conn.Header_ := header |}, r)
                    end
                end
            end
    end.

End Handshake.

(** ** conn.go and server.go: the default router and registration *)

Module Router.

Local Open Scope string_scope.
Local Open Scope Z_scope.
Import Header.

Section Handlers.
Context {Handler : Type}.

(** [r[pattern] = fn] on a [DefaultOnConnOpenRouter]. *)
Definition HandleFunc (r : gmap string Handler) (pattern : string) (fn : Handler)
    : gmap string Handler :=
  <[pattern := fn]> r.

(** [s[i]], with Go's bounds check. *)
Definition index (s : string) (i : Z) : exec ascii :=
  if (0 <=? i) && (i <? len s) then
    match String.get (Z.to_nat i) s with
    | Some c => Ret c
    | None => Panic
    end
  else Panic.

(** A server, as far as registration looks at it; the router is [None]
    before [ApplyDefaultCfg], and a [DefaultOnConnOpenRouter] after. *)
Record Server : Type := mkServer {
  MaxHandshakeBytes : Z;
  onConnOpenRouter : option (gmap string Handler)
}.




(** [Server.OnConnOpenFunc]; calling a method of the nil router panics. *)
Definition OnConnOpenFunc (srv : Server) (pattern : string) (fn : Handler)
    : exec Server :=
  match onConnOpenRouter srv with
  | None => Panic
  | Some router =>
      if HasHandler (OnConnOpenRouter := Conn.DefaultOnConnOpenRouter) router pattern
      then Panic
      else
        let router := HandleFunc router pattern fn in
        try last <- index pattern (len pattern - 1) in
        if negb (Ascii.eqb last "/"%char) then
          let pattern := pattern +:+ "/" in
          Ret (mkServer (MaxHandshakeBytes srv) (Some (HandleFunc router pattern fn)))
        else Ret (mkServer (MaxHandshakeBytes srv) (Some router))
  end.

End Handlers.

End Router.


(** ** message.go and frame.go: whole messages

  The connection, as far as receiver and sender use it: its state, the
  bytes still to come on [Buf], and the bytes written and flushed.  No other
  goroutine touches the connection during a call, and its writes succeed. *)

Module Message.

Definition StateConnecting : Z := 0.
Definition StateOpen : Z := 1.
Definition StateClosing : Z := 2.
Definition StateClosed : Z := 3.

Record Message : Type := mkMessage {
  Opcode : Z;
  Data : list Z
}.

Definition IsClose (m : Message) : bool := Opcode m =? Frame.OpcodeClose.
Definition IsText (m : Message) : bool := Opcode m =? Frame.OpcodeText.
Definition IsBinary (m : Message) : bool := Opcode m =? Frame.OpcodeBinary.
Definition IsPing (m : Message) : bool := Opcode m =? Frame.OpcodePing.
Definition IsPong (m : Message) : bool := Opcode m =? Frame.OpcodePong.

Inductive error :=
| ErrConnIsNotOpen
| ErrMessageTooLarge
| ErrFrame (e : Frame.error).

Record Conn : Type := mkConn {
  state : Z;
  Buf : Reader;
  written : list Z
}.

Definition set_Buf (r : Reader) (c : Conn) : Conn :=
  mkConn (state c) r (written c).

(** The errors of [FromBufReader] as [ReadWhole] hands them on. *)
Definition frame_error (e : Frame.error) : error :=
  match e with
  | Frame.ErrFrameTooLarge => ErrMessageTooLarge
  | e => ErrFrame e
  end.

(** The [for] loop of [ReadWhole]; the one [frame] is decoded into again
    in every round.  [None] only when [fuel] runs out. *)
Fixpoint ReadWhole_loop (fuel : nat) (c : Conn) (frame : Frame.Frame)
    (msg : Message) (msgLen maxMsgDataLen : Z)
    : option (result error Message * Conn) :=
  match fuel with
  | O => None
  | S fuel' =>
      if negb (state c =? StateOpen) then Some (Err ErrConnIsNotOpen, c)
      else
        let '(frame, r, err) := Frame.FromBufReader frame (Buf c) maxMsgDataLen in
        let c := set_Buf r c in
        match err with
        | Some e => Some (Err (frame_error e), c)
        | None =>
            let msgLen := u64 (msgLen + Frame.PayloadLen frame) in
            if msgLen >? maxMsgDataLen then Some (Err ErrMessageTooLarge, c)
            else
              let msg := mkMessage (Opcode msg) (Data msg ++ Frame.PayloadData frame) in
              if Frame.FIN frame =? 1 then Some (Ok msg, c)
              else ReadWhole_loop fuel' c frame msg msgLen maxMsgDataLen
        end
  end.

(** Every frame that is decoded takes bytes off the reader, so the fuel
    below lasts; the [None] case is not reached. *)
Definition ReadWhole (c : Conn) (maxMsgDataLen : Z) : result error Message * Conn :=
  if negb (state c =? StateOpen) then (Err ErrConnIsNotOpen, c)
  else
    let '(frame, r, err) := Frame.FromBufReader Frame.zero (Buf c) maxMsgDataLen in
    let c := set_Buf r c in
    match err with
    | Some e => (Err (frame_error e), c)
    | None =>
        let msg := mkMessage (Frame.Opcode frame) (Frame.PayloadData frame) in
        if Frame.FIN frame =? 1 then (Ok msg, c)
        else
          let msgLen := u64 (0 + Frame.PayloadLen frame) in
          match ReadWhole_loop (S (reads_left r)) c frame msg msgLen maxMsgDataLen with
          | Some out => out
          | None => (Err ErrConnIsNotOpen, c)
          end
    end.

Definition ReadFrame (c : Conn) (maxFramePayloadLen : Z)
    : result error (Frame.Frame * bool) * Conn :=
  if negb (state c =? StateOpen) then (Err ErrConnIsNotOpen, c)
  else
    let '(frame, r, err) :=
      Frame.FromBufReader Frame.zero (Buf c) maxFramePayloadLen in
    let c := set_Buf r c in
    match err with
    | Some e => (Err (ErrFrame e), c)
    | None => (Ok (frame, Frame.FIN frame =? 1), c)
    end.

(** [Conn.Write]: into the buffer, then flushed. *)
Definition Write (c : Conn) (p : list Z) : Z * Conn :=
  (Z.of_nat (length p), mkConn (state c) (Buf c) (written c ++ p)).

Section WithRand.
Context `{MathRand}.

(** [Frame.WriteTo] with the connection as the writer. *)
Definition WriteTo (f : Frame.Frame) (c : Conn) (mask : bool)
    : Rand.M (Z * option error * Conn) :=
  call res <- Frame.ToBytes f mask in
  match snd res with
  | Err e => Rand.ret (0, Some (ErrFrame e), c)
  | Ok byts => let '(n, c) := Write c byts in Rand.ret (n, None, c)
  end.

Definition SendWhole (c : Conn) (msg : Message) (mask : bool)
    : Rand.M (Z * option error * Conn) :=
  if negb (state c =? StateOpen) then Rand.ret (0, Some ErrConnIsNotOpen, c)
  else
    let frame := Frame.zero in
    let frame := Frame.set_head 1 (Frame.RSV1 frame) (Frame.RSV2 frame)
                                (Frame.RSV3 frame) (Frame.Opcode frame) frame in
    let frame := Frame.set_head (Frame.FIN frame) (Frame.RSV1 frame)
                                (Frame.RSV2 frame) (Frame.RSV3 frame)
                                (Opcode msg) frame in
    let frame := Frame.set_PayloadData (Data msg) frame in
    WriteTo frame c mask.

Definition SendWholeBytes (c : Conn) (byts : list Z) (mask : bool)
    : Rand.M (Z * option error * Conn) :=
  SendWhole c (mkMessage Frame.OpcodeText byts) mask.

(** The read loop of [SendWholeWithReader]; [None] only when [fuel] runs
    out. *)
Fixpoint SendWholeWithReader_loop (fuel : nat) (r : Reader) (data : list Z)
    : option (list Z * Reader) :=
  match fuel with
  | O => None
  | S fuel' =>
      let '(buf, err, r) := Read r 512 in
      let data := if 0 <? Z.of_nat (length buf) then data ++ buf else data in
      match err with
      | Some EOF => Some (data, r)
      | None => SendWholeWithReader_loop fuel' r data
      end
  end.

(** [make([]byte, 512)]: 512 zero bytes. *)
Definition make (n : nat) : list Z := repeat 0 n.

(** The read loop ends within the fuel below; the [None] case is not
    reached. *)
Definition SendWholeWithReader (c : Conn) (r : Reader) (opcode : Z) (mask : bool)
    : Rand.M (Z * option error * Conn * Reader) :=
  if negb (state c =? StateOpen) then Rand.ret (0, Some ErrConnIsNotOpen, c, r)
  else
    match SendWholeWithReader_loop (S (reads_left r)) r (make 512) with
    | None => Rand.ret (0, Some ErrConnIsNotOpen, c, r)
    | Some (data, r) =>
        let frame := Frame.zero in
        let frame := Frame.set_head 1 (Frame.RSV1 frame) (Frame.RSV2 frame)
                                    (Frame.RSV3 frame) opcode frame in
        let frame := Frame.set_PayloadData data frame in
        call out <- WriteTo frame c mask in
        Rand.ret (out, r)
    end.

Definition SendFrame (c : Conn) (data : list Z) (opcode : Z)
    (begin end_ mask : bool) : Rand.M (Z * option error * Conn) :=
  if negb (state c =? StateOpen) then Rand.ret (0, Some ErrConnIsNotOpen, c)
  else
    let frame := Frame.zero in
    let frame :=
      Frame.set_head (Frame.FIN frame) (Frame.RSV1 frame) (Frame.RSV2 frame)
                     (Frame.RSV3 frame)
                     (if begin then opcode else Frame.OpcodeContinue) frame in
    let frame :=
      if end_
      then Frame.set_head 1 (Frame.RSV1 frame) (Frame.RSV2 frame)
                          (Frame.RSV3 frame) (Frame.Opcode frame) frame
      else frame in
    let frame := Frame.set_PayloadData data frame in
    WriteTo frame c mask.

End WithRand.

End Message.

(** * Vocabulary of the statements *)

(** ** Frames *)

(** A small generator, for running the codec on examples. *)
Definition sample_rand : MathRand :=
  {| Source := Z;
     NewSource seed := seed;
     Source_Uint32 s := let s' := (s * 1103515245 + 12345) mod 2 ^ 31 in (s', s') |}.

Section FrameVocabulary.
Import Frame.
Context `{MathRand}.

(** FIN and the RSV bits are bits, and the opcode is one of the six. *)
Definition well_formed (f : Frame) : Prop :=
  is_bit (FIN f) /\ is_bit (RSV1 f) /\ is_bit (RSV2 f) /\ is_bit (RSV3 f)
  /\ In (Opcode f) [0x0; 0x1; 0x2; 0x8; 0x9; 0xA].

(** The four key bytes every call of [MakeMaskingKey] produces. *)
Definition seed35_key : list Z :=
  let mk := u32 (fst (Source_Uint32 (NewSource 35))) in
  [u8 (Z.shiftr mk 24); u8 (Z.shiftr mk 16); u8 (Z.shiftr mk 8); u8 mk].

(** The 32-bit form of a key, as the decoder stores it. *)
Definition key_word (mkb : list Z) : Z :=
  Z.lor (Z.lor (Z.lor (shl 32 (nth 0 mkb 0) 24) (shl 32 (nth 1 mkb 0) 16))
               (shl 32 (nth 2 mkb 0) 8)) (nth 3 mkb 0).

(** What the decoder makes of [ToBytes f mask]. *)
Definition decoded (f : Frame) (mask : bool) : Frame :=
  mkFrame (FIN f) (RSV1 f) (RSV2 f) (RSV3 f) (Opcode f)
          (if mask then 1 else 0)
          (Z.of_nat (length (PayloadData f)))
          (if mask then key_word seed35_key else 0)
          (if mask then MaskData (PayloadData f) seed35_key else PayloadData f).

(** The two header bytes [ToBytes] writes. *)
Definition byt0 (f : Frame) : Z :=
  u8 (Z.lor (Z.lor (Z.lor (Z.lor (shl 8 (FIN f) 7) (shl 8 (RSV1 f) 6))
                          (shl 8 (RSV2 f) 5)) (shl 8 (RSV3 f) 4)) (Opcode f)).

Definition byt1 (mask : bool) (pLen : Z) : Z :=
  u8 (Z.lor (shl 8 (if mask then 1 else 0) 7) (u8 pLen)).

(** Agreement on every field the wire format carries. *)
Definition same_fields (g f : Frame) : Prop :=
  FIN g = FIN f /\ RSV1 g = RSV1 f /\ RSV2 g = RSV2 f /\ RSV3 g = RSV3 f
  /\ Opcode g = Opcode f /\ MASK g = MASK f /\ PayloadLen g = PayloadLen f
  /\ PayloadData g = PayloadData f.

End FrameVocabulary.

(** ** UTF-8 *)

Section Utf8Vocabulary.

(** [b] begins 10xxxxxx. *)
Definition is_continuation (b : Z) : Prop := 0x80 <= b <= 0xBF.

(** The scalar of a 3-byte group: four bits of the lead, six bits of each
    of the two bytes after it. *)
Definition scalar3 (b1 b2 b3 : Z) : Z :=
  (b1 mod 16) * 4096 + (b2 mod 64) * 64 + b3 mod 64.

(** The scalar of a 4-byte group. *)
Definition scalar4 (b1 b2 b3 b4 : Z) : Z :=
  (b1 mod 8) * 262144 + (b2 mod 64) * 4096 + (b3 mod 64) * 64 + b4 mod 64.

(** The encodings of section 4.3 of the specification, as it words them. *)
Inductive spec_unit : list Z -> Prop :=
| spec_unit1 b :
    0 <= b <= 0x7F -> spec_unit [b]
| spec_unit2 b1 b2 :
    0xC0 <= b1 <= 0xDF -> is_continuation b2 ->
    ~ (b1 = 0xC0 /\ b2 = 0x80) -> spec_unit [b1; b2]
| spec_unit3 b1 b2 b3 :
    0xE0 <= b1 <= 0xEF -> is_continuation b2 -> is_continuation b3 ->
    0x0800 <= scalar3 b1 b2 b3 <= 0xFFFF ->
    ~ (0xD800 <= scalar3 b1 b2 b3 <= 0xDFFF) -> spec_unit [b1; b2; b3]
| spec_unit4 b1 b2 b3 b4 :
    0xF0 <= b1 <= 0xF7 -> b1 mod 8 <= 0x04 ->
    is_continuation b2 -> is_continuation b3 -> is_continuation b4 ->
    spec_unit [b1; b2; b3; b4].

(** The same encodings, with the 4-byte form held to a second byte of at
    most 0x8F. *)
Inductive strict_unit : list Z -> Prop :=
| strict_unit123 u :
    spec_unit u -> (length u <= 3)%nat -> strict_unit u
| strict_unit4 b1 b2 b3 b4 :
    0xF0 <= b1 <= 0xF7 -> b1 mod 8 <= 0x04 ->
    0x80 <= b2 <= 0x8F -> is_continuation b3 -> is_continuation b4 ->
    strict_unit [b1; b2; b3; b4].

(** Groups by lead byte: the 3-byte group is held to its scalar only, the
    4-byte group to a scalar of at most 0x10FFFF. *)
Inductive loose_unit : list Z -> Prop :=
| loose_unit1 b :
    0 <= b <= 0x7F -> loose_unit [b]
| loose_unit2 b1 b2 :
    0xC0 <= b1 <= 0xDF -> is_continuation b2 ->
    ~ (b1 = 0xC0 /\ b2 = 0x80) -> loose_unit [b1; b2]
| loose_unit3 b1 b2 b3 :
    0xE0 <= b1 <= 0xEF ->
    0x0800 <= scalar3 b1 b2 b3 <= 0xFFFF ->
    ~ (0xD800 <= scalar3 b1 b2 b3 <= 0xDFFF) -> loose_unit [b1; b2; b3]
| loose_unit4 b1 b2 b3 b4 :
    0xF0 <= b1 <= 0xF7 -> b1 mod 8 <= 0x04 ->
    is_continuation b2 -> is_continuation b3 -> is_continuation b4 ->
    scalar4 b1 b2 b3 b4 <= 0x10FFFF ->
    loose_unit [b1; b2; b3; b4].

Definition concat_of (unit : list Z -> Prop) (bs : list Z) : Prop :=
  exists units, Forall unit units /\ bs = concat units.

(** The loop of [IsIntactUtf8] by recursion on the bytes [u8[i:]] still to
    scan: [u8l-i >= k] is a pattern with [k] leading bytes, and the next
    round gets the rest behind them. *)
Fixpoint scan (bs : list Z) : bool :=
  match bs with
  | [] => true
  | b1 :: t1 =>
      if b1 <=? 0x7F then scan t1
      else if Z.shiftr b1 5 =? 0x6 then
        match t1 with
        | b2 :: t2 =>
            if (Z.land b2 0xC0 =? 0x80) && ((b1 >? 0xC0) || (b2 >? 0x80))
            then scan t2 else false
        | _ => false
        end
      else if Z.shiftr b1 4 =? 0xE then
        match t1 with
        | b2 :: b3 :: t3 =>
            let tu := Z.lor (Z.lor (shl 32 (Z.land b1 0xF) 12)
                                   (shl 32 (Z.land b2 0x3F) 6))
                            (Z.land b3 0x3F) in
            if (tu >=? 0x800) && (tu <=? 0xFFFF)
               && negb ((tu >=? 0xD800) && (tu <=? 0xDFFF))
            then scan t3 else false
        | _ => false
        end
      else if Z.shiftr b1 3 =? 0x1E then
        match t1 with
        | b2 :: b3 :: b4 :: t4 =>
            if (Z.land b1 0x7 <=? 0x4)
               && (Z.land b2 0xC0 =? 0x80) && (Z.land b2 0x3F <=? 0xF)
               && (Z.land b3 0xC0 =? 0x80)
               && (Z.land b4 0xC0 =? 0x80)
            then scan t4 else false
        | _ => false
        end
      else false
  end.

End Utf8Vocabulary.

(** ** The handshake *)

Section HandshakeVocabulary.
Import Header Conn.
Local Open Scope string_scope.
Local Open Scope Z_scope.

(** [sub] occurs in [s]. *)
Definition contains_substring (s sub : string) : Prop :=
  exists pre post, s = pre +:+ sub +:+ post.

(** The first value under [key] exists and satisfies [P]. *)
Definition first_value (h : Header) (key : string) (P : string -> Prop) : Prop :=
  exists v vs, h !! key = Some (v :: vs) /\ P v.

(** Every key of the header has at least one value, as after [FromBytes]. *)
Definition header_wf (h : Header) : Prop :=
  forall k vs, h !! k = Some vs -> vs <> [].

(** Rules 1 to 6 of the validation phase. *)
Definition rules_1_to_6 (hsReq : HandshakeRequest) : Prop :=
  let h := Header_ hsReq in
  ProtoVer hsReq = "1.1"
  /\ is_Some (h !! "Host")
  /\ first_value h "Connection" (fun v => contains_substring v "Upgrade")
  /\ first_value h "Upgrade" (fun v => v = "websocket")
  /\ first_value h "Sec-WebSocket-Version" (fun v => v = "13")
  /\ is_Some (h !! "Sec-WebSocket-Key").

Definition sample_request : HandshakeRequest :=
  {| Method := "GET";
     RequestURI := "/chat";
     RequestURL_Path := "/chat";
     Proto := "HTTP";
     ProtoVer := "1.1";
     Header_ :=
       <["Host" := ["example.com"]]>
       (<["Connection" := ["keep-alive, Upgrade"]]>
       (<["Upgrade" := ["websocket"]]>
       (<["Sec-WebSocket-Version" := ["13"]]>
       (<["Sec-WebSocket-Key" := ["dGhlIHNhbXBsZSBub25jZQ=="]]> ∅)))) |}.

Definition sample_router : gmap string unit := <["/chat" := tt]> ∅.

End HandshakeVocabulary.

(** ** The connection pool *)

Section PoolVocabulary.
Import ConnPool.

(** Operations on a pool. *)
Inductive op : Type :=
| OpAdd (c : Conn)
| OpDel (c : Conn).

(** The pool after a sequence of operations, and the IDs [Add] assigned. *)
Fixpoint run (cp : ConnPool) (ops : list op) : ConnPool * list Z :=
  match ops with
  | [] => (cp, [])
  | OpAdd c :: ops' =>
      let '(cp', c') := Add cp c in
      let '(cp'', ids) := run cp' ops' in (cp'', ID c' :: ids)
  | OpDel c :: ops' => run (Del cp c) ops'
  end.

(** The number of [Add]s in a sequence. *)
Fixpoint adds (ops : list op) : nat :=
  match ops with
  | [] => 0
  | OpAdd _ :: ops' => S (adds ops')
  | OpDel _ :: ops' => adds ops'
  end.

(** Every [Del] of the sequence is given a connection that is in the map. *)
Fixpoint dels_present (cp : ConnPool) (ops : list op) : Prop :=
  match ops with
  | [] => True
  | OpAdd c :: ops' => dels_present (fst (Add cp c)) ops'
  | OpDel c :: ops' => is_Some (p cp !! ID c) /\ dels_present (Del cp c) ops'
  end.

(** The bookkeeping is sound: the IDs in the map are between 1 and the
    counter, and the count is the size of the map. *)
Definition pool_inv (cp : ConnPool) : Prop :=
  0 <= idx cp < 2 ^ 64
  /\ (forall k, is_Some (p cp !! k) -> 1 <= k <= idx cp)
  /\ count cp = Z.of_nat (size (p cp))
  /\ count cp <= idx cp.

End PoolVocabulary.

(** ** Header blocks *)

Section HeaderBlockVocabulary.
Import Header.
Local Open Scope string_scope.
Local Open Scope Z_scope.

(** LF, or CR LF. *)
Definition line_end (isCRLF : bool) : string :=
  if isCRLF then String "013" (String "010" "") else String "010" "".

(** A field line: the key, a colon, a space, the value, the line end. *)
Definition field_line (isCRLF : bool) (kv : string * string) : string :=
  fst kv +:+ String ":" (String " " (snd kv +:+ line_end isCRLF)).

Fixpoint field_block (isCRLF : bool) (kvs : list (string * string)) : string :=
  match kvs with
  | [] => ""
  | kv :: kvs' => field_line isCRLF kv +:+ field_block isCRLF kvs'
  end.

(** The key holds no colon and no LF; the value holds no LF. *)
Definition field_ok (kv : string * string) : Prop :=
  IndexByte (fst kv) ":" < 0 /\ IndexByte (fst kv) "010" < 0
  /\ IndexByte (snd kv) "010" < 0.

(** The fields added to a header one after the other. *)
Definition add_fields (h : Header) (kvs : list (string * string)) : Header :=
  fold_left (fun h kv => append_val h (fst kv) (snd kv)) kvs h.

(** The values of the lines with key [k], in the order of the lines. *)
Definition values_of (k : string) (kvs : list (string * string)) : list string :=
  map snd (List.filter (fun kv => String.eqb (fst kv) k) kvs).

End HeaderBlockVocabulary.
(** ** Handshake requests *)

Section RequestVocabulary.
Import Header.
Local Open Scope string_scope.
Local Open Scope Z_scope.

(** Method, space, request URI, space, protocol, slash, version. *)
Definition request_line (m u p v : string) : string :=
  m +:+ String " " (u +:+ String " " (p +:+ String "/" v)).

(** No LF in the four parts, no space in the method and in the URI, no
    slash in the protocol. *)
Definition request_line_ok (m u p v : string) : Prop :=
  IndexByte m " " < 0 /\ IndexByte u " " < 0 /\ IndexByte p "/" < 0
  /\ IndexByte m "010" < 0 /\ IndexByte u "010" < 0
  /\ IndexByte p "010" < 0 /\ IndexByte v "010" < 0.

(** The request line, the field lines and the empty line. *)
Definition request (isCRLF : bool) (m u p v : string)
    (kvs : list (string * string)) : string :=
  request_line m u p v +:+ line_end isCRLF
  +:+ field_block isCRLF kvs +:+ line_end isCRLF.

(** A URL parser that takes the request URI for the path. *)
Definition sample_url : NetUrl := {| url_Parse u := Some u |}.

End RequestVocabulary.
(** ** Frames on the wire and fragments *)

Section MessageVocabulary.
Import Frame.

(** Whether a frame goes out with a key. *)
Definition masked (key : option (list Z)) : bool :=
  match key with Some _ => true | None => false end.

(** A frame as RFC 6455 lays it out: the two header bytes, the extended
    length, and then the payload, or a 4-byte key and the payload XORed
    with it. *)
Definition on_wire (f : Frame) (key : option (list Z)) : list Z :=
  match length_field (Z.of_nat (length (PayloadData f))) with
  | Some (pLen, ext) =>
      [byt0 f; byt1 (masked key) pLen] ++ ext
      ++ match key with
         | Some k => k ++ MaskData (PayloadData f) k
         | None => PayloadData f
         end
  | None => []
  end.

(** A frame the peer may send: bits and opcode in range, a payload whose
    length has 64 bits, and a key of four bytes when there is one. *)
Definition sendable (fk : Frame * option (list Z)) : Prop :=
  well_formed (fst fk)
  /\ Z.of_nat (length (PayloadData (fst fk))) < 2 ^ 64
  /\ match snd fk with Some k => length k = 4%nat | None => True end.

(** The payloads a decoder that is used again and again holds after each
    frame: that of the frame, or, for a frame without payload, the one it
    held before. *)
Fixpoint held (prev : list Z) (ps : list (list Z)) : list (list Z) :=
  match ps with
  | [] => []
  | p :: ps' =>
      let h := match p with [] => prev | _ => p end in
      h :: held h ps'
  end.

(** The payload lengths of a sequence of frames, summed. *)
Definition total_length (fks : list (Frame * option (list Z))) : Z :=
  fold_right (fun fk n => Z.of_nat (length (PayloadData (fst fk))) + n) 0 fks.

End MessageVocabulary.

(** * Properties *)

(** ** Arithmetic toolbox *)

Section Toolbox.

Lemma forallb_range (P : Z -> bool) (n : nat) :
  forallb P (map Z.of_nat (seq 0 n)) = true ->
  forall z, 0 <= z < Z.of_nat n -> P z = true.
Proof.
  intros Hall z Hz.
  rewrite forallb_forall in Hall. apply Hall.
  apply in_map_iff. exists (Z.to_nat z). split; [lia|].
  apply in_seq. lia.
Qed.

Lemma land_mul_pow2_small (hi lo k : Z) :
  0 <= k -> 0 <= lo < 2 ^ k -> Z.land (hi * 2 ^ k) lo = 0.
Proof.
  intros Hk Hlo. apply Z.bits_inj'. intros n Hn.
  rewrite Z.land_spec, Z.bits_0.
  destruct (Z.lt_ge_cases n k) as [Hlt|Hge].
  - rewrite Z.mul_pow2_bits_low by lia. reflexivity.
  - assert (Hb : Z.testbit lo n = false).
    { destruct (Z.eq_dec lo 0) as [->|Hne]; [apply Z.bits_0|].
      apply Z.bits_above_log2; [lia|].
      apply Z.log2_lt_pow2; [lia|].
      apply Z.lt_le_trans with (2 ^ k); [lia|].
      apply Z.pow_le_mono_r; lia. }
    rewrite Hb. apply andb_false_r.
Qed.

Lemma lor_add (hi lo k : Z) :
  0 <= k -> 0 <= lo < 2 ^ k -> Z.lor (hi * 2 ^ k) lo = hi * 2 ^ k + lo.
Proof.
  intros Hk Hlo.
  rewrite <- Z.lxor_lor by (apply land_mul_pow2_small; assumption).
  symmetry. apply Z.add_nocarry_lxor. apply land_mul_pow2_small; assumption.
Qed.

Lemma land_ones_mod (a k : Z) : 0 <= k -> Z.land a (2 ^ k - 1) = a mod 2 ^ k.
Proof.
  intros Hk. rewrite <- Z.land_ones by assumption.
  f_equal. rewrite Z.ones_equiv. lia.
Qed.

End Toolbox.

(** ** Reading from an in-memory buffer *)

Section BufferReads.

Lemma Read_NewReader (bs : list Z) (n : nat) :
  bs <> [] ->
  Read (NewReader bs) n = (take n bs, None, NewReader (drop n bs)).
Proof.
  intros Hne. destruct bs as [|b bs]; [congruence|].
  unfold NewReader at 1, Read.
  destruct (Nat.leb_spec (length (b :: bs)) n) as [Hle|Hgt].
  - rewrite take_ge, drop_ge by assumption. reflexivity.
  - destruct (drop n (b :: bs)) eqn:Hd; [|reflexivity].
    apply (f_equal length) in Hd. rewrite length_drop in Hd. simpl in *. lia.
Qed.

Lemma Read_NewReader_app (a b : list Z) :
  a <> [] ->
  Read (NewReader (a ++ b)) (length a) = (a, None, NewReader b).
Proof.
  intros Hne. rewrite Read_NewReader.
  - rewrite take_app_length, drop_app_length. reflexivity.
  - destruct a; [congruence|discriminate].
Qed.

Lemma Read_NewReader_nil (n : nat) : Read (NewReader []) n = ([], Some EOF, []).
Proof. reflexivity. Qed.

(** The payload loop on a buffer that holds exactly the bytes asked for. *)
Lemma ReadBytesAsMath_loop_exact (fuel : nat) :
  forall (rest acc : list Z) (size : Z),
    rest <> [] ->
    size = Z.of_nat (length acc) + Z.of_nat (length rest) ->
    size < 2 ^ 64 ->
    (length rest <= fuel)%nat ->
    Util.ReadBytesAsMath_loop fuel (NewReader rest) size (Z.of_nat (length acc)) acc
    = Some (Ok (acc ++ rest), []).
Proof.
  induction fuel as [|fuel IH]; intros rest acc size Hne Hsize Hlt Hfuel.
  - destruct rest; [congruence|simpl in Hfuel; lia].
  - cbn [Util.ReadBytesAsMath_loop]. rewrite Read_NewReader by assumption.
    assert (Hlen : (0 < length rest)%nat) by (destruct rest; [congruence|simpl; lia]).
    assert (Htk : length (take 512 rest) = Nat.min 512 (length rest))
      by apply length_take.
    destruct (Z.ltb_spec 0 (Z.of_nat (length (take 512 rest)))) as [_|Hz]; [|lia].
    assert (Hn : u64 (Z.of_nat (length acc) + u64 (Z.of_nat (length (take 512 rest))))
                 = Z.of_nat (length (acc ++ take 512 rest))).
    { unfold u64, wrap. rewrite length_app, Nat2Z.inj_add.
      rewrite (Z.mod_small (Z.of_nat (length (take 512 rest)))) by lia.
      apply Z.mod_small. lia. }
    rewrite Hn.
    destruct (Z.eqb_spec (Z.of_nat (length (acc ++ take 512 rest))) size) as [He|Hn'].
    + rewrite length_app in He.
      assert (Hall : (length rest <= 512)%nat) by lia.
      rewrite take_ge, drop_ge by assumption. reflexivity.
    + rewrite length_app in Hn'.
      assert (Hmore : (512 < length rest)%nat) by lia.
      assert (Hd : drop 512 rest <> []).
      { intros Hd. apply (f_equal length) in Hd. rewrite length_drop in Hd.
        simpl in Hd. lia. }
      rewrite (IH (drop 512 rest) (acc ++ take 512 rest) size Hd).
      * rewrite <- app_assoc, take_drop. reflexivity.
      * rewrite length_app, length_drop. lia.
      * assumption.
      * rewrite length_drop. lia.
Qed.

Lemma ReadBytesAsMath_exact (payload : list Z) :
  payload <> [] ->
  Z.of_nat (length payload) < 2 ^ 64 ->
  Util.ReadBytesAsMath (NewReader payload) (Z.of_nat (length payload))
  = (Ok payload, []).
Proof.
  intros Hne Hlt. unfold Util.ReadBytesAsMath.
  rewrite (ReadBytesAsMath_loop_exact _ payload [] (Z.of_nat (length payload)));
    try assumption; try reflexivity.
  destruct payload; [congruence|].
  unfold Util.ReadBytesAsMath_fuel, reads_left, NewReader. simpl.
  rewrite length_app. simpl. lia.
Qed.

(** The loop never runs out of the fuel [ReadBytesAsMath] gives it. *)
Lemma ReadBytesAsMath_loop_total (fuel : nat) :
  forall (r : Reader) (size n : Z) (byts : list Z),
    (reads_left r < fuel)%nat ->
    exists out, Util.ReadBytesAsMath_loop fuel r size n byts = Some out.
Proof.
  induction fuel as [|fuel IH]; intros r size n byts Hfuel; [lia|].
  cbn [Util.ReadBytesAsMath_loop]. destruct r as [|c rest].
  - cbn. eexists. reflexivity.
  - unfold Read. unfold reads_left in Hfuel. cbn in Hfuel.
    rewrite length_app in Hfuel.
    destruct (Nat.leb_spec (length c) 512) as [Hle|Hgt].
    + destruct (0 <? Z.of_nat (length c)).
      * destruct (_ =? size); [eexists; reflexivity|].
        apply IH. unfold reads_left. lia.
      * apply IH. unfold reads_left. lia.
    + assert (Hl : length (take 512 c) = 512%nat) by (rewrite length_take; lia).
      rewrite Hl. cbn [Z.ltb Z.of_nat Z.compare Pos.of_succ_nat].
      destruct (_ <? _); [destruct (_ =? size); [eexists; reflexivity|]|];
        apply IH; unfold reads_left; cbn; rewrite length_app, length_drop; lia.
Qed.

End BufferReads.

(** ** The payload loop over short reads *)

Section ShortReads.

(** When the stream holds exactly the bytes asked for, in whatever chunks
    they arrive, the loop collects them all. *)
Lemma ReadBytesAsMath_loop_chunks (fuel : nat) :
  forall (r : Reader) (acc : list Z) (size : Z),
    (reads_left r < fuel)%nat ->
    size = Z.of_nat (length acc) + Z.of_nat (length (pending r)) ->
    (0 < length (pending r))%nat ->
    size < 2 ^ 64 ->
    exists r',
      Util.ReadBytesAsMath_loop fuel r size (Z.of_nat (length acc)) acc
      = Some (Ok (acc ++ pending r), r')
      /\ pending r' = [].
Proof.
  unfold pending, reads_left.
  induction fuel as [|fuel IH]; intros r acc size Hfuel Hsize Hpos Hlt; [lia|].
  destruct r as [|c rest]; [cbn in Hpos; lia|].
  cbn [Util.ReadBytesAsMath_loop Read]. cbn [concat length] in *.
  rewrite length_app in *.
  destruct (Nat.leb_spec (length c) 512) as [Hle|Hgt].
  - destruct (Z.ltb_spec 0 (Z.of_nat (length c))) as [Hc|Hc].
    + assert (Hn : u64 (Z.of_nat (length acc) + u64 (Z.of_nat (length c)))
                   = Z.of_nat (length (acc ++ c))).
      { unfold u64, wrap. rewrite length_app, Nat2Z.inj_add.
        rewrite (Z.mod_small (Z.of_nat (length c))) by lia.
        apply Z.mod_small. lia. }
      rewrite Hn, length_app.
      destruct (Z.eqb_spec (Z.of_nat (length acc + length c)) size) as [He|Hne].
      * assert (Hrest : concat rest = [])
          by (destruct (concat rest); [reflexivity|cbn in *; lia]).
        exists rest. rewrite Hrest, app_nil_r. split; reflexivity.
      * pose proof (IH rest (acc ++ c) size) as IH'. rewrite length_app in IH'.
        destruct IH' as (r' & E & Hr'); [lia..|].
        exists r'. rewrite <- app_assoc in E. split; assumption.
    + assert (Hnil : c = []) by (destruct c; [reflexivity|cbn in Hc; lia]).
      subst c. cbn [length] in *.
      destruct (IH rest acc size) as (r' & E & Hr'); try lia.
      exists r'. split; assumption.
  - assert (Hl : length (take 512 c) = 512%nat) by (rewrite length_take; lia).
    rewrite Hl.
    destruct (Z.ltb_spec 0 (Z.of_nat 512)) as [_|?]; [|lia].
    assert (Hn : u64 (Z.of_nat (length acc) + u64 (Z.of_nat 512))
                 = Z.of_nat (length (acc ++ take 512 c))).
    { unfold u64, wrap. rewrite length_app, Hl, Nat2Z.inj_add.
      rewrite (Z.mod_small (Z.of_nat 512)) by lia.
      apply Z.mod_small. lia. }
    rewrite Hn, length_app, Hl.
    destruct (Z.eqb_spec (Z.of_nat (length acc + 512)) size) as [He|Hne]; [lia|].
    pose proof (IH (drop 512 c :: rest) (acc ++ take 512 c) size) as IH'.
    cbn [concat length] in IH'. rewrite !length_app, length_drop, Hl in IH'.
    destruct IH' as (r' & E & Hr'); [lia..|].
    exists r'. split; [|assumption].
    rewrite E.
    cbn [concat]. rewrite <- !app_assoc, (app_assoc (take 512 c)), take_drop.
    reflexivity.
Qed.

Lemma ReadBytesAsMath_chunks (r : Reader) :
  (0 < length (pending r))%nat ->
  Z.of_nat (length (pending r)) < 2 ^ 64 ->
  exists r',
    Util.ReadBytesAsMath r (Z.of_nat (length (pending r))) = (Ok (pending r), r')
    /\ pending r' = [].
Proof.
  intros Hpos Hlt. unfold Util.ReadBytesAsMath, Util.ReadBytesAsMath_fuel.
  destruct (ReadBytesAsMath_loop_chunks (S (reads_left r)) r []
              (Z.of_nat (length (pending r)))) as (r' & E & Hr');
    try assumption; try lia; [reflexivity|].
  change (Z.of_nat (length (@nil Z))) with 0 in E. cbn [app] in E. rewrite E. exists r'. split; [reflexivity|assumption].
Qed.

End ShortReads.

(** ** Frame header bytes *)

Ltac pow_consts :=
  repeat match goal with
         | |- context [2 ^ Zpos ?p] =>
             let v := eval vm_compute in (2 ^ Zpos p) in
             change (2 ^ Zpos p) with v
         end.

Ltac aligned := Z.div_mod_to_equations; lia.

Section HeaderBytes.
Import Frame.

Lemma lor_add_aligned (a lo k : Z) :
  0 <= k -> 0 <= lo < 2 ^ k -> a mod 2 ^ k = 0 -> Z.lor a lo = a + lo.
Proof.
  intros Hk Hlo Ha.
  assert (Hpos : 0 < 2 ^ k) by (apply Z.pow_pos_nonneg; lia).
  rewrite (Z.div_mod a (2 ^ k)) by lia. rewrite Ha, Z.add_0_r.
  rewrite (Z.mul_comm (2 ^ k)). apply lor_add; assumption.
Qed.

Lemma first_byte (fin r1 r2 r3 op : Z) :
  is_bit fin -> is_bit r1 -> is_bit r2 -> is_bit r3 ->
  In op [0x0; 0x1; 0x2; 0x8; 0x9; 0xA] ->
  let b0 := u8 (Z.lor (Z.lor (Z.lor (Z.lor (shl 8 fin 7) (shl 8 r1 6))
                                    (shl 8 r2 5)) (shl 8 r3 4)) op) in
  Z.shiftr b0 7 = fin /\ Z.shiftr (shl 8 b0 1) 7 = r1
  /\ Z.shiftr (shl 8 b0 2) 7 = r2 /\ Z.shiftr (shl 8 b0 3) 7 = r3
  /\ Z.land b0 0xF = op /\ CheckOpcode op = true.
Proof.
  intros [-> | ->] [-> | ->] [-> | ->] [-> | ->] Hop; simpl in Hop;
    repeat (destruct Hop as [<- | Hop]); try contradiction;
    vm_compute; repeat split; reflexivity.
Qed.

Lemma second_byte (m p : Z) :
  is_bit m -> 0 <= p <= 127 ->
  let b1 := u8 (Z.lor (shl 8 m 7) (u8 p)) in
  Z.shiftr b1 7 = m /\ Z.land b1 0x7F = p.
Proof.
  intros Hm Hp b1. subst b1.
  pose (P := fun m p => let b1 := u8 (Z.lor (shl 8 m 7) (u8 p)) in
                        (Z.shiftr b1 7 =? m) && (Z.land b1 0x7F =? p)).
  assert (HP : P m p = true).
  { destruct Hm as [-> | ->]; apply (forallb_range _ 128);
      try (vm_compute; reflexivity); lia. }
  unfold P in HP. cbv zeta in HP. apply andb_true_iff in HP. lia.
Qed.

Lemma decode16 (L : Z) :
  0 <= L <= 65535 ->
  Z.lor (shl 16 (u8 (Z.shiftr L 8)) 8) (u8 L) = L.
Proof.
  intros HL. unfold shl, u8, wrap.
  rewrite Z.shiftl_mul_pow2, Z.shiftr_div_pow2 by lia. pow_consts.
  assert (Hd : 0 <= L / 256 < 256) by (split; [apply Z.div_pos|apply Z.div_lt_upper_bound]; lia).
  rewrite (Z.mod_small (L / 256)) by lia.
  rewrite (Z.mod_small (L / 256 * 256)) by lia.
  rewrite (lor_add_aligned _ _ 8); pow_consts; try lia.
  - pose proof (Z.div_mod L 256). pose proof (Z.mod_pos_bound L 256). lia.
  - apply Z.mod_pos_bound. lia.
  - apply Z.mod_mul. lia.
Qed.

Lemma be64_sum (b0 b1 b2 b3 b4 b5 b6 b7 : Z) :
  is_byte b0 -> is_byte b1 -> is_byte b2 -> is_byte b3 ->
  is_byte b4 -> is_byte b5 -> is_byte b6 -> is_byte b7 ->
  Z.lor (Z.lor (Z.lor (Z.lor (Z.lor (Z.lor (Z.lor
    (shl 64 b0 56) (shl 64 b1 48)) (shl 64 b2 40)) (shl 64 b3 32))
    (shl 64 b4 24)) (shl 64 b5 16)) (shl 64 b6 8)) b7
  = b0 * 2 ^ 56 + b1 * 2 ^ 48 + b2 * 2 ^ 40 + b3 * 2 ^ 32
    + b4 * 2 ^ 24 + b5 * 2 ^ 16 + b6 * 2 ^ 8 + b7.
Proof.
  unfold is_byte, shl, wrap. intros.
  rewrite !Z.shiftl_mul_pow2 by lia. pow_consts.
  rewrite !Z.mod_small by lia.
  set (t0 := b0 * 72057594037927936).
  set (t1 := b1 * 281474976710656).
  set (t2 := b2 * 1099511627776).
  set (t3 := b3 * 4294967296).
  set (t4 := b4 * 16777216).
  set (t5 := b5 * 65536).
  set (t6 := b6 * 256).
  rewrite (lor_add_aligned t0 t1 56);
    [|lia|subst t1; pow_consts; lia|subst t0; pow_consts; aligned].
  rewrite (lor_add_aligned (t0 + t1) t2 48);
    [|lia|subst t2; pow_consts; lia|subst t0 t1; pow_consts; aligned].
  rewrite (lor_add_aligned (t0 + t1 + t2) t3 40);
    [|lia|subst t3; pow_consts; lia|subst t0 t1 t2; pow_consts; aligned].
  rewrite (lor_add_aligned (t0 + t1 + t2 + t3) t4 32);
    [|lia|subst t4; pow_consts; lia|subst t0 t1 t2 t3; pow_consts; aligned].
  rewrite (lor_add_aligned (t0 + t1 + t2 + t3 + t4) t5 24);
    [|lia|subst t5; pow_consts; lia|subst t0 t1 t2 t3 t4; pow_consts; aligned].
  rewrite (lor_add_aligned (t0 + t1 + t2 + t3 + t4 + t5) t6 16);
    [|lia|subst t6; pow_consts; lia|subst t0 t1 t2 t3 t4 t5; pow_consts; aligned].
  rewrite (lor_add_aligned (t0 + t1 + t2 + t3 + t4 + t5 + t6) b7 8);
    [|lia|pow_consts; lia|subst t0 t1 t2 t3 t4 t5 t6; pow_consts; aligned].
  reflexivity.
Qed.

Lemma u8_is_byte (x : Z) : is_byte (u8 x).
Proof. unfold is_byte, u8, wrap. apply Z.mod_pos_bound. reflexivity. Qed.

Lemma decode64 (L : Z) :
  0 <= L < 2 ^ 64 ->
  let b s := u8 (Z.shiftr L s) in
  Z.lor (Z.lor (Z.lor (Z.lor (Z.lor (Z.lor (Z.lor
    (shl 64 (b 56) 56) (shl 64 (b 48) 48)) (shl 64 (b 40) 40)) (shl 64 (b 32) 32))
    (shl 64 (b 24) 24)) (shl 64 (b 16) 16)) (shl 64 (b 8) 8)) (u8 L) = L.
Proof.
  intros HL b. subst b. cbv beta.
  rewrite be64_sum by apply u8_is_byte.
  unfold u8, wrap. rewrite !Z.shiftr_div_pow2 by lia.
  revert HL. pow_consts. intros HL.
  Z.div_mod_to_equations. lia.
Qed.

End HeaderBytes.

(** ** Decoding what the encoder wrote *)

Section RoundTrip.
Import Frame.
Context `{MathRand}.

Lemma MakeMaskingKey_run (h : list Source) :
  MakeMaskingKey h = (seed35_key, h ++ [snd (Source_Uint32 (NewSource 35))]).
Proof.
  unfold MakeMaskingKey, Rand.bind, Rand.New, Rand.Uint32, Rand.ret, seed35_key.
  cbv beta iota zeta.
  rewrite list_lookup_middle by reflexivity.
  destruct (Source_Uint32 (NewSource 35)) as [v s'] eqn:Hs. cbn [fst snd].
  f_equal. rewrite insert_app_r_alt by lia.
  rewrite Nat.sub_diag. reflexivity.
Qed.

Lemma Read_NewReader_prefix (a b : list Z) (n : nat) :
  a <> [] -> length a = n ->
  Read (NewReader (a ++ b)) n = (a, None, NewReader b).
Proof. intros Hne <-. apply Read_NewReader_app. assumption. Qed.

Lemma length_field_some (L : Z) :
  0 <= L < 2 ^ 64 ->
  exists pLen ext,
    length_field L = Some (pLen, ext)
    /\ 0 <= pLen <= 127
    /\ (pLen >? 0) = (L >? 0)
    /\ forall f rest,
        read_length f (NewReader (ext ++ rest)) pLen
        = (set_PayloadLen L f, NewReader rest, None).
Proof.
  intros HL. unfold length_field.
  destruct (Z.leb_spec L 125) as [H125|H125].
  - exists L, []. repeat split; try lia.
    intros f rest. unfold read_length.
    destruct (Z.leb_spec L 125); [|lia].
    unfold u64, wrap. rewrite Z.mod_small by lia. reflexivity.
  - destruct (Z.leb_spec L MaxUint16) as [H16|H16].
    + exists 126, [u8 (Z.shiftr L 8); u8 L]. repeat split; try lia.
      intros f rest. unfold read_length.
      change (126 <=? 125) with false. change (126 =? 126) with true. cbv iota.
      rewrite (Read_NewReader_prefix [u8 (Z.shiftr L 8); u8 L]) by (discriminate || reflexivity).
      cbn [short_read length Nat.eqb negb nth].
      rewrite decode16 by (unfold MaxUint16 in H16; lia). reflexivity.
    + unfold MaxUint16 in H16.
      destruct (Z.leb_spec (u64 L) MaxUint64) as [_|H64].
      * eexists 127, _. repeat split; try lia.
        intros f rest. unfold read_length.
        change (127 <=? 125) with false. change (127 =? 126) with false.
        change (127 =? 127) with true. cbv iota.
        rewrite Read_NewReader_prefix by (discriminate || reflexivity).
        cbn [short_read length Nat.eqb negb nth].
        rewrite (decode64 L HL). reflexivity.
      * exfalso. unfold u64, wrap, MaxUint64 in H64.
        pose proof (Z.mod_pos_bound L (2 ^ 64) eq_refl) as Hb.
        change (2 ^ 64) with 18446744073709551616 in *. lia.
Qed.

(** The bytes [ToBytes] emits: the two header bytes, the extended length,
    the key when masking is asked for, and the payload as [f] stores it. *)
Lemma ToBytes_run (f : Frame) (mask : bool) (h : list Source) :
  0 <= Z.of_nat (length (PayloadData f)) < 2 ^ 64 ->
  (mask = false -> MASK f = 0) ->
  exists pLen ext,
    length_field (Z.of_nat (length (PayloadData f))) = Some (pLen, ext)
    /\ ToBytes f mask h
       = ((if mask then set_MASK 1 f else f,
           Ok ([byt0 f; byt1 mask pLen] ++ ext
               ++ (if mask then seed35_key else []) ++ PayloadData f)),
          if mask then h ++ [snd (Source_Uint32 (NewSource 35))] else h).
Proof.
  intros HL Hm.
  destruct (length_field_some _ HL) as (pLen & ext & E & _).
  exists pLen, ext. split; [assumption|].
  unfold ToBytes. rewrite E. destruct mask.
  - rewrite MakeMaskingKey_run. cbn [MASK set_MASK PayloadData].
    unfold byt0, byt1. rewrite <- !app_assoc. reflexivity.
  - rewrite (Hm eq_refl). unfold byt0, byt1. rewrite app_nil_l. reflexivity.
Qed.

Lemma seed35_key_length : length seed35_key = 4%nat.
Proof. reflexivity. Qed.

Lemma FromBufReader_wire (f : Frame) (mask : bool) (pLen : Z) (ext : list Z)
    (maxPayloadLen : Z) :
  well_formed f ->
  0 <= Z.of_nat (length (PayloadData f)) < 2 ^ 64 ->
  Z.of_nat (length (PayloadData f)) <= maxPayloadLen ->
  length_field (Z.of_nat (length (PayloadData f))) = Some (pLen, ext) ->
  FromBufReader zero
    (NewReader ([byt0 f; byt1 mask pLen] ++ ext
                ++ (if mask then seed35_key else []) ++ PayloadData f))
    maxPayloadLen
  = (decoded f mask, [], None).
Proof.
  intros (Hfin & Hr1 & Hr2 & Hr3 & Hop) HL Hmax Hlf.
  destruct (length_field_some _ HL) as (pLen' & ext' & E & Hp & Hpos & Hread).
  rewrite E in Hlf. injection Hlf as -> ->.
  unfold FromBufReader.
  rewrite Read_NewReader_prefix by (discriminate || reflexivity).
  cbn [short_read length Nat.eqb negb nth].
  destruct (first_byte _ _ _ _ _ Hfin Hr1 Hr2 Hr3 Hop) as (E1 & E2 & E3 & E4 & E5 & E6).
  fold (byt0 f) in E1, E2, E3, E4, E5.
  rewrite E1, E2, E3, E4, E5. cbn [Opcode set_head]. rewrite E6. cbn [negb].
  assert (Hbit : is_bit (if mask then 1 else 0)) by (destruct mask; [right|left]; reflexivity).
  destruct (second_byte _ pLen Hbit Hp) as (F1 & F2).
  fold (byt1 mask pLen) in F1, F2. rewrite F1, F2, Hread.
  cbn [PayloadLen set_PayloadLen MASK set_MASK set_head zero].
  destruct (Z.gtb_spec (Z.of_nat (length (PayloadData f))) maxPayloadLen); [lia|].
  rewrite Hpos. unfold decoded.
  destruct mask.
  - change (1 =? 1) with true. cbv iota.
    rewrite Read_NewReader_prefix by (discriminate || reflexivity).
    cbn [short_read length seed35_key Nat.eqb negb].
    cbn [PayloadLen set_PayloadLen set_MaskingKey MASK].
    destruct (Z.gtb_spec (Z.of_nat (length (PayloadData f))) 0) as [Hgt|Hle].
    + rewrite ReadBytesAsMath_exact; [|destruct (PayloadData f); [simpl in Hgt; lia|discriminate]|lia].
      reflexivity.
    + destruct (PayloadData f); [reflexivity|simpl in Hle; lia].
  - change (0 =? 1) with false. cbv iota.
    cbn [PayloadLen set_PayloadLen set_MaskingKey MASK]. rewrite app_nil_l.
    destruct (Z.gtb_spec (Z.of_nat (length (PayloadData f))) 0) as [Hgt|Hle].
    + rewrite ReadBytesAsMath_exact; [|destruct (PayloadData f); [simpl in Hgt; lia|discriminate]|lia].
      reflexivity.
    + destruct (PayloadData f); [reflexivity|simpl in Hle; lia].
Qed.

End RoundTrip.

(** ** The frame codec: claims *)

Section FrameClaims.
Import Frame.

(** C2.  A frame with bit-valued FIN and RSV fields, one of the six
    opcodes, MASK 0 and PayloadLen equal to the length of its payload is
    encoded without masking into bytes from which [FromBufReader], given a
    limit of at least the payload length, decodes a frame with the same
    FIN, RSV1, RSV2, RSV3, opcode, MASK, PayloadLen and PayloadData, using
    up the whole input. *)
Theorem FromBufReader_ToBytes_unmasked_roundtrip `{MathRand}
    (f : Frame) (h : list Source) (maxPayloadLen : Z) :
  well_formed f ->
  MASK f = 0 ->
  PayloadLen f = Z.of_nat (length (PayloadData f)) ->
  PayloadLen f < 2 ^ 64 ->
  PayloadLen f <= maxPayloadLen ->
  exists byts g,
    ToBytes f false h = ((f, Ok byts), h)
    /\ FromBufReader zero (NewReader byts) maxPayloadLen = (g, [], None)
    /\ same_fields g f.
Proof.
  intros Hwf Hmask Hlen Hlt Hmax.
  assert (HL : 0 <= Z.of_nat (length (PayloadData f)) < 2 ^ 64) by lia.
  destruct (ToBytes_run f false h HL (fun _ => Hmask)) as (pLen & ext & Hlf & Hrun).
  eexists _, (decoded f false). split; [exact Hrun|]. split.
  - apply FromBufReader_wire; try assumption. lia.
  - unfold same_fields, decoded. cbn. rewrite Hmask, Hlen. tauto.
Qed.

Lemma FromBufReader_ToBytes_unmasked_roundtrip_witness :
  let f := mkFrame 1 0 0 0 OpcodeText 0 5 0 [104; 101; 108; 108; 111] in
  exists byts g,
    ToBytes (H := sample_rand) f false [] = ((f, Ok byts), [])
    /\ FromBufReader zero (NewReader byts) 1048576 = (g, [], None)
    /\ same_fields g f.
Proof.
  apply (FromBufReader_ToBytes_unmasked_roundtrip (H := sample_rand)).
  - unfold well_formed, is_bit. cbn. tauto.
  - reflexivity.
  - reflexivity.
  - reflexivity.
  - cbn. lia.
Defined.

(** Masked encoding in general: the payload goes out as stored, behind
    the key, and the decoder then XORs the key over it. *)
Lemma ToBytes_mask_decoded `{MathRand}
    (f : Frame) (h : list Source) (maxPayloadLen : Z) :
  well_formed f ->
  Z.of_nat (length (PayloadData f)) < 2 ^ 64 ->
  Z.of_nat (length (PayloadData f)) <= maxPayloadLen ->
  exists hdr byts h' g,
    ToBytes f true h = ((set_MASK 1 f, Ok byts), h')
    /\ byts = hdr ++ seed35_key ++ PayloadData f
    /\ FromBufReader zero (NewReader byts) maxPayloadLen = (g, [], None)
    /\ PayloadData g = MaskData (PayloadData f) seed35_key.
Proof.
  intros Hwf Hlt Hmax.
  assert (HL : 0 <= Z.of_nat (length (PayloadData f)) < 2 ^ 64) by lia.
  destruct (ToBytes_run f true h HL) as (pLen & ext & Hlf & Hrun); [discriminate|].
  exists ([byt0 f; byt1 true pLen] ++ ext). eexists _, _, (decoded f true).
  split; [exact Hrun|]. split; [rewrite <- !app_assoc; reflexivity|]. split.
  - apply (FromBufReader_wire f true pLen ext); assumption.
  - reflexivity.
Qed.

(** C1.  Whatever the generator, the text frame with payload 0 0 0 0 is
    encoded with masking into the header 0x81 0x84, the four key bytes and
    then the payload unchanged: no XOR is applied before emission.  The
    decoder, which does XOR the key over what it reads, therefore stores
    the key bytes as PayloadData, and not the original payload. *)
Theorem ToBytes_mask_payload_not_masked `{MathRand} (h : list Source) :
  let f := mkFrame 1 0 0 0 OpcodeText 0 4 0 [0; 0; 0; 0] in
  exists h' g,
    ToBytes f true h
    = ((set_MASK 1 f, Ok ([0x81; 0x84] ++ seed35_key ++ [0; 0; 0; 0])), h')
    /\ FromBufReader zero
         (NewReader ([0x81; 0x84] ++ seed35_key ++ [0; 0; 0; 0])) 125
       = (g, [], None)
    /\ PayloadData g = seed35_key
    /\ (PayloadData g = PayloadData f <-> seed35_key = [0; 0; 0; 0]).
Proof.
  intros f.
  assert (Hwf : well_formed f) by (unfold well_formed, is_bit; cbn; tauto).
  assert (HL : 0 <= Z.of_nat (length (PayloadData f)) < 2 ^ 64) by (cbn; lia).
  destruct (ToBytes_run f true h HL) as (pLen & ext & Hlf & Hrun); [discriminate|].
  injection Hlf as <- <-.
  eexists _, (decoded f true). split; [exact Hrun|]. split.
  - apply (FromBufReader_wire f true 4 []); try assumption; try reflexivity.
    cbn. lia.
  - assert (Hk : PayloadData (decoded f true) = seed35_key).
    { unfold decoded, seed35_key, MaskData. cbn [PayloadData f imap nth Nat.modulo].
      cbn. rewrite !Z.lxor_0_l. reflexivity. }
    split; [exact Hk|]. rewrite Hk. cbn [PayloadData f]. tauto.
Qed.

(** The same on the text frame hello, with the sample generator: the
    payload is on the wire as it is, and comes back XORed with the key. *)
Example ToBytes_mask_hello :
  let f := mkFrame 1 0 0 0 OpcodeText 0 5 0 [104; 101; 108; 108; 111] in
  seed35_key (H := sample_rand) = [126; 28; 233; 32]
  /\ fst (ToBytes (H := sample_rand) f true [])
     = (set_MASK 1 f,
        Ok [0x81; 0x85; 126; 28; 233; 32; 104; 101; 108; 108; 111])
  /\ PayloadData
       (fst (fst (FromBufReader zero
          (NewReader [0x81; 0x85; 126; 28; 233; 32; 104; 101; 108; 108; 111])
          125)))
     = [22; 121; 133; 76; 17].
Proof. vm_compute. repeat split; reflexivity. Qed.

(** C6.  Two decodes on an in-memory stream.  First, a frame that
    declares one payload byte, followed by one more byte: the payload loop
    takes both bytes in one read, misses its count, reads on to the end of
    the stream and fails, although the payload byte was there.  Second, a
    frame whose 16-bit extended length is zero: the payload loop is
    entered all the same, consumes what follows and fails. *)
Theorem FromBufReader_payload_overread :
  FromBufReader zero (NewReader [0x81; 0x01; 0x61; 0x62]) 125
  = (mkFrame 1 0 0 0 OpcodeText 0 1 0 [], [], Some ErrDeformedPayloadData)
  /\ FromBufReader zero (NewReader [0x81; 0x7E; 0x00; 0x00; 0x81; 0x00]) 125
     = (mkFrame 1 0 0 0 OpcodeText 0 0 0 [], [], Some ErrDeformedPayloadData).
Proof. split; vm_compute; reflexivity. Qed.

(** C9.  From any two states of the generator heap, in particular on two
    successive calls, [MakeMaskingKey] returns the same four bytes: those
    of the first draw of a generator seeded with 35. *)
Theorem MakeMaskingKey_same_on_every_call `{MathRand} (h1 h2 : list Source) :
  fst (MakeMaskingKey h1) = fst (MakeMaskingKey h2)
  /\ fst (MakeMaskingKey h1) = seed35_key
  /\ length (fst (MakeMaskingKey h1)) = 4%nat
  /\ fst (MakeMaskingKey (snd (MakeMaskingKey h1))) = fst (MakeMaskingKey h1).
Proof. rewrite !MakeMaskingKey_run. cbn [fst snd]. auto. Qed.

End FrameClaims.

(** ** UTF-8: one code point *)

Section Utf8Scalar.
Import Utf8.

(** Lead bytes carry their payload under a fixed prefix. *)
Lemma lead2 (q : Z) :
  0 <= q < 32 ->
  let b := u8 (Z.lor q 0xC0) in
  (b <=? 0x7F) = false /\ Z.shiftr b 5 = 0x6 /\ Z.land b 0x1F = q.
Proof.
  intros Hq.
  pose (P := fun q => let b := u8 (Z.lor q 0xC0) in
                      negb (b <=? 0x7F) && (Z.shiftr b 5 =? 0x6) && (Z.land b 0x1F =? q)).
  assert (HP : P q = true) by (apply (forallb_range _ 32); [vm_compute; reflexivity|lia]).
  unfold P in HP. cbv zeta in *. repeat (apply andb_true_iff in HP; destruct HP as [HP ?]).
  apply negb_true_iff in HP.
  repeat split; first [assumption | lia | apply negb_true_iff; assumption].
Qed.

Lemma lead3 (q : Z) :
  0 <= q < 16 ->
  let b := u8 (Z.lor q 0xE0) in
  (b <=? 0x7F) = false /\ (Z.shiftr b 5 =? 0x6) = false
  /\ Z.shiftr b 4 = 0xE /\ Z.land b 0xF = q.
Proof.
  intros Hq.
  pose (P := fun q => let b := u8 (Z.lor q 0xE0) in
                      negb (b <=? 0x7F) && negb (Z.shiftr b 5 =? 0x6)
                      && (Z.shiftr b 4 =? 0xE) && (Z.land b 0xF =? q)).
  assert (HP : P q = true) by (apply (forallb_range _ 16); [vm_compute; reflexivity|lia]).
  unfold P in HP. cbv zeta in *. repeat (apply andb_true_iff in HP; destruct HP as [HP ?]).
  apply negb_true_iff in HP.
  repeat split; first [assumption | lia | apply negb_true_iff; assumption].
Qed.

Lemma lead4 (q : Z) :
  0 <= q < 8 ->
  let b := u8 (Z.lor q 0xF0) in
  (b <=? 0x7F) = false /\ (Z.shiftr b 5 =? 0x6) = false
  /\ (Z.shiftr b 4 =? 0xE) = false /\ Z.shiftr b 3 = 0x1E /\ Z.land b 0x7 = q.
Proof.
  intros Hq.
  pose (P := fun q => let b := u8 (Z.lor q 0xF0) in
                      negb (b <=? 0x7F) && negb (Z.shiftr b 5 =? 0x6)
                      && negb (Z.shiftr b 4 =? 0xE)
                      && (Z.shiftr b 3 =? 0x1E) && (Z.land b 0x7 =? q)).
  assert (HP : P q = true) by (apply (forallb_range _ 8); [vm_compute; reflexivity|lia]).
  unfold P in HP. cbv zeta in *. repeat (apply andb_true_iff in HP; destruct HP as [HP ?]).
  apply negb_true_iff in HP.
  repeat split; first [assumption | lia | apply negb_true_iff; assumption].
Qed.

Lemma continuation (r : Z) :
  0 <= r < 64 -> Z.land (u8 (Z.lor r 0x80)) 0x3F = r.
Proof.
  intros Hr.
  pose (P := fun r => Z.land (u8 (Z.lor r 0x80)) 0x3F =? r).
  assert (HP : P r = true) by (apply (forallb_range _ 64); [vm_compute; reflexivity|lia]).
  unfold P in HP. lia.
Qed.

Lemma land_shiftr_six (u n m : Z) :
  0 <= n -> Z.shiftr m n = 0x3F ->
  Z.shiftr (Z.land u m) n = (u / 2 ^ n) mod 64.
Proof.
  intros Hn Hm. rewrite Z.shiftr_land, Hm.
  change 0x3F with (2 ^ 6 - 1). rewrite land_ones_mod by lia.
  rewrite Z.shiftr_div_pow2 by lia. reflexivity.
Qed.

Lemma land_low_six (u : Z) : Z.land u 0x3F = u mod 64.
Proof. change 0x3F with (2 ^ 6 - 1). apply land_ones_mod. lia. Qed.

Lemma shl32_small (x n : Z) :
  0 <= n -> 0 <= x -> x * 2 ^ n < 2 ^ 32 -> shl 32 x n = x * 2 ^ n.
Proof.
  intros Hn Hx Hlt. unfold shl, wrap. rewrite Z.shiftl_mul_pow2 by lia.
  apply Z.mod_small. split; [|assumption].
  apply Z.mul_nonneg_nonneg; [assumption|]. apply Z.pow_nonneg. lia.
Qed.

Lemma Unicode2utf8_Utf82unicode (s : Z) :
  0 <= s <= 0x10FFFF ->
  exists bs, Unicode2utf8 s = Ok bs /\ Utf82unicode bs = Ok s.
Proof.
  intros Hs. unfold Unicode2utf8.
  assert (Hr : 0 <= s mod 64 < 64) by (apply Z.mod_pos_bound; lia).
  assert (Hm2 : 0 <= (s / 64) mod 64 < 64) by (apply Z.mod_pos_bound; lia).
  assert (Hm1 : 0 <= (s / 4096) mod 64 < 64) by (apply Z.mod_pos_bound; lia).
  destruct (Z.leb_spec s 0x7F) as [H1|H1].
  { eexists. split; [reflexivity|]. unfold Utf82unicode, u8, u32, wrap.
    rewrite Z.mod_small by lia. destruct (Z.leb_spec s 0x7F); [|lia].
    rewrite Z.mod_small by lia. reflexivity. }
  destruct (Z.geb_spec s 0x80) as [_|?]; [|lia]. cbn [andb].
  destruct (Z.leb_spec s 0x7FF) as [H2|H2].
  { eexists. split; [reflexivity|]. unfold Utf82unicode.
    rewrite Z.shiftr_div_pow2, land_low_six by lia. pow_consts.
    assert (Hq : 0 <= s / 64 < 32) by aligned.
    destruct (lead2 _ Hq) as (L1 & L2 & L3). cbv zeta in L1, L2, L3.
    rewrite L1, L2. cbn [length Nat.eqb andb Z.eqb Pos.eqb nth].
    rewrite L3, (continuation _ Hr).
    rewrite shl32_small by (pow_consts; lia).
    rewrite (lor_add_aligned _ _ 6) by (pow_consts; try apply Z.mod_mul; lia).
    f_equal. pow_consts. aligned. }
  destruct (Z.geb_spec s 0x800) as [_|?]; [|lia]. cbn [andb].
  destruct (Z.leb_spec s 0xFFFF) as [H3|H3].
  { eexists. split; [reflexivity|]. unfold Utf82unicode.
    rewrite Z.shiftr_div_pow2, land_low_six by lia.
    rewrite (land_shiftr_six s 6 0xFC0) by (reflexivity || lia). pow_consts.
    assert (Hq : 0 <= s / 4096 < 16) by aligned.
    destruct (lead3 _ Hq) as (L1 & L2 & L3 & L4). cbv zeta in L1, L2, L3, L4.
    rewrite L1, L2, L3. cbn [length Nat.eqb andb Z.eqb Pos.eqb nth].
    rewrite L4, (continuation _ Hm2), (continuation _ Hr).
    rewrite !shl32_small by (pow_consts; lia). pow_consts.
    rewrite (lor_add_aligned (s / 4096 * 4096) _ 12)
      by (pow_consts; try apply Z.mod_mul; lia).
    rewrite (lor_add_aligned _ _ 6) by (pow_consts; aligned).
    f_equal. aligned. }
  destruct (Z.geb_spec s 0x10000) as [_|?]; [|lia]. cbn [andb].
  destruct (Z.leb_spec s 0x10FFFF) as [H4|H4]; [|lia].
  eexists. split; [reflexivity|]. unfold Utf82unicode.
  rewrite Z.shiftr_div_pow2, land_low_six by lia.
  rewrite (land_shiftr_six s 6 0xFC0) by (reflexivity || lia).
  rewrite (land_shiftr_six s 12 0x3F000) by (reflexivity || lia). pow_consts.
  assert (Hq : 0 <= s / 262144 < 8) by aligned.
  destruct (lead4 _ Hq) as (L1 & L2 & L3 & L4 & L5). cbv zeta in L1, L2, L3, L4, L5.
  rewrite L1, L2, L3, L4. cbn [length Nat.eqb andb Z.eqb Pos.eqb nth].
  rewrite L5, (continuation _ Hm1), (continuation _ Hm2), (continuation _ Hr).
  rewrite !shl32_small by (pow_consts; lia). pow_consts.
  rewrite (lor_add_aligned (s / 262144 * 262144) _ 18)
    by (pow_consts; try apply Z.mod_mul; lia).
  rewrite (lor_add_aligned (s / 262144 * 262144 + _) _ 12) by (pow_consts; aligned).
  rewrite (lor_add_aligned _ _ 6) by (pow_consts; aligned).
  f_equal. aligned.
Qed.

(** C7.  Every scalar value from 0 to 0x10FFFF outside the surrogate range
    is encoded by [Unicode2utf8] without error, and [Utf82unicode] decodes
    the bytes back to it. *)
Theorem Utf82unicode_Unicode2utf8_scalar (s : Z) :
  0 <= s <= 0x10FFFF ->
  ~ (0xD800 <= s <= 0xDFFF) ->
  exists bs, Unicode2utf8 s = Ok bs /\ Utf82unicode bs = Ok s.
Proof. intros Hs _. apply Unicode2utf8_Utf82unicode. assumption. Qed.

Lemma Utf82unicode_Unicode2utf8_scalar_witness :
  exists bs, Unicode2utf8 0x1F604 = Ok bs /\ Utf82unicode bs = Ok 0x1F604.
Proof. apply Utf82unicode_Unicode2utf8_scalar; lia. Defined.

End Utf8Scalar.

(** ** UTF-8: validation of a byte sequence *)

Section Utf8Validation.
Import Utf8.

(** Bit tests on a byte, as ranges. *)
Lemma byte_tests (b : Z) :
  is_byte b ->
  (Z.shiftr b 5 =? 0x6) = ((0xC0 <=? b) && (b <=? 0xDF))
  /\ (Z.shiftr b 4 =? 0xE) = ((0xE0 <=? b) && (b <=? 0xEF))
  /\ (Z.shiftr b 3 =? 0x1E) = ((0xF0 <=? b) && (b <=? 0xF7))
  /\ (Z.land b 0xC0 =? 0x80) = ((0x80 <=? b) && (b <=? 0xBF))
  /\ Z.land b 0x3F = b mod 64
  /\ Z.land b 0xF = b mod 16
  /\ Z.land b 0x7 = b mod 8.
Proof.
  intros Hb.
  pose (P := fun b =>
    Bool.eqb (Z.shiftr b 5 =? 0x6) ((0xC0 <=? b) && (b <=? 0xDF))
    && Bool.eqb (Z.shiftr b 4 =? 0xE) ((0xE0 <=? b) && (b <=? 0xEF))
    && Bool.eqb (Z.shiftr b 3 =? 0x1E) ((0xF0 <=? b) && (b <=? 0xF7))
    && Bool.eqb (Z.land b 0xC0 =? 0x80) ((0x80 <=? b) && (b <=? 0xBF))
    && (Z.land b 0x3F =? b mod 64) && (Z.land b 0xF =? b mod 16)
    && (Z.land b 0x7 =? b mod 8)).
  assert (HP : P b = true)
    by (apply (forallb_range _ 256); [vm_compute; reflexivity|exact Hb]).
  unfold P in HP.
  repeat (apply andb_true_iff in HP; destruct HP as [HP ?]).
  repeat split; try (apply Bool.eqb_prop; assumption); lia.
Qed.

Lemma tu_scalar3 (b1 b2 b3 : Z) :
  is_byte b1 -> is_byte b2 -> is_byte b3 ->
  Z.lor (Z.lor (shl 32 (Z.land b1 0xF) 12) (shl 32 (Z.land b2 0x3F) 6))
        (Z.land b3 0x3F)
  = scalar3 b1 b2 b3.
Proof.
  intros H1 H2 H3.
  destruct (byte_tests b1 H1) as (_ & _ & _ & _ & _ & -> & _).
  destruct (byte_tests b2 H2) as (_ & _ & _ & _ & -> & _).
  destruct (byte_tests b3 H3) as (_ & _ & _ & _ & -> & _).
  assert (0 <= b1 mod 16 < 16) by (apply Z.mod_pos_bound; lia).
  assert (0 <= b2 mod 64 < 64) by (apply Z.mod_pos_bound; lia).
  assert (0 <= b3 mod 64 < 64) by (apply Z.mod_pos_bound; lia).
  rewrite !shl32_small by (pow_consts; lia). pow_consts.
  rewrite (lor_add_aligned (b1 mod 16 * 4096) _ 12)
    by (pow_consts; try apply Z.mod_mul; lia).
  rewrite (lor_add_aligned _ _ 6) by (pow_consts; aligned).
  reflexivity.
Qed.

Lemma if_true_inv (c x : bool) :
  (if c then x else false) = true -> c = true /\ x = true.
Proof. destruct c; [tauto|discriminate]. Qed.

Lemma scalar4_cap (b1 b2 b3 b4 : Z) :
  b1 mod 8 <= 4 -> b2 mod 64 <= 15 -> scalar4 b1 b2 b3 b4 <= 0x10FFFF.
Proof.
  intros H1 H2. unfold scalar4.
  assert (0 <= b3 mod 64 < 64) by (apply Z.mod_pos_bound; lia).
  assert (0 <= b4 mod 64 < 64) by (apply Z.mod_pos_bound; lia).
  lia.
Qed.

(** One round of the loop on well-formed input. *)
Lemma scan_step1 (b : Z) (t : list Z) :
  b <= 0x7F -> scan (b :: t) = scan t.
Proof. intros Hb. cbn [scan]. destruct (Z.leb_spec b 0x7F); [reflexivity|lia]. Qed.

Lemma scan_step2 (b1 b2 : Z) (t : list Z) :
  0xC0 <= b1 <= 0xDF -> is_continuation b2 -> ~ (b1 = 0xC0 /\ b2 = 0x80) ->
  scan (b1 :: b2 :: t) = scan t.
Proof.
  unfold is_continuation. intros H1 H2 Hn.
  destruct (byte_tests b1) as (T5 & _); [unfold is_byte; lia|].
  destruct (byte_tests b2) as (_ & _ & _ & TC & _); [unfold is_byte; lia|].
  cbn [scan]. rewrite T5, TC.
  destruct (Z.leb_spec b1 0x7F); [lia|].
  replace ((0xC0 <=? b1) && (b1 <=? 0xDF)) with true by lia.
  replace (((0x80 <=? b2) && (b2 <=? 0xBF)) && ((b1 >? 0xC0) || (b2 >? 0x80)))
    with true by lia.
  reflexivity.
Qed.

Lemma scan_step3 (b1 b2 b3 : Z) (t : list Z) :
  0xE0 <= b1 <= 0xEF -> is_byte b2 -> is_byte b3 ->
  0x0800 <= scalar3 b1 b2 b3 <= 0xFFFF ->
  ~ (0xD800 <= scalar3 b1 b2 b3 <= 0xDFFF) ->
  scan (b1 :: b2 :: b3 :: t) = scan t.
Proof.
  intros H1 H2 H3 Hr Hs.
  assert (Hb1 : is_byte b1) by (unfold is_byte; lia).
  destruct (byte_tests b1 Hb1) as (T5 & T4 & _).
  cbn [scan]. rewrite T5, T4, tu_scalar3 by assumption.
  destruct (Z.leb_spec b1 0x7F); [lia|].
  replace ((0xC0 <=? b1) && (b1 <=? 0xDF)) with false by lia.
  replace ((0xE0 <=? b1) && (b1 <=? 0xEF)) with true by lia.
  set (tu := scalar3 b1 b2 b3) in *.
  replace ((tu >=? 0x800) && (tu <=? 0xFFFF) && negb ((tu >=? 0xD800) && (tu <=? 0xDFFF)))
    with true by lia.
  reflexivity.
Qed.

Lemma scan_step4 (b1 b2 b3 b4 : Z) (t : list Z) :
  0xF0 <= b1 <= 0xF7 -> b1 mod 8 <= 0x04 ->
  0x80 <= b2 <= 0x8F -> is_continuation b3 -> is_continuation b4 ->
  scan (b1 :: b2 :: b3 :: b4 :: t) = scan t.
Proof.
  unfold is_continuation. intros H1 Hp H2 H3 H4.
  destruct (byte_tests b1) as (T5 & T4 & T3 & _ & _ & _ & L7); [unfold is_byte; lia|].
  destruct (byte_tests b2) as (_ & _ & _ & TC2 & L2 & _); [unfold is_byte; lia|].
  destruct (byte_tests b3) as (_ & _ & _ & TC3 & _); [unfold is_byte; lia|].
  destruct (byte_tests b4) as (_ & _ & _ & TC4 & _); [unfold is_byte; lia|].
  cbn [scan]. rewrite T5, T4, T3, L7, TC2, L2, TC3, TC4.
  destruct (Z.leb_spec b1 0x7F); [lia|].
  replace ((0xC0 <=? b1) && (b1 <=? 0xDF)) with false by lia.
  replace ((0xE0 <=? b1) && (b1 <=? 0xEF)) with false by lia.
  replace ((0xF0 <=? b1) && (b1 <=? 0xF7)) with true by lia.
  assert (Hm : b2 mod 64 <= 15) by aligned.
  replace ((b1 mod 8 <=? 0x4) && ((0x80 <=? b2) && (b2 <=? 0xBF)) && (b2 mod 64 <=? 0xF)
           && ((0x80 <=? b3) && (b3 <=? 0xBF)) && ((0x80 <=? b4) && (b4 <=? 0xBF)))
    with true by lia.
  reflexivity.
Qed.

Lemma continuation_is_byte (b : Z) : is_continuation b -> is_byte b.
Proof. unfold is_continuation, is_byte. lia. Qed.

Lemma scan_strict_units (units : list (list Z)) :
  Forall strict_unit units -> scan (concat units) = true.
Proof.
  induction 1 as [|u units Hu _ IH]; [reflexivity|].
  cbn [concat]. destruct Hu as [u Hspec Hlen | b1 b2 b3 b4 H1 Hp H2 H3 H4].
  - destruct Hspec as [b Hb | b1 b2 H1 H2 Hn | b1 b2 b3 H1 H2 H3 Hr Hs | ];
      cbn [app].
    + rewrite scan_step1 by lia. assumption.
    + rewrite scan_step2 by assumption. assumption.
    + rewrite scan_step3 by (assumption || (apply continuation_is_byte; assumption)).
      assumption.
    + cbn in Hlen. lia.
  - cbn [app]. rewrite scan_step4 by assumption. assumption.
Qed.

Lemma scan_inv (b1 : Z) (t1 : list Z) :
  Forall is_byte (b1 :: t1) ->
  scan (b1 :: t1) = true ->
  exists u t, b1 :: t1 = u ++ t /\ u <> [] /\ loose_unit u /\ scan t = true.
Proof.
  intros Hb H. apply Forall_cons in Hb as [Hb1 Ht].
  destruct (byte_tests b1 Hb1) as (T5 & T4 & T3 & _ & _ & _ & L7).
  cbn [scan] in H. rewrite T5, T4, T3 in H.
  destruct (Z.leb_spec b1 0x7F).
  { exists [b1], t1. repeat split; [discriminate| |assumption].
    constructor. unfold is_byte in Hb1. lia. }
  destruct ((0xC0 <=? b1) && (b1 <=? 0xDF)) eqn:R2.
  { destruct t1 as [|b2 t2]; [discriminate|].
    apply Forall_cons in Ht as [Hb2 _].
    destruct (byte_tests b2 Hb2) as (_ & _ & _ & TC & _). rewrite TC in H.
    apply if_true_inv in H as [Hc H].
    exists [b1; b2], t2. repeat split; [discriminate| |assumption].
    constructor; unfold is_continuation; lia. }
  destruct ((0xE0 <=? b1) && (b1 <=? 0xEF)) eqn:R3.
  { destruct t1 as [|b2 [|b3 t3]]; try discriminate.
    apply Forall_cons in Ht as [Hb2 Ht]. apply Forall_cons in Ht as [Hb3 _].
    rewrite tu_scalar3 in H by assumption.
    apply if_true_inv in H as [Hc H].
    exists [b1; b2; b3], t3. repeat split; [discriminate| |assumption].
    constructor; lia. }
  destruct ((0xF0 <=? b1) && (b1 <=? 0xF7)) eqn:R4; [|discriminate].
  destruct t1 as [|b2 [|b3 [|b4 t4]]]; try discriminate.
  apply Forall_cons in Ht as [Hb2 Ht]. apply Forall_cons in Ht as [Hb3 Ht].
  apply Forall_cons in Ht as [Hb4 _].
  destruct (byte_tests b2 Hb2) as (_ & _ & _ & TC2 & L2 & _).
  destruct (byte_tests b3 Hb3) as (_ & _ & _ & TC3 & _).
  destruct (byte_tests b4 Hb4) as (_ & _ & _ & TC4 & _).
  rewrite L7, TC2, L2, TC3, TC4 in H.
  apply if_true_inv in H as [Hc H].
  exists [b1; b2; b3; b4], t4. repeat split; [discriminate| |assumption].
  constructor; unfold is_continuation; try lia.
  apply scalar4_cap; lia.
Qed.

Lemma scan_loose_units (n : nat) :
  forall bs, (length bs <= n)%nat -> Forall is_byte bs ->
    scan bs = true -> concat_of loose_unit bs.
Proof.
  induction n as [|n IH]; intros bs Hlen Hb H.
  - destruct bs; [|simpl in Hlen; lia]. exists []. split; [constructor|reflexivity].
  - destruct bs as [|b1 t1]; [exists []; split; [constructor|reflexivity]|].
    destruct (scan_inv b1 t1 Hb H) as (u & t & E & Hne & Hu & Ht).
    assert (Hlt : (length t <= n)%nat).
    { apply (f_equal length) in E. rewrite length_app in E. simpl in E, Hlen.
      destruct u; [congruence|simpl in E; lia]. }
    assert (Hbt : Forall is_byte t).
    { rewrite E in Hb. apply Forall_app in Hb. tauto. }
    destruct (IH t Hlt Hbt Ht) as (units & Hall & ->).
    exists (u :: units). split; [constructor; assumption|]. rewrite E. reflexivity.
Qed.

Lemma drop_nth_cons (bs : list Z) (i : nat) :
  (i < length bs)%nat -> drop i bs = nth i bs 0 :: drop (S i) bs.
Proof.
  intros Hi. destruct (lookup_lt_is_Some_2 bs i Hi) as [x Hx].
  rewrite (drop_S _ _ _ Hx). f_equal. rewrite nth_lookup, Hx. reflexivity.
Qed.

(** The loop on the index and the recursion on the rest agree. *)
Lemma IsIntactUtf8_loop_scan (fuel : nat) :
  forall (bs : list Z) (i : nat),
    (i <= length bs)%nat -> (length bs - i < fuel)%nat ->
    IsIntactUtf8_loop fuel bs i = Some (scan (drop i bs)).
Proof.
  induction fuel as [|fuel IH]; intros bs i Hi Hfuel; [lia|].
  cbn [IsIntactUtf8_loop]. cbv zeta.
  destruct (Nat.eqb_spec i (length bs)) as [->|Hne].
  { rewrite drop_all. reflexivity. }
  rewrite (drop_nth_cons bs i) by lia. cbn [scan].
  destruct (nth i bs 0 <=? 0x7F).
  { rewrite Nat.add_1_r. apply IH; lia. }
  destruct (Z.shiftr (nth i bs 0) 5 =? 0x6).
  { destruct (Nat.leb_spec 2 (length bs - i)) as [H2|H2]; cbn [andb].
    - rewrite (drop_nth_cons bs (S i)) by lia. rewrite !Nat.add_1_r.
      destruct (_ && _); [apply IH; lia|reflexivity].
    - rewrite drop_ge by lia. reflexivity. }
  destruct (Z.shiftr (nth i bs 0) 4 =? 0xE).
  { destruct (Nat.leb_spec 3 (length bs - i)) as [H3|H3].
    - rewrite (drop_nth_cons bs (S i)), (drop_nth_cons bs (S (S i))) by lia.
      replace (i + 1)%nat with (S i) by lia.
      replace (i + 2)%nat with (S (S i)) by lia.
      replace (S (S i) + 1)%nat with (S (S (S i))) by lia.
      destruct (_ && _); [apply IH; lia|reflexivity].
    - destruct (Nat.lt_ge_cases (S i) (length bs)) as [Hl|Hl].
      + rewrite (drop_nth_cons bs (S i)), (drop_ge bs (S (S i))) by lia. reflexivity.
      + rewrite drop_ge by lia. reflexivity. }
  destruct (Z.shiftr (nth i bs 0) 3 =? 0x1E); [|reflexivity].
  destruct (Nat.leb_spec 4 (length bs - i)) as [H4|H4]; cbn [andb].
  - rewrite (drop_nth_cons bs (S i)), (drop_nth_cons bs (S (S i))),
      (drop_nth_cons bs (S (S (S i)))) by lia.
    replace (i + 1)%nat with (S i) by lia.
    replace (i + 2)%nat with (S (S i)) by lia.
    replace (i + 3)%nat with (S (S (S i))) by lia.
    replace (S (S (S i)) + 1)%nat with (S (S (S (S i)))) by lia.
    destruct (_ && _); [apply IH; lia|reflexivity].
  - destruct (Nat.lt_ge_cases (S i) (length bs)) as [Hl1|Hl1];
      [|rewrite drop_ge by lia; reflexivity].
    rewrite (drop_nth_cons bs (S i)) by lia.
    destruct (Nat.lt_ge_cases (S (S i)) (length bs)) as [Hl2|Hl2];
      [|rewrite (drop_ge bs (S (S i))) by lia; reflexivity].
    rewrite (drop_nth_cons bs (S (S i))), (drop_ge bs (S (S (S i)))) by lia.
    reflexivity.
Qed.

Lemma IsIntactUtf8_scan (bs : list Z) : IsIntactUtf8 bs = scan bs.
Proof.
  unfold IsIntactUtf8. rewrite IsIntactUtf8_loop_scan by lia. reflexivity.
Qed.

(** C3, as stated, fails: F4 90 80 80 is a 4-byte form of section 4.3 (lead
    payload 4, three bytes that begin 10xxxxxx), and the validator rejects
    it, the scalar being beyond U+10FFFF. *)
Lemma IsIntactUtf8_rejects_beyond_10FFFF :
  concat_of spec_unit [0xF4; 0x90; 0x80; 0x80]
  /\ IsIntactUtf8 [0xF4; 0x90; 0x80; 0x80] = false.
Proof.
  split; [|vm_compute; reflexivity].
  exists [[0xF4; 0x90; 0x80; 0x80]]. split; [|reflexivity].
  apply Forall_cons. split; [|constructor].
  apply spec_unit4; unfold is_continuation;
    first [lia | vm_compute; repeat split; discriminate].
Qed.

(** C3, amended.  On a sequence of bytes, [IsIntactUtf8] answers true for
    every concatenation of the 1-, 2- and 3-byte encodings of section 4.3
    and of 4-byte encodings whose lead payload is at most 4 and whose second
    byte is at most 0x8F; and what it answers true for is a concatenation
    of 1-byte forms, 2-byte forms other than C0 80, groups of three bytes
    led by 1110xxxx with a scalar in 0x0800..0xFFFF outside the surrogates,
    and 4-byte forms with a lead payload of at most 4 and a scalar of at
    most 0x10FFFF. *)
Theorem IsIntactUtf8_between_strict_and_loose (bs : list Z) :
  Forall is_byte bs ->
  (concat_of strict_unit bs -> IsIntactUtf8 bs = true)
  /\ (IsIntactUtf8 bs = true -> concat_of loose_unit bs).
Proof.
  intros Hb. split.
  - intros (units & Hall & ->). rewrite IsIntactUtf8_scan.
    apply scan_strict_units. assumption.
  - rewrite IsIntactUtf8_scan.
    apply (scan_loose_units (length bs)); [lia|assumption].
Qed.

Lemma IsIntactUtf8_between_strict_and_loose_witness :
  let bs := [0x61; 0xC2; 0xA9; 0xE6; 0xB1; 0x89; 0xF4; 0x8F; 0xBF; 0xBF] in
  IsIntactUtf8 bs = true /\ concat_of loose_unit bs.
Proof.
  intros bs.
  assert (Hb : Forall is_byte bs) by (repeat constructor; unfold is_byte; lia).
  destruct (IsIntactUtf8_between_strict_and_loose bs Hb) as [Hin Hout].
  assert (Hs : concat_of strict_unit bs).
  { exists [[0x61]; [0xC2; 0xA9]; [0xE6; 0xB1; 0x89]; [0xF4; 0x8F; 0xBF; 0xBF]].
    split; [|reflexivity].
    repeat first
      [ apply Forall_nil
      | apply Forall_cons; split
      | apply strict_unit4
      | apply strict_unit123; [|cbn; lia]
      | apply spec_unit1 | apply spec_unit2 | apply spec_unit3 ];
      unfold is_continuation, scalar3;
      first [lia | vm_compute; repeat split; discriminate
            | vm_compute; intros [? ?]; contradiction]. }
  split; [apply Hin; exact Hs|apply Hout, Hin; exact Hs].
Defined.

(** The repository's own encoding of U+1F604 is turned down, and a 3-byte
    group without continuation bytes goes through. *)
Example IsIntactUtf8_on_emoji :
  Unicode2utf8 0x1F604 = Ok [0xF0; 0x9F; 0x98; 0x84]
  /\ IsIntactUtf8 [0xF0; 0x9F; 0x98; 0x84] = false.
Proof. split; vm_compute; reflexivity. Qed.

Example IsIntactUtf8_on_bare_triple : IsIntactUtf8 [0xE1; 0x41; 0x41] = true.
Proof. vm_compute. reflexivity. Qed.

End Utf8Validation.

(** ** The accept key *)

Section AcceptKey.
Import Accept.
Local Open Scope string_scope.

(** C5.  [MakeAcceptKey k] is the standard base64 text of the SHA-1 digest
    of [k] followed by the GUID 258EAFA5-E914-47DA-95CA-C5AB0DC85B11, and
    the key for M/A= is 5oBJ6efz0YUYE2VFXcCfYKTBqYY=. *)
Theorem MakeAcceptKey_base64_sha1 :
  (forall k : string,
     MakeAcceptKey k
     = Base64.EncodeToString
         (Sha1.Sum (bytes_of_string (k ++ "258EAFA5-E914-47DA-95CA-C5AB0DC85B11"))))
  /\ MakeAcceptKey "M/A=" = "5oBJ6efz0YUYE2VFXcCfYKTBqYY=".
Proof. split; [reflexivity|vm_compute; reflexivity]. Qed.

(** The digest and the encoding on their standard test vectors. *)
Example Sha1_abc :
  Sha1.Sum (bytes_of_string "abc")
  = [0xA9; 0x99; 0x3E; 0x36; 0x47; 0x06; 0x81; 0x6A; 0xBA; 0x3E;
     0x25; 0x71; 0x78; 0x50; 0xC2; 0x6C; 0x9C; 0xD0; 0xD8; 0x9D]%Z.
Proof. vm_compute. reflexivity. Qed.

Example Sha1_two_blocks :
  Sha1.Sum (bytes_of_string "abcdbcdecdefdefgefghfghighijhijkijkljklmklmnlmnomnopnopq")
  = [0x84; 0x98; 0x3E; 0x44; 0x1C; 0x3B; 0xD2; 0x6E; 0xBA; 0xAE;
     0x4A; 0xA1; 0xF9; 0x51; 0x29; 0xE5; 0xE5; 0x46; 0x70; 0xF1]%Z.
Proof. vm_compute. reflexivity. Qed.

Example Base64_foobar :
  Base64.EncodeToString (bytes_of_string "foobar") = "Zm9vYmFy"
  /\ Base64.EncodeToString (bytes_of_string "fooba") = "Zm9vYmE="
  /\ Base64.EncodeToString (bytes_of_string "foob") = "Zm9vYg==".
Proof. repeat split; vm_compute; reflexivity. Qed.

Example MakeAcceptKey_rfc6455 :
  MakeAcceptKey "dGhlIHNhbXBsZSBub25jZQ==" = "s3pPLMBiTxaQ9kYGzzhZRbK+xOo=".
Proof. vm_compute. reflexivity. Qed.

End AcceptKey.

(** ** The default handshake check *)

Section HandshakeCheck.
Import Header Conn.
Local Open Scope string_scope.
Local Open Scope Z_scope.

Lemma prefix_app (p s : string) :
  String.prefix p s = true <-> exists post, s = p +:+ post.
Proof.
  revert s. induction p as [|a p IH]; intros s.
  - destruct s; cbn; (split; [intros _; eexists; reflexivity|reflexivity]).
  - destruct s as [|b s]; cbn.
    + split; [discriminate|intros [post E]; discriminate].
    + destruct (ascii_dec a b) as [->|Hne].
      * rewrite IH. split; intros [post E]; exists post; [rewrite E; reflexivity|].
        injection E as ->. reflexivity.
      * split; [discriminate|]. intros [post E]. injection E as -> _. congruence.
Qed.

Lemma Contains_spec (s sub : string) :
  Contains s sub = true <-> contains_substring s sub.
Proof.
  unfold contains_substring. induction s as [|a s IH].
  - cbn [Contains]. rewrite orb_false_r, prefix_app. split.
    + intros [post E]. exists "", post. exact E.
    + intros (pre & post & E). destruct pre; [exists post; exact E|discriminate].
  - cbn [Contains]. rewrite orb_true_iff, prefix_app, IH. split.
    + intros [[post E] | (pre & post & E)].
      * exists "", post. exact E.
      * exists (String a pre), post. rewrite E. reflexivity.
    + intros (pre & post & E). destruct pre as [|a' pre].
      * left. exists post. exact E.
      * right. injection E as -> E. exists pre, post. exact E.
Qed.

Lemma HasKey_spec (h : Header) (key : string) :
  HasKey h key = true <-> is_Some (h !! key).
Proof.
  unfold HasKey. destruct (h !! key).
  - split; [eauto|reflexivity].
  - split; [discriminate|]. intros [x Hx]. discriminate.
Qed.

Lemma HasKeyAndValContains_spec (h : Header) (key val : string) :
  header_wf h ->
  exists b, HasKeyAndValContains h key val = Ret b
            /\ (b = true <-> first_value h key (fun v => contains_substring v val)).
Proof.
  intros Hwf. unfold HasKeyAndValContains, first_value.
  destruct (h !! key) as [vs|] eqn:E.
  - destruct vs as [|v vs]; [exfalso; exact (Hwf _ _ E eq_refl)|].
    eexists. split; [reflexivity|]. rewrite Contains_spec. split.
    + intros Hc. exists v, vs. auto.
    + intros (v' & vs' & E' & Hc). congruence.
  - exists false. split; [reflexivity|]. split; [discriminate|].
    intros (v & vs & E' & _). discriminate.
Qed.

Lemma HasKeyAndValEqual_spec (h : Header) (key val : string) :
  header_wf h ->
  exists b, HasKeyAndValEqual h key val = Ret b
            /\ (b = true <-> first_value h key (fun v => v = val)).
Proof.
  intros Hwf. unfold HasKeyAndValEqual, first_value.
  destruct (h !! key) as [vs|] eqn:E.
  - destruct vs as [|v vs]; [exfalso; exact (Hwf _ _ E eq_refl)|].
    eexists. split; [reflexivity|]. rewrite String.eqb_eq. split.
    + intros Hc. exists v, vs. auto.
    + intros (v' & vs' & E' & Hc). congruence.
  - exists false. split; [reflexivity|]. split; [discriminate|].
    intros (v & vs & E' & _). discriminate.
Qed.

Lemma GetOne_first (h : Header) (key val : string) :
  first_value h key (fun v => v = val) -> GetOne h key = Ret val.
Proof.
  intros (v & vs & E & ->). unfold GetOne, Get. rewrite E. reflexivity.
Qed.

Lemma first_value_is_Some (h : Header) (key : string) (P : string -> Prop) :
  first_value h key P -> HasKey h key = true.
Proof. intros (v & vs & E & _). unfold HasKey. rewrite E. reflexivity. Qed.

(** C4.  On a request whose header keys all have a value, the check returns
    code 0 and no error exactly when rules 1 to 6 hold and the open-handler
    router has a handler for the URL path; it returns 400 with an error
    when one of rules 1 to 6 fails, and 404 with an error when they hold
    and only the handler is missing. *)
Theorem DefaultServerHandshakeCheck_codes {R} `{OnConnOpenRouter R}
    (hsReq : HandshakeRequest) (router : R) :
  header_wf (Header_ hsReq) ->
  (DefaultServerHandshakeCheck hsReq router = Ret (0, None)
   <-> rules_1_to_6 hsReq /\ HasHandler router (RequestURL_Path hsReq) = true)
  /\ (~ rules_1_to_6 hsReq ->
      exists e, DefaultServerHandshakeCheck hsReq router = Ret (400, Some e))
  /\ (rules_1_to_6 hsReq ->
      HasHandler router (RequestURL_Path hsReq) = false ->
      exists e, DefaultServerHandshakeCheck hsReq router = Ret (404, Some e)).
Proof.
  intros Hwf. unfold DefaultServerHandshakeCheck, rules_1_to_6.
  set (h := Header_ hsReq) in *. cbv zeta.
  destruct (String.eqb_spec (ProtoVer hsReq) "1.1") as [Hv|Hv]; cbn [negb];
    [|split; [split; [discriminate|tauto]|split; [eauto|tauto]]].
  pose proof (HasKey_spec h "Host") as Hhost.
  destruct (HasKey h "Host"); cbn [negb];
    [|assert (~ is_Some (h !! "Host")) by (rewrite <- Hhost; discriminate);
      split; [split; [discriminate|tauto]|split; [eauto|tauto]]].
  destruct (HasKeyAndValContains_spec h "Connection" "Upgrade" Hwf) as (c & -> & Hc).
  cbn [exec_bind].
  destruct c; cbn [negb];
    [|assert (~ first_value h "Connection" (fun v => contains_substring v "Upgrade"))
        by (rewrite <- Hc; discriminate);
      split; [split; [discriminate|tauto]|split; [eauto|tauto]]].
  destruct (HasKeyAndValEqual_spec h "Upgrade" "websocket" Hwf) as (u & -> & Hu).
  cbn [exec_bind].
  destruct u; cbn [negb];
    [|assert (~ first_value h "Upgrade" (fun v => v = "websocket"))
        by (rewrite <- Hu; discriminate);
      split; [split; [discriminate|tauto]|split; [eauto|tauto]]].
  destruct (HasKeyAndValEqual_spec h "Sec-WebSocket-Version" "13" Hwf) as (v & -> & Hver).
  cbn [exec_bind].
  destruct v; cbn [negb];
    [|assert (~ first_value h "Sec-WebSocket-Version" (fun v => v = "13"))
        by (rewrite <- Hver; discriminate);
      split; [split; [discriminate|tauto]|split; [eauto|tauto]]].
  assert (Hfv : first_value h "Sec-WebSocket-Version" (fun v => v = "13"))
    by (apply Hver; reflexivity).
  rewrite (first_value_is_Some _ _ _ Hfv), (GetOne_first _ _ _ Hfv).
  cbn [negb exec_bind String.eqb Ascii.eqb Bool.eqb].
  pose proof (HasKey_spec h "Sec-WebSocket-Key") as Hkey.
  destruct (HasKey h "Sec-WebSocket-Key"); cbn [negb];
    [|assert (~ is_Some (h !! "Sec-WebSocket-Key")) by (rewrite <- Hkey; discriminate);
      split; [split; [discriminate|tauto]|split; [eauto|tauto]]].
  assert (Hall : ProtoVer hsReq = "1.1" /\ is_Some (h !! "Host")
                 /\ first_value h "Connection" (fun v => contains_substring v "Upgrade")
                 /\ first_value h "Upgrade" (fun v => v = "websocket")
                 /\ first_value h "Sec-WebSocket-Version" (fun v => v = "13")
                 /\ is_Some (h !! "Sec-WebSocket-Key")).
  { repeat split; try assumption; try (apply Hhost; reflexivity);
      try (apply Hc; reflexivity); try (apply Hu; reflexivity);
      try (apply Hkey; reflexivity). }
  destruct (HasHandler router (RequestURL_Path hsReq)); cbn [negb].
  - split; [tauto|]. split; [tauto|discriminate].
  - split; [split; [discriminate|intros [_ ?]; discriminate]|].
    split; [tauto|eauto].
Qed.

End HandshakeCheck.

(** ** Parsing the header block *)

Section HeaderParsing.
Import Header Conn.
Local Open Scope string_scope.
Local Open Scope Z_scope.
#[local] Arguments String.append : simpl nomatch.

Lemma header_wf_empty : header_wf ∅.
Proof. intros k vs E. rewrite lookup_empty in E. discriminate. Qed.

Lemma header_wf_insert (h : Header) (k : string) (vs : list string) :
  header_wf h -> vs <> [] -> header_wf (<[k := vs]> h).
Proof.
  intros Hwf Hne k' vs' E. destruct (decide (k = k')) as [->|Hk].
  - rewrite lookup_insert_eq in E. congruence.
  - rewrite lookup_insert_ne in E by assumption. eapply Hwf. eassumption.
Qed.

Lemma header_wf_append_val (h : Header) (key val : string) :
  header_wf h -> header_wf (append_val h key val).
Proof.
  intros Hwf. apply header_wf_insert; [assumption|].
  destruct (default [] (h !! key)); discriminate.
Qed.

Lemma FromBytes_line_wf (h h' : Header) (line : string) (isCRLF : bool) e :
  header_wf h -> FromBytes_line h line isCRLF = Ret (h', e) -> header_wf h'.
Proof.
  intros Hwf. unfold FromBytes_line.
  destruct (IndexByte line ":" <? 0); [intros [= <- _]; assumption|].
  destruct (if isCRLF then _ else _) as [val|]; [|discriminate]. cbn [exec_bind].
  destruct (slice line 0 _) as [key|]; [|discriminate]. cbn [exec_bind].
  intros [= <- _]. apply header_wf_append_val. assumption.
Qed.

Lemma ReadBytes_shorter (br : string) (delim : ascii) line rest :
  ReadBytes br delim = (line, rest, None) ->
  (String.length rest < String.length br)%nat.
Proof.
  revert line. induction br as [|a br IH]; intros line; cbn [ReadBytes].
  - discriminate.
  - destruct (Ascii.eqb a delim).
    + intros [= _ <-]. cbn. lia.
    + destruct (ReadBytes br delim) as [[l r] e] eqn:E.
      intros [= _ <- ->]. specialize (IH _ eq_refl). cbn. lia.
Qed.

(** The loop ends within the fuel [FromBytes] gives it, and keeps the
    header well-formed. *)
Lemma FromBytes_loop_total (fuel : nat) :
  forall (h : Header) (br : string) (isCRLF : bool),
    (String.length br < fuel)%nat ->
    exists out, FromBytes_loop fuel h br isCRLF = Some out.
Proof.
  induction fuel as [|fuel IH]; intros h br isCRLF Hlt; [lia|].
  cbn [FromBytes_loop].
  destruct (ReadBytes br "010") as [[line rest] [[]|]] eqn:E; [eauto|].
  apply ReadBytes_shorter in E.
  destruct (FromBytes_line h line isCRLF) as [[h' [e|]]|]; eauto.
  apply IH. lia.
Qed.

Lemma FromBytes_loop_wf (fuel : nat) :
  forall (h h' : Header) (br : string) (isCRLF : bool) e,
    header_wf h ->
    FromBytes_loop fuel h br isCRLF = Some (Ret (h', e)) -> header_wf h'.
Proof.
  induction fuel as [|fuel IH]; intros h h' br isCRLF e Hwf; [discriminate|].
  cbn [FromBytes_loop].
  destruct (ReadBytes br "010") as [[line rest] [[]|]] eqn:E.
  - intros [= <- _]. assumption.
  - destruct (FromBytes_line h line isCRLF) as [[h1 [e1|]]|] eqn:El.
    + intros [= <- _]. eapply FromBytes_line_wf; eassumption.
    + apply IH. eapply FromBytes_line_wf; eassumption.
    + discriminate.
Qed.

Lemma FromBytes_header_wf (h h' : Header) (bs : string) (isCRLF : bool) e :
  header_wf h -> FromBytes h bs isCRLF = Ret (h', e) -> header_wf h'.
Proof.
  intros Hwf. unfold FromBytes.
  destruct (FromBytes_loop_total (S (String.length bs)) h bs isCRLF) as [out E]; [lia|].
  rewrite E. intros ->. eapply FromBytes_loop_wf; eassumption.
Qed.

Lemma IndexByte_range (s : string) (c : ascii) :
  IndexByte s c = -1 \/ 0 <= IndexByte s c < len s.
Proof.
  unfold len. induction s as [|a s IH]; cbn [IndexByte String.length]; [left; reflexivity|].
  destruct (Ascii.eqb a c); [right; lia|].
  destruct (Z.ltb_spec (IndexByte s c) 0); [left; reflexivity|right; lia].
Qed.

Lemma IndexByte_app (k s : string) (c : ascii) :
  IndexByte k c < 0 -> IndexByte (k +:+ String c s) c = len k.
Proof.
  unfold len. induction k as [|a k IH]; cbn [IndexByte String.append String.length].
  - intros _. rewrite Ascii.eqb_refl. reflexivity.
  - destruct (Ascii.eqb a c); [lia|].
    destruct (Z.ltb_spec (IndexByte k c) 0) as [Hn|Hn]; [|lia].
    intros _. rewrite (IH Hn).
    destruct (Z.ltb_spec (Z.of_nat (String.length k)) 0); lia.
Qed.

Lemma ReadBytes_app (k rest : string) (delim : ascii) :
  IndexByte k delim < 0 ->
  ReadBytes (k +:+ String delim rest) delim = (k +:+ String delim "", rest, None).
Proof.
  induction k as [|a k IH]; cbn [IndexByte String.append ReadBytes].
  - intros _. rewrite Ascii.eqb_refl. reflexivity.
  - destruct (Ascii.eqb a delim); [lia|].
    destruct (Z.ltb_spec (IndexByte k delim) 0) as [Hn|Hn]; [|lia].
    intros _. rewrite (IH Hn). reflexivity.
Qed.

Lemma string_app_assoc (a b c : string) : (a +:+ b) +:+ c = a +:+ (b +:+ c).
Proof. induction a as [|x a IH]; cbn [String.append]; [reflexivity|]. rewrite IH. reflexivity. Qed.

Lemma len_app (a b : string) : len (a +:+ b) = len a + len b.
Proof.
  unfold len. induction a as [|c a IH]; cbn [String.append String.length]; lia.
Qed.

Lemma IndexByte_app_skip (k s : string) (c : ascii) :
  IndexByte k c < 0 -> IndexByte s c < 0 -> IndexByte (k +:+ s) c < 0.
Proof.
  induction k as [|a k IH]; cbn [IndexByte String.append]; [tauto|].
  destruct (Ascii.eqb a c); [lia|].
  destruct (Z.ltb_spec (IndexByte k c) 0) as [Hn|Hn]; [|lia].
  intros _ Hs. specialize (IH Hn Hs).
  destruct (Z.ltb_spec (IndexByte (k +:+ s) c) 0); lia.
Qed.

(** C10, as stated, fails: in Host:x the colon is followed by one byte
    before the line terminator, the bounds of the value slice are 6 and 6,
    and [FromBytes] returns the header with an empty value. *)
Lemma FromBytes_one_byte_after_colon :
  let line := String.append "Host:x" (String "010" "") in
  IndexByte line ":" + 2 = len line - 1
  /\ FromBytes ∅ line false = Ret (<["Host" := [""]]> ∅, None).
Proof. split; vm_compute; reflexivity. Qed.

(** C10, amended.  [FromBytes] panics on Host: followed at once by LF, and
    with [isCRLF] on Host: followed at once by CR LF; and so it does on any
    input whose first line is a name without colon or LF, a colon, and at
    once the line terminator, the bounds of the value slice being two past
    the colon and one past it. *)
Theorem FromBytes_colon_then_terminator (h : Header) (k rest : string) :
  IndexByte k ":" < 0 ->
  IndexByte k "010" < 0 ->
  FromBytes ∅ (String.append "Host:" (String "010" "")) false = Panic
  /\ FromBytes ∅ (String.append "Host:" (String "013" (String "010" ""))) true = Panic
  /\ FromBytes h (k +:+ ":" +:+ String "010" rest) false = Panic
  /\ FromBytes h (k +:+ ":" +:+ String "013" (String "010" rest)) true = Panic.
Proof.
  intros Hc Hn.
  split; [vm_compute; reflexivity|]. split; [vm_compute; reflexivity|].
  assert (Hk : 0 <= len k) by (unfold len; lia).
  split.
  - unfold FromBytes. cbn [FromBytes_loop].
    change (k +:+ ":" +:+ String "010" rest)
      with (k +:+ String ":" (String "010" rest)).
    replace (k +:+ String ":" (String "010" rest))
      with ((k +:+ ":") +:+ String "010" rest)
      by (rewrite string_app_assoc; reflexivity).
    rewrite ReadBytes_app
      by (apply IndexByte_app_skip; [assumption|vm_compute; reflexivity]).
    unfold FromBytes_line.
    replace ((k +:+ ":") +:+ String "010" "") with (k +:+ String ":" (String "010" ""))
      by (rewrite string_app_assoc; reflexivity).
    rewrite IndexByte_app by assumption.
    destruct (Z.ltb_spec (len k) 0); [lia|].
    unfold slice at 1. rewrite len_app. change (len (String ":" (String "010" ""))) with 2.
    replace ((0 <=? len k + 2) && (len k + 2 <=? len k + 2 - 1)) with false by lia.
    reflexivity.
  - unfold FromBytes. cbn [FromBytes_loop].
    replace (k +:+ ":" +:+ String "013" (String "010" rest))
      with ((k +:+ String ":" (String "013" "")) +:+ String "010" rest)
      by (rewrite string_app_assoc; reflexivity).
    rewrite ReadBytes_app
      by (apply IndexByte_app_skip; [assumption|vm_compute; reflexivity]).
    unfold FromBytes_line.
    replace ((k +:+ String ":" (String "013" "")) +:+ String "010" "")
      with (k +:+ String ":" (String "013" (String "010" "")))
      by (rewrite string_app_assoc; reflexivity).
    rewrite IndexByte_app by assumption.
    destruct (Z.ltb_spec (len k) 0); [lia|].
    unfold slice at 1. rewrite len_app.
    change (len (String ":" (String "013" (String "010" "")))) with 3.
    replace ((0 <=? len k + 2) && (len k + 2 <=? len k + 3 - 2)) with false by lia.
    reflexivity.
Qed.

Lemma FromBytes_colon_then_terminator_witness :
  FromBytes ∅ (String.append "Host:" (String "010" "")) false = Panic
  /\ FromBytes ∅ (String.append "Host:" (String "013" (String "010" ""))) true = Panic
  /\ FromBytes ∅ ("Upgrade" +:+ ":" +:+ String "010" "Host: a") false = Panic
  /\ FromBytes ∅ ("Upgrade" +:+ ":" +:+ String "013" (String "010" "Host: a")) true = Panic.
Proof.
  apply (FromBytes_colon_then_terminator ∅ "Upgrade" "Host: a");
    vm_compute; reflexivity.
Defined.

End HeaderParsing.

(** ** The handshake check on a sample request *)

Section HandshakeSample.
Import Header Conn.
Local Open Scope string_scope.
Local Open Scope Z_scope.

Lemma DefaultServerHandshakeCheck_codes_witness :
  (DefaultServerHandshakeCheck sample_request sample_router = Ret (0, None)
   <-> rules_1_to_6 sample_request
       /\ HasHandler sample_router (RequestURL_Path sample_request) = true)
  /\ (~ rules_1_to_6 sample_request ->
      exists e, DefaultServerHandshakeCheck sample_request sample_router
                = Ret (400, Some e))
  /\ (rules_1_to_6 sample_request ->
      HasHandler sample_router (RequestURL_Path sample_request) = false ->
      exists e, DefaultServerHandshakeCheck sample_request sample_router
                = Ret (404, Some e)).
Proof.
  apply DefaultServerHandshakeCheck_codes.
  repeat (apply header_wf_insert; [|discriminate]). apply header_wf_empty.
Defined.

Example DefaultServerHandshakeCheck_accepts :
  DefaultServerHandshakeCheck sample_request sample_router = Ret (0, None).
Proof. vm_compute. reflexivity. Qed.

Example DefaultServerHandshakeCheck_unknown_path :
  DefaultServerHandshakeCheck sample_request (∅ : gmap string unit)
  = Ret (404, Some (ProtocolError "service not found for: /chat")).
Proof. vm_compute. reflexivity. Qed.

End HandshakeSample.

(** ** The connection pool *)

Section Pool.
Import ConnPool.

(** C8.  A connection is added to a new pool and deleted twice, as by two
    calls of [Close].  It gets ID 1, and the count follows the map through
    [Add] and the first [Del]; the second [Del] finds no entry to delete
    and still decrements, so [Count] wraps to 2^64 - 1 over an empty map. *)
Theorem ConnPool_Count_after_second_Del :
  let cp1 := fst (Add NewConnPool (mkConn 0 0)) in
  let c1 := snd (Add NewConnPool (mkConn 0 0)) in
  let cp2 := Del cp1 c1 in
  let cp3 := Del cp2 c1 in
  ID c1 = 1
  /\ Count cp1 = 1 /\ size (p cp1) = 1%nat
  /\ Count cp2 = 0 /\ size (p cp2) = 0%nat
  /\ p cp2 !! ID c1 = None
  /\ Count cp3 = 18446744073709551615 /\ size (p cp3) = 0%nat.
Proof. vm_compute. repeat split; reflexivity. Qed.

(** What does hold.  IDs first: whatever is deleted, [Add] hands out
    idx+1, idx+2, ... as long as the counter stays below 2^64. *)
Lemma run_ids (ops : list op) :
  forall cp, 0 <= idx cp -> idx cp + Z.of_nat (adds ops) < 2 ^ 64 ->
    snd (run cp ops)
    = map (fun i => idx cp + Z.of_nat i) (seq 1 (adds ops)).
Proof.
  induction ops as [|[c|c] ops IH]; intros cp H0 Hlt; cbn [run adds].
  - reflexivity.
  - cbn [adds] in Hlt. unfold Add.
    assert (E : u64 (idx cp + 1) = idx cp + 1)
      by (unfold u64, wrap; apply Z.mod_small; lia).
    rewrite E.
    destruct (run _ ops) as [cp'' ids] eqn:Er. cbn [snd ID].
    cbn [seq map]. f_equal; try lia.
    change ids with (snd (cp'', ids)). rewrite <- Er.
    rewrite IH by (cbn [idx]; lia). cbn [idx].
    rewrite <- (seq_shift (adds ops) 1), map_map. apply map_ext. intros i. lia.
  - cbn [adds] in Hlt. rewrite (IH (Del cp c)) by (cbn [idx Del]; assumption).
    reflexivity.
Qed.

(** And the count, as long as every [Del] is given a connection that is in
    the map. *)
Lemma pool_inv_New : pool_inv NewConnPool.
Proof.
  unfold pool_inv, NewConnPool. cbn [idx p count].
  split; [lia|].
  split; [intros k [x Hx]; rewrite lookup_empty in Hx; discriminate|].
  split; [rewrite map_size_empty; reflexivity|lia].
Qed.

Lemma pool_inv_Add (cp : ConnPool) (c : Conn) :
  pool_inv cp -> idx cp < 2 ^ 64 - 1 -> pool_inv (fst (Add cp c)).
Proof.
  intros (H0 & Hkeys & Hcount & Hle) Hlt. unfold Add, pool_inv. cbn [fst idx p count].
  assert (E : u64 (idx cp + 1) = idx cp + 1)
    by (unfold u64, wrap; apply Z.mod_small; lia).
  assert (E' : u64 (count cp + 1) = count cp + 1)
    by (unfold u64, wrap; apply Z.mod_small; lia).
  rewrite E, E'.
  assert (Hfresh : p cp !! (idx cp + 1) = None).
  { destruct (p cp !! (idx cp + 1)) eqn:El; [|reflexivity].
    specialize (Hkeys (idx cp + 1)). rewrite El in Hkeys.
    specialize (Hkeys (ex_intro _ _ eq_refl)). lia. }
  split; [lia|]. split; [|split; [rewrite map_size_insert_None by assumption; lia|lia]].
  intros k Hk. destruct (decide (idx cp + 1 = k)) as [<-|Hne]; [lia|].
  rewrite lookup_insert_ne in Hk by assumption. apply Hkeys in Hk. lia.
Qed.

Lemma pool_inv_Del (cp : ConnPool) (c : Conn) :
  pool_inv cp -> is_Some (p cp !! ID c) -> pool_inv (Del cp c).
Proof.
  intros (H0 & Hkeys & Hcount & Hle) Hin. unfold Del, pool_inv. cbn [idx p count].
  assert (Hpos : (0 < size (p cp))%nat).
  { destruct (size (p cp)) eqn:Es; [|lia].
    apply map_size_empty_iff in Es. rewrite Es, lookup_empty in Hin.
    destruct Hin; discriminate. }
  assert (E : u64 (count cp - 1) = count cp - 1)
    by (unfold u64, wrap; apply Z.mod_small; lia).
  rewrite E, map_size_delete_Some by assumption.
  split; [lia|]. split; [|split; lia].
  intros k Hk. destruct (decide (ID c = k)) as [<-|Hne].
  - rewrite lookup_delete_eq in Hk. destruct Hk; discriminate.
  - rewrite lookup_delete_ne in Hk by assumption. apply Hkeys in Hk. lia.
Qed.

Lemma run_pool_inv (ops : list op) :
  forall cp, pool_inv cp -> idx cp + Z.of_nat (adds ops) < 2 ^ 64 ->
    dels_present cp ops ->
    pool_inv (fst (run cp ops))
    /\ Count (fst (run cp ops)) = Z.of_nat (size (p (fst (run cp ops)))).
Proof.
  induction ops as [|[c|c] ops IH]; intros cp Hinv Hlt Hdels;
    cbn [run adds dels_present] in *.
  - split; [assumption|]. apply Hinv.
  - pose proof (pool_inv_Add cp c Hinv ltac:(lia)) as Hinv'.
    assert (Hidx : idx (fst (Add cp c)) = idx cp + 1).
    { unfold Add. cbn [fst idx]. unfold u64, wrap. apply Z.mod_small.
      destruct Hinv as (H0 & _). lia. }
    destruct (Add cp c) as [cp' c'] eqn:Ea. cbn [fst] in *.
    destruct (IH cp' Hinv' ltac:(lia) Hdels) as [Hi Hc].
    destruct (run cp' ops) as [cp'' ids]. cbn [fst] in *. split; assumption.
  - destruct Hdels as [Hin Hdels].
    apply IH; [apply pool_inv_Del; assumption|cbn [idx Del]; assumption|assumption].
Qed.

(** A [Del] of a connection that is not in the map breaks the count. *)
Lemma Del_absent (cp : ConnPool) (c : Conn) :
  p cp !! ID c = None ->
  size (p (Del cp c)) = size (p cp) /\ Count (Del cp c) = u64 (Count cp - 1).
Proof.
  intros Hn. unfold Del, Count. cbn [p count].
  rewrite map_size_delete_None by assumption. split; reflexivity.
Qed.

End Pool.

(** * Further properties *)

(** ** Masking and the decoder *)

Section MaskingAndDecoder.
Import Frame.

Lemma imap_lxor_twice (data : list Z) :
  forall g : nat -> Z,
    imap (fun i d => Z.lxor d (g i)) (imap (fun i d => Z.lxor d (g i)) data) = data.
Proof.
  induction data as [|d data IH]; intros g; [reflexivity|].
  cbn [imap]. f_equal.
  - rewrite Z.lxor_assoc, Z.lxor_nilpotent. apply Z.lxor_0_r.
  - exact (IH (fun j => g (S j))).
Qed.

Lemma MaskData_involutive (data key : list Z) :
  MaskData (MaskData data key) key = data
  /\ length (MaskData data key) = length data.
Proof.
  unfold MaskData. split.
  - exact (imap_lxor_twice data (fun i => nth (i mod 4) key 0)).
  - apply length_imap.
Qed.

(** X1.  Masking with a 4-byte key is its own inverse and keeps the
    length: [MaskData] applied twice with one key gives the data back. *)
Theorem MaskData_twice (data key : list Z) :
  length key = 4%nat ->
  MaskData (MaskData data key) key = data
  /\ length (MaskData data key) = length data.
Proof. intros _. apply MaskData_involutive. Qed.

Lemma MaskData_twice_witness :
  MaskData (MaskData [72; 101; 108; 108; 111] [0x37; 0xFA; 0x21; 0x3D])
           [0x37; 0xFA; 0x21; 0x3D]
  = [72; 101; 108; 108; 111]
  /\ length (MaskData [72; 101; 108; 108; 111] [0x37; 0xFA; 0x21; 0x3D])
     = length [72; 101; 108; 108; 111].
Proof. apply MaskData_twice. reflexivity. Defined.

(** The decoder on a frame as it stands on the wire: header bytes, key when
    the MASK bit is set, and payload bytes [w]. *)
Lemma FromBufReader_stream (f : Frame) (mask : bool) (key w : list Z)
    (pLen : Z) (ext : list Z) (maxPayloadLen : Z) :
  well_formed f ->
  0 <= Z.of_nat (length w) < 2 ^ 64 ->
  Z.of_nat (length w) <= maxPayloadLen ->
  length_field (Z.of_nat (length w)) = Some (pLen, ext) ->
  length key = 4%nat ->
  FromBufReader zero
    (NewReader ([byt0 f; byt1 mask pLen] ++ ext
                ++ (if mask then key else []) ++ w))
    maxPayloadLen
  = (mkFrame (FIN f) (RSV1 f) (RSV2 f) (RSV3 f) (Opcode f)
             (if mask then 1 else 0) (Z.of_nat (length w))
             (if mask then key_word key else 0)
             (if mask then MaskData w key else w),
     [], None).
Proof.
  intros (Hfin & Hr1 & Hr2 & Hr3 & Hop) HL Hmax Hlf Hkey.
  destruct (length_field_some _ HL) as (pLen' & ext' & E & Hp & Hpos & Hread).
  rewrite E in Hlf. injection Hlf as -> ->.
  unfold FromBufReader.
  rewrite Read_NewReader_prefix by (discriminate || reflexivity).
  cbn [short_read length Nat.eqb negb nth].
  destruct (first_byte _ _ _ _ _ Hfin Hr1 Hr2 Hr3 Hop) as (E1 & E2 & E3 & E4 & E5 & E6).
  fold (byt0 f) in E1, E2, E3, E4, E5.
  rewrite E1, E2, E3, E4, E5. cbn [Opcode set_head]. rewrite E6. cbn [negb].
  assert (Hbit : is_bit (if mask then 1 else 0)) by (destruct mask; [right|left]; reflexivity).
  destruct (second_byte _ pLen Hbit Hp) as (F1 & F2).
  fold (byt1 mask pLen) in F1, F2. rewrite F1, F2, Hread.
  cbn [PayloadLen set_PayloadLen MASK set_MASK set_head zero].
  destruct (Z.gtb_spec (Z.of_nat (length w)) maxPayloadLen); [lia|].
  rewrite Hpos.
  destruct mask.
  - change (1 =? 1) with true. cbv iota.
    rewrite (Read_NewReader_prefix key)
      by (assumption || (destruct key; [discriminate|discriminate])).
    unfold short_read. rewrite Hkey. cbn [Nat.eqb negb].
    cbn [PayloadLen set_PayloadLen set_MaskingKey MASK].
    destruct (Z.gtb_spec (Z.of_nat (length w)) 0) as [Hgt|Hle].
    + rewrite ReadBytesAsMath_exact; [|destruct w; [simpl in Hgt; lia|discriminate]|lia].
      reflexivity.
    + destruct w; [reflexivity|simpl in Hle; lia].
  - change (0 =? 1) with false. cbv iota.
    cbn [PayloadLen set_PayloadLen set_MaskingKey MASK]. rewrite app_nil_l.
    destruct (Z.gtb_spec (Z.of_nat (length w)) 0) as [Hgt|Hle].
    + rewrite ReadBytesAsMath_exact; [|destruct w; [simpl in Hgt; lia|discriminate]|lia].
      reflexivity.
    + destruct w; [reflexivity|simpl in Hle; lia].
Qed.

End MaskingAndDecoder.

(** ** The decoder: masked frames and errors *)

Section DecoderExtras.
Import Frame.

(** X2.  A frame masked the way RFC 6455 has the peer do it (the MASK bit,
    a 4-byte key, the payload XORed with the key) is decoded to its
    cleartext payload, whatever the key. *)
Theorem FromBufReader_unmasks (f : Frame) (key : list Z) (maxPayloadLen : Z) :
  well_formed f ->
  length key = 4%nat ->
  Z.of_nat (length (PayloadData f)) < 2 ^ 64 ->
  Z.of_nat (length (PayloadData f)) <= maxPayloadLen ->
  exists pLen ext g,
    length_field (Z.of_nat (length (PayloadData f))) = Some (pLen, ext)
    /\ FromBufReader zero
         (NewReader ([byt0 f; byt1 true pLen] ++ ext ++ key
                     ++ MaskData (PayloadData f) key))
         maxPayloadLen
       = (g, [], None)
    /\ PayloadData g = PayloadData f
    /\ FIN g = FIN f /\ Opcode g = Opcode f /\ MASK g = 1
    /\ PayloadLen g = Z.of_nat (length (PayloadData f))
    /\ MaskingKey g = key_word key.
Proof.
  intros Hwf Hkey Hlt Hmax.
  assert (HL : 0 <= Z.of_nat (length (PayloadData f)) < 2 ^ 64) by lia.
  destruct (length_field_some _ HL) as (pLen & ext & E & _).
  destruct (MaskData_involutive (PayloadData f) key) as [Htwice Hlen].
  exists pLen, ext. eexists. split; [exact E|]. split.
  - apply (FromBufReader_stream f true key (MaskData (PayloadData f) key));
      rewrite ?Hlen; assumption.
  - cbn [PayloadData FIN Opcode MASK PayloadLen MaskingKey].
    rewrite Htwice, Hlen. repeat split; reflexivity.
Qed.

Lemma FromBufReader_unmasks_witness :
  let f := mkFrame 1 0 0 0 OpcodeText 0 0 0 [72; 101; 108; 108; 111] in
  exists pLen ext g,
    length_field 5 = Some (pLen, ext)
    /\ FromBufReader zero
         (NewReader ([byt0 f; byt1 true pLen] ++ ext ++ [0x37; 0xFA; 0x21; 0x3D]
                     ++ MaskData [72; 101; 108; 108; 111] [0x37; 0xFA; 0x21; 0x3D]))
         125
       = (g, [], None)
    /\ PayloadData g = [72; 101; 108; 108; 111]
    /\ FIN g = 1 /\ Opcode g = OpcodeText /\ MASK g = 1
    /\ PayloadLen g = 5
    /\ MaskingKey g = key_word [0x37; 0xFA; 0x21; 0x3D].
Proof.
  intros f.
  apply (FromBufReader_unmasks f [0x37; 0xFA; 0x21; 0x3D] 125).
  - unfold well_formed, is_bit. cbn. tauto.
  - reflexivity.
  - cbn. lia.
  - cbn. lia.
Defined.

(** X3.  A frame whose declared payload length exceeds the limit is turned
    down with [ErrFrameTooLarge] once the header and the extended length
    are read: key and payload stay in the stream, and no payload is
    stored. *)
Theorem FromBufReader_too_large (f : Frame) (mask : bool) (L pLen : Z)
    (ext rest : list Z) (maxPayloadLen : Z) :
  well_formed f ->
  0 <= L < 2 ^ 64 ->
  maxPayloadLen < L ->
  length_field L = Some (pLen, ext) ->
  exists g,
    FromBufReader zero (NewReader ([byt0 f; byt1 mask pLen] ++ ext ++ rest))
                  maxPayloadLen
    = (g, NewReader rest, Some ErrFrameTooLarge)
    /\ PayloadLen g = L /\ PayloadData g = [] /\ Opcode g = Opcode f.
Proof.
  intros (Hfin & Hr1 & Hr2 & Hr3 & Hop) HL Hmax Hlf.
  destruct (length_field_some _ HL) as (pLen' & ext' & E & Hp & Hpos & Hread).
  rewrite E in Hlf. injection Hlf as -> ->.
  unfold FromBufReader.
  rewrite Read_NewReader_prefix by (discriminate || reflexivity).
  cbn [short_read length Nat.eqb negb nth].
  destruct (first_byte _ _ _ _ _ Hfin Hr1 Hr2 Hr3 Hop) as (E1 & E2 & E3 & E4 & E5 & E6).
  fold (byt0 f) in E1, E2, E3, E4, E5.
  rewrite E1, E2, E3, E4, E5. cbn [Opcode set_head]. rewrite E6. cbn [negb].
  assert (Hbit : is_bit (if mask then 1 else 0)) by (destruct mask; [right|left]; reflexivity).
  destruct (second_byte _ pLen Hbit Hp) as (F1 & F2).
  fold (byt1 mask pLen) in F1, F2. rewrite F1, F2, Hread.
  cbn [PayloadLen set_PayloadLen MASK set_MASK set_head zero].
  destruct (Z.gtb_spec L maxPayloadLen); [|lia].
  eexists. split; [reflexivity|]. repeat split.
Qed.

Lemma FromBufReader_too_large_witness :
  let f := mkFrame 1 0 0 0 OpcodeBinary 0 0 0 [] in
  exists g,
    FromBufReader zero
      (NewReader ([byt0 f; byt1 false 126] ++ [u8 (Z.shiftr 1000 8); u8 1000]
                  ++ [1; 2; 3]))
      999
    = (g, NewReader [1; 2; 3], Some ErrFrameTooLarge)
    /\ PayloadLen g = 1000 /\ PayloadData g = [] /\ Opcode g = OpcodeBinary.
Proof.
  intros f.
  apply (FromBufReader_too_large f false 1000 126
           [u8 (Z.shiftr 1000 8); u8 1000] [1; 2; 3] 999).
  - unfold well_formed, is_bit. cbn. tauto.
  - lia.
  - lia.
  - reflexivity.
Defined.

Lemma CheckOpcode_false (op : Z) :
  ~ In op [0x0; 0x1; 0x2; 0x8; 0x9; 0xA] -> CheckOpcode op = false.
Proof.
  intros Hn. unfold CheckOpcode, OpcodeContinue, OpcodeText, OpcodeBinary,
    OpcodeClose, OpcodePing, OpcodePong.
  cbn [In] in Hn. lia.
Qed.

(** X4.  A first byte whose low four bits are none of the six opcodes makes
    the decoder fail with [ErrDeformedOpcode] after the two header bytes,
    whatever follows; the payload of the frame decoded into is left as it
    was. *)
Theorem FromBufReader_bad_opcode (f0 : Frame) (b0 b1 : Z) (rest : list Z)
    (maxPayloadLen : Z) :
  is_byte b0 ->
  ~ In (b0 mod 16) [0x0; 0x1; 0x2; 0x8; 0x9; 0xA] ->
  exists g,
    FromBufReader f0 (NewReader (b0 :: b1 :: rest)) maxPayloadLen
    = (g, NewReader rest, Some ErrDeformedOpcode)
    /\ Opcode g = b0 mod 16
    /\ PayloadData g = PayloadData f0 /\ PayloadLen g = PayloadLen f0.
Proof.
  intros Hb Hop. unfold FromBufReader.
  change (b0 :: b1 :: rest) with ([b0; b1] ++ rest).
  rewrite (Read_NewReader_prefix [b0; b1] rest 2) by (discriminate || reflexivity).
  cbn [short_read length Nat.eqb negb nth Opcode set_head].
  destruct (byte_tests b0 Hb) as (_ & _ & _ & _ & _ & L16 & _).
  rewrite L16, (CheckOpcode_false _ Hop). cbn [negb].
  eexists. split; [reflexivity|]. repeat split.
Qed.

Lemma FromBufReader_bad_opcode_witness :
  exists g,
    FromBufReader zero (NewReader (0x83 :: 0x00 :: [7; 7])) 125
    = (g, NewReader [7; 7], Some ErrDeformedOpcode)
    /\ Opcode g = 0x83 mod 16
    /\ PayloadData g = PayloadData zero /\ PayloadLen g = PayloadLen zero.
Proof.
  apply FromBufReader_bad_opcode.
  - unfold is_byte. lia.
  - cbn. intros H. repeat (destruct H as [H|H]; [discriminate H|]). exact H.
Defined.

(** X5.  A first read that delivers fewer than two bytes, be it the end of
    the stream or a header that arrives split over two reads, makes the
    decoder fail with [ErrDeformedFirstTwoBytes]; the frame is untouched,
    and the bytes of that read are gone from the stream. *)
Theorem FromBufReader_short_header (f : Frame) (c : list Z) (rest : Reader)
    (maxPayloadLen : Z) :
  (length c < 2)%nat ->
  FromBufReader f [] maxPayloadLen = (f, [], Some ErrDeformedFirstTwoBytes)
  /\ FromBufReader f (c :: rest) maxPayloadLen
     = (f, rest, Some ErrDeformedFirstTwoBytes).
Proof.
  intros Hc. split; [reflexivity|].
  unfold FromBufReader, Read.
  destruct (Nat.leb_spec (length c) 2) as [_|?]; [|lia].
  unfold short_read. destruct (Nat.eqb_spec (length c) 2) as [?|_]; [lia|].
  reflexivity.
Qed.

Lemma FromBufReader_short_header_witness :
  FromBufReader zero [] 125 = (zero, [], Some ErrDeformedFirstTwoBytes)
  /\ FromBufReader zero ([0x81] :: [[0x00]]) 125
     = (zero, [[0x00]], Some ErrDeformedFirstTwoBytes).
Proof. apply FromBufReader_short_header. cbn. lia. Defined.

End DecoderExtras.

(** ** Close frames *)

Section CloseFrames.
Import Frame Close.
Local Open Scope string_scope.
Local Open Scope Z_scope.

(** [CloseCodeText] has a text for exactly the twelve close codes of its
    table; for every other code it returns the empty string. *)
Lemma CloseCodeText_empty_iff (code : Z) :
  CloseCodeText code = ""
  <-> ~ In code [1000; 1001; 1002; 1003; 1005; 1006; 1007; 1008; 1009; 1010;
                 1011; 1015].
Proof.
  split.
  - intros Hempty Hin. cbn [In] in Hin.
    repeat (destruct Hin as [<- | Hin]; [vm_compute in Hempty; discriminate|]).
    exact Hin.
  - intros Hn. unfold CloseCodeText, closeCodeText.
    rewrite not_elem_of_list_to_map_1; [reflexivity|].
    cbn. intros Hin. apply Hn. cbn [In].
    repeat (apply elem_of_cons in Hin as [-> | Hin]; [tauto|]).
    apply elem_of_nil in Hin. contradiction.
Qed.




End CloseFrames.

(** ** The payload loop *)

Section PayloadLoop.

Lemma u64_count (a b : nat) :
  Z.of_nat (a + b) < 2 ^ 64 ->
  u64 (Z.of_nat a + u64 (Z.of_nat b)) = Z.of_nat (a + b).
Proof.
  intros Hlt. unfold u64, wrap. rewrite Nat2Z.inj_add in *.
  rewrite (Z.mod_small (Z.of_nat b)) by lia. apply Z.mod_small. lia.
Qed.




Lemma ReadBytesAsMath_loop_short (fuel : nat) :
  forall (r : Reader) (acc : list Z) (size : Z),
    (reads_left r < fuel)%nat ->
    Z.of_nat (length acc) + Z.of_nat (length (pending r)) < size ->
    size < 2 ^ 64 ->
    Util.ReadBytesAsMath_loop fuel r size (Z.of_nat (length acc)) acc
    = Some (Err Util.ErrBufNotEnough, []).
Proof.
  unfold pending, reads_left.
  induction fuel as [|fuel IH]; intros r acc size Hfuel Hshort Hlt; [lia|].
  destruct r as [|c rest]; [reflexivity|].
  cbn [Util.ReadBytesAsMath_loop Read]. cbn [concat length] in *.
  rewrite !length_app in *.
  destruct (Nat.leb_spec (length c) 512) as [Hle|Hgt].
  - destruct (Z.ltb_spec 0 (Z.of_nat (length c))) as [Hc|Hc].
    + rewrite u64_count by lia.
      destruct (Z.eqb_spec (Z.of_nat (length acc + length c)) size) as [He|Hne]; [lia|].
      pose proof (IH rest (acc ++ c) size) as IH'. rewrite length_app in IH'.
      apply IH'; lia.
    + apply IH; lia.
  - assert (Hl : length (take 512 c) = 512%nat) by (rewrite length_take; lia).
    rewrite Hl.
    destruct (Z.ltb_spec 0 (Z.of_nat 512)) as [_|?]; [|lia].
    rewrite u64_count by lia.
    destruct (Z.eqb_spec (Z.of_nat (length acc + 512)) size) as [He|Hne]; [lia|].
    pose proof (IH (drop 512 c :: rest) (acc ++ take 512 c) size) as IH'.
    cbn [concat length] in IH'. rewrite !length_app, length_drop, Hl in IH'.
    apply IH'; lia.
Qed.

(** X8.  When the stream ends before as many bytes as asked for have come,
    the loop reads it to the end and fails with its buf-not-enough error. *)
Theorem ReadBytesAsMath_stream_too_short (r : Reader) (size : Z) :
  Z.of_nat (length (pending r)) < size ->
  size < 2 ^ 64 ->
  Util.ReadBytesAsMath r size = (Err Util.ErrBufNotEnough, []).
Proof.
  intros Hshort Hlt. unfold Util.ReadBytesAsMath, Util.ReadBytesAsMath_fuel.
  rewrite (ReadBytesAsMath_loop_short _ r [] size); [reflexivity|lia| |assumption].
  cbn [length Z.of_nat]. lia.
Qed.

Lemma ReadBytesAsMath_stream_too_short_witness :
  Util.ReadBytesAsMath [[1; 2]; [3]] 4 = (Err Util.ErrBufNotEnough, []).
Proof. apply ReadBytesAsMath_stream_too_short; cbn; lia. Defined.

End PayloadLoop.

(** ** UTF-8: the validator on joined inputs and on the encoder's output *)

Section Utf8Extras.
Import Utf8.

Lemma scan_app (n : nat) (b : list Z) :
  forall a, (length a <= n)%nat -> scan a = true -> scan (a ++ b) = scan b.
Proof.
  induction n as [|n IH]; intros a Hlen Ha.
  - destruct a; [reflexivity|cbn in Hlen; lia].
  - destruct a as [|b1 t1]; [reflexivity|].
    cbn [length] in Hlen. cbn [app scan] in Ha |- *.
    destruct (b1 <=? 0x7F); [apply IH; [lia|assumption]|].
    destruct (Z.shiftr b1 5 =? 0x6).
    { destruct t1 as [|b2 t2]; [discriminate|]. cbn [app length] in *.
      destruct ((Z.land b2 0xC0 =? 0x80) && ((b1 >? 0xC0) || (b2 >? 0x80)));
        [apply IH; [lia|assumption]|discriminate]. }
    destruct (Z.shiftr b1 4 =? 0xE).
    { destruct t1 as [|b2 [|b3 t3]]; try discriminate. cbn [app length] in *.
      match goal with |- (if ?c then _ else _) = _ => destruct c end;
        [apply IH; [lia|assumption]|discriminate]. }
    destruct (Z.shiftr b1 3 =? 0x1E); [|discriminate].
    destruct t1 as [|b2 [|b3 [|b4 t4]]]; try discriminate. cbn [app length] in *.
    match goal with |- (if ?c then _ else _) = _ => destruct c end;
      [apply IH; [lia|assumption]|discriminate].
Qed.

(** X9.  Behind bytes that the validator accepts, a second run of bytes is
    judged as it is on its own: the verdict on the joined bytes is the
    verdict on the second run. *)
Theorem IsIntactUtf8_after_intact (a b : list Z) :
  IsIntactUtf8 a = true -> IsIntactUtf8 (a ++ b) = IsIntactUtf8 b.
Proof.
  rewrite !IsIntactUtf8_scan. apply (scan_app (length a)). lia.
Qed.

Lemma IsIntactUtf8_after_intact_witness :
  IsIntactUtf8 ([0xE4; 0xBD; 0xA0] ++ [0xFF]) = IsIntactUtf8 [0xFF].
Proof. apply IsIntactUtf8_after_intact. vm_compute. reflexivity. Defined.

Lemma lead_values :
  (forall q, 0 <= q < 32 -> u8 (Z.lor q 0xC0) = 0xC0 + q)
  /\ (forall q, 0 <= q < 16 -> u8 (Z.lor q 0xE0) = 0xE0 + q)
  /\ (forall q, 0 <= q < 8 -> u8 (Z.lor q 0xF0) = 0xF0 + q)
  /\ (forall r, 0 <= r < 64 -> u8 (Z.lor r 0x80) = 0x80 + r).
Proof.
  repeat split; intros q Hq.
  - pose (P := fun q => u8 (Z.lor q 0xC0) =? 0xC0 + q).
    assert (HP : P q = true) by (apply (forallb_range _ 32); [vm_compute; reflexivity|lia]).
    unfold P in HP. lia.
  - pose (P := fun q => u8 (Z.lor q 0xE0) =? 0xE0 + q).
    assert (HP : P q = true) by (apply (forallb_range _ 16); [vm_compute; reflexivity|lia]).
    unfold P in HP. lia.
  - pose (P := fun q => u8 (Z.lor q 0xF0) =? 0xF0 + q).
    assert (HP : P q = true) by (apply (forallb_range _ 8); [vm_compute; reflexivity|lia]).
    unfold P in HP. lia.
  - pose (P := fun q => u8 (Z.lor q 0x80) =? 0x80 + q).
    assert (HP : P q = true) by (apply (forallb_range _ 64); [vm_compute; reflexivity|lia]).
    unfold P in HP. lia.
Qed.

(** A 3-byte group is judged by its scalar alone. *)
Lemma scan_group3 (b1 b2 b3 : Z) :
  0xE0 <= b1 <= 0xEF -> is_byte b2 -> is_byte b3 ->
  scan [b1; b2; b3]
  = (0x800 <=? scalar3 b1 b2 b3) && (scalar3 b1 b2 b3 <=? 0xFFFF)
    && negb ((0xD800 <=? scalar3 b1 b2 b3) && (scalar3 b1 b2 b3 <=? 0xDFFF)).
Proof.
  intros H1 H2 H3.
  assert (Hb1 : is_byte b1) by (unfold is_byte; lia).
  destruct (byte_tests b1 Hb1) as (T5 & T4 & _).
  cbn [scan]. rewrite T5, T4, tu_scalar3 by assumption.
  destruct (Z.leb_spec b1 0x7F); [lia|].
  replace ((0xC0 <=? b1) && (b1 <=? 0xDF)) with false by lia.
  replace ((0xE0 <=? b1) && (b1 <=? 0xEF)) with true by lia.
  set (tu := scalar3 b1 b2 b3).
  destruct ((tu >=? 0x800) && (tu <=? 0xFFFF) && negb ((tu >=? 0xD800) && (tu <=? 0xDFFF)))
    eqn:E; lia.
Qed.

(** A 4-byte group of a lead with payload at most 4 and three bytes that
    begin 10xxxxxx is judged by the low six bits of its second byte. *)
Lemma scan_group4 (b1 b2 b3 b4 : Z) :
  0xF0 <= b1 <= 0xF4 ->
  is_continuation b2 -> is_continuation b3 -> is_continuation b4 ->
  scan [b1; b2; b3; b4] = (b2 mod 64 <=? 0xF).
Proof.
  unfold is_continuation. intros H1 H2 H3 H4.
  destruct (byte_tests b1) as (T5 & T4 & T3 & _ & _ & _ & L7); [unfold is_byte; lia|].
  destruct (byte_tests b2) as (_ & _ & _ & TC2 & L2 & _); [unfold is_byte; lia|].
  destruct (byte_tests b3) as (_ & _ & _ & TC3 & _); [unfold is_byte; lia|].
  destruct (byte_tests b4) as (_ & _ & _ & TC4 & _); [unfold is_byte; lia|].
  cbn [scan]. rewrite T5, T4, T3, L7, TC2, L2, TC3, TC4.
  destruct (Z.leb_spec b1 0x7F); [lia|].
  replace ((0xC0 <=? b1) && (b1 <=? 0xDF)) with false by lia.
  replace ((0xE0 <=? b1) && (b1 <=? 0xEF)) with false by lia.
  replace ((0xF0 <=? b1) && (b1 <=? 0xF7)) with true by lia.
  assert (Hm : b1 mod 8 <= 4) by aligned.
  destruct (b2 mod 64 <=? 0xF) eqn:E.
  - replace ((b1 mod 8 <=? 0x4) && ((0x80 <=? b2) && (b2 <=? 0xBF)) && true
             && ((0x80 <=? b3) && (b3 <=? 0xBF)) && ((0x80 <=? b4) && (b4 <=? 0xBF)))
      with true by lia.
    reflexivity.
  - replace ((b1 mod 8 <=? 0x4) && ((0x80 <=? b2) && (b2 <=? 0xBF)) && false
             && ((0x80 <=? b3) && (b3 <=? 0xBF)) && ((0x80 <=? b4) && (b4 <=? 0xBF)))
      with false by lia.
    reflexivity.
Qed.

(** X10.  The validator accepts the encoder's bytes for a scalar value
    exactly when the value is no surrogate and, from U+10000 on, has bits
    12 to 17 at most 0xF: the encodings of U+10000 to U+3FFFF are among
    those it rejects. *)
Theorem IsIntactUtf8_Unicode2utf8 (s : Z) :
  0 <= s <= 0x10FFFF ->
  exists bs,
    Unicode2utf8 s = Ok bs
    /\ (IsIntactUtf8 bs = true
        <-> ~ (0xD800 <= s <= 0xDFFF)
            /\ (0x10000 <= s -> (s / 0x1000) mod 64 <= 0xF)).
Proof.
  intros Hs. unfold Unicode2utf8.
  destruct lead_values as (V2 & V3 & V4 & VC).
  assert (Hr : 0 <= s mod 64 < 64) by (apply Z.mod_pos_bound; lia).
  assert (Hm2 : 0 <= (s / 64) mod 64 < 64) by (apply Z.mod_pos_bound; lia).
  assert (Hm1 : 0 <= (s / 4096) mod 64 < 64) by (apply Z.mod_pos_bound; lia).
  destruct (Z.leb_spec s 0x7F) as [H1|H1].
  { eexists. split; [reflexivity|]. rewrite IsIntactUtf8_scan.
    unfold u8, wrap. rewrite Z.mod_small by lia.
    rewrite scan_step1 by lia. cbn [scan]. split; [lia|reflexivity]. }
  destruct (Z.geb_spec s 0x80) as [_|?]; [|lia]. cbn [andb].
  destruct (Z.leb_spec s 0x7FF) as [H2|H2].
  { eexists. split; [reflexivity|]. rewrite IsIntactUtf8_scan.
    rewrite Z.shiftr_div_pow2, land_low_six by lia. pow_consts.
    assert (Hq : 2 <= s / 64 < 32) by aligned.
    rewrite V2, VC by lia.
    rewrite scan_step2 by (unfold is_continuation; lia).
    cbn [scan]. split; [lia|reflexivity]. }
  destruct (Z.geb_spec s 0x800) as [_|?]; [|lia]. cbn [andb].
  destruct (Z.leb_spec s 0xFFFF) as [H3|H3].
  { eexists. split; [reflexivity|]. rewrite IsIntactUtf8_scan.
    rewrite Z.shiftr_div_pow2, land_low_six by lia.
    rewrite (land_shiftr_six s 6 0xFC0) by (reflexivity || lia). pow_consts.
    assert (Hq : 0 <= s / 4096 < 16) by aligned.
    rewrite V3, !VC by lia.
    rewrite scan_group3 by (unfold is_byte; lia).
    assert (Hsc : scalar3 (224 + s / 4096) (128 + (s / 64) mod 64) (128 + s mod 64) = s).
    { unfold scalar3. aligned. }
    rewrite Hsc. split; intros H; lia. }
  destruct (Z.geb_spec s 0x10000) as [_|?]; [|lia]. cbn [andb].
  destruct (Z.leb_spec s 0x10FFFF) as [H4|H4]; [|lia].
  eexists. split; [reflexivity|]. rewrite IsIntactUtf8_scan.
  rewrite Z.shiftr_div_pow2, land_low_six by lia.
  rewrite (land_shiftr_six s 6 0xFC0) by (reflexivity || lia).
  rewrite (land_shiftr_six s 12 0x3F000) by (reflexivity || lia). pow_consts.
  assert (Hq : 0 <= s / 262144 <= 4) by aligned.
  rewrite V4, !VC by lia.
  rewrite scan_group4 by (unfold is_continuation; lia).
  assert (Hmod : (128 + (s / 4096) mod 64) mod 64 = (s / 4096) mod 64) by aligned.
  rewrite Hmod. split; intros H; lia.
Qed.

Lemma IsIntactUtf8_Unicode2utf8_witness :
  exists bs,
    Unicode2utf8 0x1F604 = Ok bs
    /\ (IsIntactUtf8 bs = true
        <-> ~ (0xD800 <= 0x1F604 <= 0xDFFF)
            /\ (0x10000 <= 0x1F604 -> (0x1F604 / 0x1000) mod 64 <= 0xF)).
Proof. apply IsIntactUtf8_Unicode2utf8. lia. Defined.

End Utf8Extras.

(** ** Header blocks and the accessors *)

Section HeaderBlocks.
Import Header.
Local Open Scope string_scope.
Local Open Scope Z_scope.
#[local] Arguments String.append : simpl nomatch.

Lemma ReadBytes_no_delim (s : string) (d : ascii) :
  IndexByte s d < 0 -> ReadBytes s d = (s, "", Some EOF).
Proof.
  induction s as [|a s IH]; cbn [IndexByte ReadBytes]; [reflexivity|].
  destruct (Ascii.eqb a d); [lia|].
  destruct (Z.ltb_spec (IndexByte s d) 0) as [Hn|Hn]; [|lia].
  intros _. rewrite (IH Hn). reflexivity.
Qed.

Lemma substring_app_skip (a b : string) (n m : nat) :
  substring (String.length a + n) m (a +:+ b) = substring n m b.
Proof. induction a as [|c a IH]; cbn; [reflexivity|exact IH]. Qed.

Lemma substring_prefix (v x : string) :
  substring 0 (String.length v) (v +:+ x) = v.
Proof.
  induction v as [|c v IH]; cbn [String.length String.append substring].
  - destruct x; reflexivity.
  - rewrite IH. reflexivity.
Qed.

Lemma slice_mid (a m b : string) (lo hi : Z) :
  lo = len a -> hi = len a + len m -> slice (a +:+ m +:+ b) lo hi = Ret m.
Proof.
  intros -> ->. unfold slice. rewrite !len_app.
  assert (Ha : 0 <= len a) by (unfold len; lia).
  assert (Hm : 0 <= len m) by (unfold len; lia).
  assert (Hb : 0 <= len b) by (unfold len; lia).
  replace ((0 <=? len a) && (len a <=? len a + len m)
           && (len a + len m <=? len a + (len m + len b))) with true by lia.
  replace (Z.to_nat (len a)) with (String.length a + 0)%nat by (unfold len; lia).
  replace (Z.to_nat (len a + len m - len a)) with (String.length m)
    by (unfold len; lia).
  rewrite substring_app_skip, substring_prefix. reflexivity.
Qed.

Lemma app_empty_r (s : string) : s +:+ "" = s.
Proof. induction s as [|c s IH]; cbn [String.append]; [reflexivity|]. rewrite IH. reflexivity. Qed.

Lemma IndexByte_line_end (isCRLF : bool) (v : string) :
  IndexByte v "010" < 0 ->
  exists pre, v +:+ line_end isCRLF = pre +:+ String "010" ""
              /\ IndexByte pre "010" < 0.
Proof.
  intros Hv. destruct isCRLF; cbn [line_end].
  - exists (v +:+ String "013" ""). split.
    + rewrite string_app_assoc. reflexivity.
    + apply IndexByte_app_skip; [assumption|vm_compute; reflexivity].
  - exists v. split; [reflexivity|assumption].
Qed.

(** One field line goes through one round of the loop. *)
Lemma FromBytes_line_field (h : Header) (isCRLF : bool) (kv : string * string) :
  field_ok kv ->
  FromBytes_line h (field_line isCRLF kv) isCRLF
  = Ret (append_val h (fst kv) (snd kv), None).
Proof.
  destruct kv as [k v]. unfold field_ok, field_line. cbn [fst snd].
  intros (Hc & _ & _). unfold FromBytes_line.
  rewrite IndexByte_app by assumption.
  assert (Hk : 0 <= len k) by (unfold len; lia).
  destruct (Z.ltb_spec (len k) 0); [lia|].
  assert (E1 : k +:+ String ":" (String " " (v +:+ line_end isCRLF))
               = (k +:+ String ":" (String " " "")) +:+ v +:+ line_end isCRLF)
    by (rewrite string_app_assoc; reflexivity).
  assert (E2 : k +:+ String ":" (String " " (v +:+ line_end isCRLF))
               = "" +:+ k +:+ String ":" (String " " (v +:+ line_end isCRLF)))
    by reflexivity.
  assert (Hl : len (k +:+ String ":" (String " " (v +:+ line_end isCRLF)))
               = len k + 2 + len v + len (line_end isCRLF)).
  { rewrite E1, !len_app. change (len (String ":" (String " " ""))) with 2. lia. }
  assert (Hval : (if isCRLF
                  then slice (k +:+ String ":" (String " " (v +:+ line_end isCRLF)))
                             (len k + 2) (len (k +:+ String ":" (String " " (v +:+ line_end isCRLF))) - 2)
                  else slice (k +:+ String ":" (String " " (v +:+ line_end isCRLF)))
                             (len k + 2) (len (k +:+ String ":" (String " " (v +:+ line_end isCRLF))) - 1))
                 = Ret v).
  { rewrite Hl. rewrite E1.
    destruct isCRLF; apply slice_mid;
      rewrite ?len_app; change (len (String ":" (String " " ""))) with 2;
      cbn [line_end]; unfold len; cbn [String.length]; lia. }
  rewrite Hval. cbn [exec_bind].
  rewrite E2 at 1. rewrite slice_mid by (unfold len; cbn [String.length]; lia).
  reflexivity.
Qed.

(** The rounds of the loop on the field lines at the head of the buffer. *)
Lemma FromBytes_loop_block (isCRLF : bool) (rest : string) :
  forall (kvs : list (string * string)) (h : Header) (fuel : nat),
    Forall field_ok kvs ->
    FromBytes_loop (length kvs + fuel) h (field_block isCRLF kvs +:+ rest) isCRLF
    = FromBytes_loop fuel (add_fields h kvs) rest isCRLF.
Proof.
  induction kvs as [|kv kvs IH]; intros h fuel Hok; [reflexivity|].
  apply Forall_cons in Hok as [Hkv Hok].
  cbn [length Nat.add FromBytes_loop field_block add_fields fold_left].
  pose proof (FromBytes_line_field h isCRLF kv Hkv) as Hline.
  destruct kv as [k v]. destruct Hkv as (Hc & Hn & Hv). cbn [fst snd] in *.
  destruct (IndexByte_line_end isCRLF v Hv) as (pre & Epre & Hpre).
  assert (Esplit : field_line isCRLF (k, v)
                   = (k +:+ String ":" (String " " pre)) +:+ String "010" "").
  { unfold field_line. cbn [fst snd]. rewrite Epre, string_app_assoc. reflexivity. }
  rewrite string_app_assoc.
  assert (Ebr : field_line isCRLF (k, v) +:+ field_block isCRLF kvs +:+ rest
                = (k +:+ String ":" (String " " pre))
                  +:+ String "010" (field_block isCRLF kvs +:+ rest)).
  { rewrite Esplit, string_app_assoc. reflexivity. }
  rewrite Ebr, ReadBytes_app.
  2:{ apply IndexByte_app_skip; [assumption|].
      cbn [IndexByte]. change (Ascii.eqb ":" "010") with false.
      change (Ascii.eqb " " "010") with false. cbv iota.
      destruct (Z.ltb_spec (IndexByte pre "010") 0); [|lia].
      cbv iota. reflexivity. }
  rewrite <- Esplit, Hline.
  apply (IH _ _ Hok).
Qed.

(** The loop's answer does not depend on the fuel left over. *)
Lemma FromBytes_loop_fuel (isCRLF : bool) (f1 : nat) :
  forall (f2 : nat) (h : Header) (br : string) out1 out2,
    FromBytes_loop f1 h br isCRLF = Some out1 ->
    FromBytes_loop f2 h br isCRLF = Some out2 ->
    out1 = out2.
Proof.
  induction f1 as [|f1 IH]; intros f2 h br out1 out2; [discriminate|].
  destruct f2 as [|f2]; [discriminate|].
  cbn [FromBytes_loop].
  destruct (ReadBytes br "010") as [[line r] [[]|]]; [congruence|].
  destruct (FromBytes_line h line isCRLF) as [[h' [e|]]|]; try congruence.
  apply IH.
Qed.

Lemma field_block_length (isCRLF : bool) (kvs : list (string * string)) (rest : string) :
  (length kvs + String.length rest
   <= String.length (field_block isCRLF kvs +:+ rest))%nat.
Proof.
  induction kvs as [|[k v] kvs IH]; [cbn; lia|].
  cbn [length field_block]. rewrite string_app_assoc.
  pose proof (len_app (field_line isCRLF (k, v)) (field_block isCRLF kvs +:+ rest)) as L.
  assert (1 <= len (field_line isCRLF (k, v))).
  { unfold field_line. rewrite len_app. unfold len. cbn [String.length]. lia. }
  unfold len in *. lia.
Qed.

Lemma FromBytes_fields (h : Header) (isCRLF : bool)
    (kvs : list (string * string)) (rest : string) :
  Forall field_ok kvs ->
  FromBytes h (field_block isCRLF kvs +:+ rest) isCRLF
  = match FromBytes_loop (S (String.length rest)) (add_fields h kvs) rest isCRLF with
    | Some out => out
    | None => Ret (add_fields h kvs, None)
    end.
Proof.
  intros Hok. unfold FromBytes.
  pose proof (field_block_length isCRLF kvs rest) as Hlen.
  set (bs := field_block isCRLF kvs +:+ rest) in *.
  replace (S (String.length bs))
    with (length kvs + S (String.length bs - length kvs))%nat by lia.
  unfold bs. rewrite FromBytes_loop_block by assumption.
  destruct (FromBytes_loop_total (S (String.length bs - length kvs))
              (add_fields h kvs) rest isCRLF) as [out E].
  { lia. }
  destruct (FromBytes_loop_total (S (String.length rest))
              (add_fields h kvs) rest isCRLF) as [out' E']; [lia|].
  fold bs. rewrite E, E'. eapply FromBytes_loop_fuel; eassumption.
Qed.

(** X11.  A block of lines key, colon, space, value, line end is parsed
    into the header it was given with each value appended under its key, in
    the order of the lines; bytes after the last LF are dropped without an
    error. *)
Theorem FromBytes_field_block (h : Header) (isCRLF : bool)
    (kvs : list (string * string)) (tail : string) :
  Forall field_ok kvs ->
  IndexByte tail "010" < 0 ->
  FromBytes h (field_block isCRLF kvs +:+ tail) isCRLF
  = Ret (add_fields h kvs, None).
Proof.
  intros Hok Htail. rewrite FromBytes_fields by assumption.
  cbn [FromBytes_loop]. rewrite ReadBytes_no_delim by assumption. reflexivity.
Qed.

Lemma FromBytes_field_block_witness :
  FromBytes ∅ (field_block true [("Host", "a:1"); ("Upgrade", "websocket")] +:+ "x: y") true
  = Ret (add_fields ∅ [("Host", "a:1"); ("Upgrade", "websocket")], None).
Proof.
  apply FromBytes_field_block.
  - repeat constructor; vm_compute; reflexivity.
  - vm_compute. reflexivity.
Defined.

(** X12.  The first line without a colon ends the parse with the error that
    names the line; the fields before it have been added to the header, and
    nothing behind the line is looked at. *)
Theorem FromBytes_line_without_colon (h : Header) (isCRLF : bool)
    (kvs : list (string * string)) (l rest : string) :
  Forall field_ok kvs ->
  IndexByte l ":" < 0 ->
  IndexByte l "010" < 0 ->
  FromBytes h (field_block isCRLF kvs +:+ l +:+ String "010" rest) isCRLF
  = Ret (add_fields h kvs, Some (ErrDeformedHeader (l +:+ String "010" ""))).
Proof.
  intros Hok Hc Hn. rewrite FromBytes_fields by assumption.
  cbn [FromBytes_loop]. rewrite ReadBytes_app by assumption.
  unfold FromBytes_line.
  assert (Hi : IndexByte (l +:+ String "010" "") ":" < 0)
    by (apply IndexByte_app_skip; [assumption|vm_compute; reflexivity]).
  destruct (Z.ltb_spec (IndexByte (l +:+ String "010" "") ":") 0); [reflexivity|lia].
Qed.

Lemma FromBytes_line_without_colon_witness :
  FromBytes ∅ (field_block false [("Host", "a")] +:+ "Upgrade" +:+ String "010" "b: c") false
  = Ret (add_fields ∅ [("Host", "a")],
         Some (ErrDeformedHeader ("Upgrade" +:+ String "010" ""))).
Proof.
  apply FromBytes_line_without_colon.
  - repeat constructor; vm_compute; reflexivity.
  - vm_compute. reflexivity.
  - vm_compute. reflexivity.
Defined.

Lemma add_fields_lookup (k : string) :
  forall (kvs : list (string * string)) (h : Header),
    add_fields h kvs !! k
    = match values_of k kvs with
      | [] => h !! k
      | vs => Some (default [] (h !! k) ++ vs)%list
      end.
Proof.
  unfold add_fields, values_of.
  induction kvs as [|[k' v] kvs IH]; intros h; [reflexivity|].
  cbn [fold_left List.filter map fst snd]. rewrite IH. unfold append_val.
  destruct (String.eqb_spec k' k) as [->|Hne].
  - rewrite lookup_insert_eq. cbn [map default].
    destruct (map snd (List.filter _ kvs)) as [|v1 vs1]; cbn [default].
    + reflexivity.
    + unfold id. cbn [snd]. rewrite <- app_assoc. reflexivity.
  - rewrite lookup_insert_ne by assumption. reflexivity.
Qed.

(** X13.  On the header parsed from a block of field lines, [Get] lists the
    values of a key in the order of its lines, [HasKey] tells whether the
    key has a line, and [GetOne] returns the value of the key's first line
    and panics when the key has none. *)
Theorem FromBytes_then_accessors (isCRLF : bool)
    (kvs : list (string * string)) (tail : string) :
  Forall field_ok kvs ->
  IndexByte tail "010" < 0 ->
  exists h,
    FromBytes ∅ (field_block isCRLF kvs +:+ tail) isCRLF = Ret (h, None)
    /\ forall k,
         Get h k = values_of k kvs
         /\ HasKey h k = negb (Nat.eqb (length (values_of k kvs)) 0)
         /\ GetOne h k = match values_of k kvs with
                         | v :: _ => Ret v
                         | [] => Panic
                         end.
Proof.
  intros Hok Htail. exists (add_fields ∅ kvs). split.
  - rewrite FromBytes_fields by assumption.
    cbn [FromBytes_loop]. rewrite ReadBytes_no_delim by assumption. reflexivity.
  - intros k. unfold GetOne, Get, HasKey. rewrite add_fields_lookup, lookup_empty.
    destruct (values_of k kvs) as [|v vs]; cbn; auto.
Qed.

Lemma FromBytes_then_accessors_witness :
  exists h,
    FromBytes ∅ (field_block false [("A", "1"); ("B", "2"); ("A", "3")] +:+ "") false
    = Ret (h, None)
    /\ forall k,
         Get h k = values_of k [("A", "1"); ("B", "2"); ("A", "3")]
         /\ HasKey h k
            = negb (Nat.eqb (length (values_of k [("A", "1"); ("B", "2"); ("A", "3")])) 0)
         /\ GetOne h k = match values_of k [("A", "1"); ("B", "2"); ("A", "3")] with
                         | v :: _ => Ret v
                         | [] => Panic
                         end.
Proof.
  apply FromBytes_then_accessors.
  - repeat constructor; vm_compute; reflexivity.
  - vm_compute. reflexivity.
Defined.

End HeaderBlocks.

(** ** The handshake request: last empty line and request line *)

Section HandshakeRequestLine.
Import Header Handshake.
Local Open Scope string_scope.
Local Open Scope Z_scope.
#[local] Arguments String.append : simpl nomatch.

Lemma substring_split (n : nat) :
  forall s : string, (n <= String.length s)%nat ->
    s = substring 0 n s +:+ substring n (String.length s - n) s.
Proof.
  induction n as [|n IH]; intros s Hn.
  - rewrite Nat.sub_0_r.
    replace (substring 0 0 s) with "" by (destruct s; reflexivity).
    cbn [String.append].
    pose proof (substring_prefix s "") as E. rewrite app_empty_r in E.
    symmetry. exact E.
  - destruct s as [|c s]; [cbn in Hn; lia|]. cbn [String.length] in *.
    cbn [substring String.append Nat.sub]. f_equal. apply IH. lia.
Qed.

Lemma substring_length (m : nat) :
  forall (n : nat) (s : string), (n + m <= String.length s)%nat ->
    String.length (substring n m s) = m.
Proof.
  intros n s. revert n. induction s as [|c s IH]; intros n Hn.
  - cbn [String.length] in Hn. assert (n = 0%nat) by lia. assert (m = 0%nat) by lia.
    subst. reflexivity.
  - cbn [String.length] in Hn. destruct n as [|n].
    + destruct m as [|m]; [reflexivity|]. cbn [substring String.length].
      f_equal. clear IH. revert m Hn. induction s as [|d s IHs]; intros m Hn.
      * cbn in Hn. assert (m = 0%nat) by lia. subst. reflexivity.
      * destruct m as [|m]; [reflexivity|]. cbn [substring String.length].
        f_equal. apply IHs. cbn [String.length] in Hn. lia.
    + cbn [substring]. apply IH. lia.
Qed.

(** A slice within the bounds does not panic, and has the length asked for. *)
Lemma slice_ok (s : string) (lo hi : Z) :
  0 <= lo -> lo <= hi -> hi <= len s ->
  exists t, slice s lo hi = Ret t /\ len t = hi - lo.
Proof.
  intros H0 H1 H2. unfold slice.
  replace ((0 <=? lo) && (lo <=? hi) && (hi <=? len s)) with true by lia.
  eexists. split; [reflexivity|]. unfold len in *.
  rewrite substring_length by lia. lia.
Qed.

Lemma slice_out (s : string) (lo hi : Z) :
  lo < 0 \/ hi < lo \/ len s < hi -> slice s lo hi = Panic.
Proof.
  intros H. unfold slice.
  replace ((0 <=? lo) && (lo <=? hi) && (hi <=? len s)) with false by lia.
  reflexivity.
Qed.

Lemma slice_app3 (s a m b : string) (lo hi : Z) :
  s = a +:+ m +:+ b -> lo = len a -> hi = len a + len m -> slice s lo hi = Ret m.
Proof. intros ->. apply slice_mid. Qed.

Lemma len_nonneg (s : string) : 0 <= len s.
Proof. unfold len. lia. Qed.

Lemma ends_with_spec (bs line : string) (k : Z) :
  len line = k ->
  exists b, ends_with bs k line = Ret b
            /\ (b = true <-> exists pre, pre <> "" /\ bs = pre +:+ line).
Proof.
  intros Hk. unfold ends_with.
  pose proof (len_nonneg line) as Hl. pose proof (len_nonneg bs) as Hb.
  destruct (Z.gtb_spec (len bs) k) as [Hgt|Hle].
  - unfold slice.
    replace ((0 <=? len bs - k) && (len bs - k <=? len bs) && (len bs <=? len bs))
      with true by lia.
    cbn [exec_bind]. eexists. split; [reflexivity|].
    rewrite String.eqb_eq.
    replace (Z.to_nat (len bs - (len bs - k))) with (String.length line)
      by (unfold len in *; lia).
    set (n := Z.to_nat (len bs - k)).
    assert (Hn : (n + String.length line = String.length bs)%nat)
      by (unfold n, len in *; lia).
    split.
    + intros E. exists (substring 0 n bs). split.
      * intros Hemp. pose proof (substring_length n 0 bs ltac:(lia)) as L.
        rewrite Hemp in L. cbn in L. unfold n, len in *. lia.
      * rewrite <- E. replace (String.length line) with (String.length bs - n)%nat by lia.
        apply substring_split. lia.
    + intros (pre & _ & ->). unfold len in Hn. 
      assert (Hpre : n = (String.length pre + 0)%nat).
      { pose proof (len_app pre line) as L. unfold len in L. lia. }
      rewrite Hpre, substring_app_skip.
      pose proof (substring_prefix line "") as E. rewrite app_empty_r in E. exact E.
  - exists false. split; [reflexivity|]. split; [discriminate|].
    intros (pre & Hne & ->). exfalso. rewrite len_app in Hle.
    destruct pre; [congruence|]. unfold len in *. cbn [String.length] in Hle. lia.
Qed.

Lemma checkLastEmptyLine_spec (bs : string) :
  exists isCRLF ok,
    checkLastEmptyLine bs = Ret (isCRLF, ok)
    /\ (ok = true /\ isCRLF = false
        <-> exists pre, pre <> "" /\ bs = pre +:+ emptyLine1)
    /\ (ok = true /\ isCRLF = true
        <-> exists pre, pre <> "" /\ bs = pre +:+ emptyLine2).
Proof.
  unfold checkLastEmptyLine.
  destruct (ends_with_spec bs emptyLine1 2 eq_refl) as (b1 & E1 & S1).
  destruct (ends_with_spec bs emptyLine2 4 eq_refl) as (b2 & E2 & S2).
  rewrite E1. cbn [exec_bind]. destruct b1.
  - exists false, true. split; [reflexivity|]. split.
    + split; [intros _; apply S1; reflexivity|auto].
    + split; [intros [_ ?]; discriminate|].
      intros (pre & _ & E). exfalso.
      destruct (proj1 S1 eq_refl) as (pre' & _ & E'). rewrite E in E'.
      assert (L : len pre + 4 = len pre' + 2).
      { apply (f_equal len) in E'. rewrite !len_app in E'. exact E'. }
      assert (Hp : pre' = pre +:+ String CR (String LF "")).
      { clear -E' L. revert pre' E' L. induction pre as [|c pre IH]; intros pre' E' L.
        - destruct pre' as [|a [|b [|d pre']]]; cbn in L; try (unfold len in L; cbn in L; lia).
          cbn in E'. injection E' as <- <- _. reflexivity.
        - destruct pre' as [|a pre'].
          + unfold len in L. cbn in L. lia.
          + cbn [String.append] in E'. injection E' as <- E'.
            cbn [String.append]. f_equal. apply IH; [assumption|].
            unfold len in *. cbn [String.length] in L. lia. }
      rewrite Hp, string_app_assoc in E'.
      clear -E'. induction pre as [|c pre IH].
      * cbn in E'. discriminate.
      * cbn [String.append] in E'. injection E' as E'. auto.
  - rewrite E2. cbn [exec_bind]. destruct b2.
    + exists true, true. split; [reflexivity|]. split.
      * split; [intros [_ ?]; discriminate|]. intros H. apply S1 in H. discriminate.
      * split; [intros _; apply S2; reflexivity|auto].
    + exists false, false. split; [reflexivity|]. split.
      * split; [intros [? _]; discriminate|]. intros H. apply S1 in H. discriminate.
      * split; [intros [? _]; discriminate|]. intros H. apply S2 in H. discriminate.
Qed.


Lemma IndexByte_cons_skip (c d : ascii) (s : string) :
  Ascii.eqb c d = false -> IndexByte s d < 0 -> IndexByte (String c s) d < 0.
Proof.
  intros Hc Hs. cbn [IndexByte]. rewrite Hc.
  destruct (Z.ltb_spec (IndexByte s d) 0); lia.
Qed.

Lemma IndexByte_empty (d : ascii) : IndexByte "" d < 0.
Proof. cbn. lia. Qed.

Lemma IndexByte_zero (s : string) (c : ascii) :
  IndexByte s c = 0 <-> exists rest, s = String c rest.
Proof.
  destruct s as [|a s]; cbn [IndexByte].
  - split; [lia|]. intros [rest E]. discriminate.
  - destruct (Ascii.eqb_spec a c) as [->|Hne].
    + split; [eauto|reflexivity].
    + pose proof (IndexByte_range s c).
      destruct (Z.ltb_spec (IndexByte s c) 0).
      * split; [lia|]. intros [rest E]. congruence.
      * split; [lia|]. intros [rest E]. congruence.
Qed.

(** X15.  The only panic of [parseRequestLine] is that of CR LF mode on
    bytes that begin with LF, where the line is cut at index -1. *)
Theorem parseRequestLine_panics_iff (bs : string) (isCRLF : bool) :
  parseRequestLine bs isCRLF = Panic
  <-> isCRLF = true /\ exists rest, bs = String LF rest.
Proof.
  unfold parseRequestLine.
  pose proof (IndexByte_range bs LF) as Hnl.
  pose proof (IndexByte_zero bs LF) as Hz.
  destruct (Z.ltb_spec (IndexByte bs LF) 0) as [Hneg|Hpos].
  { split; [discriminate|]. intros [_ H]. apply Hz in H. lia. }
  set (newline := IndexByte bs LF) in *.
  assert (Hline : (isCRLF = true /\ newline = 0
                   /\ (if isCRLF then slice bs 0 (newline - 1) else slice bs 0 newline)
                      = Panic)
                  \/ exists line,
                       (if isCRLF then slice bs 0 (newline - 1) else slice bs 0 newline)
                       = Ret line /\ ~ (isCRLF = true /\ newline = 0)).
  { destruct isCRLF.
    - destruct (Z.eq_dec newline 0) as [E0|N0].
      + left. split; [reflexivity|]. split; [assumption|]. apply slice_out. lia.
      + right. destruct (slice_ok bs 0 (newline - 1)) as (t & Et & _); try lia.
        exists t. split; [assumption|]. tauto.
    - right. destruct (slice_ok bs 0 newline) as (t & Et & _); try lia.
      exists t. split; [assumption|]. intros [? _]. discriminate. }
  destruct Hline as [(Hc & H0 & ->)|(line & -> & Hnot)].
  { cbn [exec_bind]. split; [intros _|reflexivity]. split; [assumption|]. apply Hz. exact H0. }
  cbn [exec_bind].
  split; [|intros [Hc H]; apply Hz in H; tauto].
  intros HP. exfalso. revert HP.
  pose proof (IndexByte_range line " ") as Hs1.
  pose proof (len_nonneg line) as Hll.
  destruct (slice_ok line (IndexByte line " " + 1) (len line)) as (after1 & -> & La);
    try lia.
  cbn [exec_bind].
  pose proof (IndexByte_range after1 " ") as Hs2.
  destruct (Z.ltb_spec (IndexByte line " ") 0) as [?|Hs1'];
    [discriminate|]. cbn [orb].
  destruct (Z.ltb_spec (IndexByte after1 " ") 0) as [?|Hs2'];
    [discriminate|].
  set (s1 := IndexByte line " ") in *. set (s2 := IndexByte after1 " ") in *.
  destruct (slice_ok line (s2 + (s1 + 1) + 1) (len line)) as (p & -> & Lp); try lia.
  cbn [exec_bind].
  pose proof (IndexByte_range p "/") as Hps.
  destruct (Z.ltb_spec (IndexByte p "/") 0) as [?|Hps']; [discriminate|].
  destruct (slice_ok line 0 s1) as (m & -> & _); try lia.
  destruct (slice_ok line (s1 + 1) (s2 + (s1 + 1))) as (u & -> & _); try lia.
  destruct (slice_ok p 0 (IndexByte p "/")) as (pr & -> & _); try lia.
  destruct (slice_ok p (IndexByte p "/" + 1) (len p)) as (pv & -> & _); try lia.
  cbn [exec_bind]. discriminate.
Qed.

Lemma length_app_str (a b : string) :
  String.length (a +:+ b) = (String.length a + String.length b)%nat.
Proof. induction a as [|c a IH]; cbn [String.append String.length]; lia. Qed.

Ltac streq :=
  unfold request, request_line, line_end, emptyLine1, emptyLine2, CR, LF;
  repeat (progress (cbn [String.append]; rewrite ?string_app_assoc, ?app_empty_r));
  reflexivity.

Ltac leneq :=
  unfold request, request_line, line_end, emptyLine1, emptyLine2, CR, LF, len;
  repeat (progress (cbn [String.length]; rewrite ?length_app_str));
  lia.

Ltac no_byte :=
  repeat first
    [ assumption
    | apply IndexByte_empty
    | apply IndexByte_app_skip
    | apply IndexByte_cons_skip; [reflexivity|] ].

Lemma parseRequestLine_run (m u p v rest : string) (isCRLF : bool) :
  request_line_ok m u p v ->
  parseRequestLine (request_line m u p v +:+ line_end isCRLF +:+ rest) isCRLF
  = Ret (len (request_line m u p v) + (if isCRLF then 1 else 0), m, u, p, v, None).
Proof.
  intros (Hm & Hu & Hp & Lm & Lu & Lp & Lv).
  set (line := request_line m u p v).
  set (X := line +:+ (if isCRLF then String CR "" else "")).
  assert (Ebs : line +:+ line_end isCRLF +:+ rest = X +:+ String LF rest)
    by (unfold X, line; destruct isCRLF; streq).
  assert (HX : IndexByte X LF < 0).
  { unfold X, line, request_line, LF. destruct isCRLF; no_byte. }
  unfold parseRequestLine. rewrite Ebs, IndexByte_app by assumption.
  pose proof (len_nonneg X). destruct (Z.ltb_spec (len X) 0); [lia|].
  assert (Hline : (if isCRLF then slice (X +:+ String LF rest) 0 (len X - 1)
                   else slice (X +:+ String LF rest) 0 (len X)) = Ret line).
  { destruct isCRLF.
    - apply (slice_app3 _ "" line (String CR (String LF rest)));
        [unfold X; streq|reflexivity|unfold X; leneq].
    - apply (slice_app3 _ "" line (String LF rest));
        [unfold X; streq|reflexivity|unfold X; leneq]. }
  rewrite Hline. cbn [exec_bind].
  set (after1 := u +:+ String " " (p +:+ String "/" v)).
  set (pv := p +:+ String "/" v).
  assert (Es1 : IndexByte line " " = len m)
    by (unfold line, request_line; apply IndexByte_app; assumption).
  assert (Es2 : IndexByte after1 " " = len u)
    by (unfold after1; apply IndexByte_app; assumption).
  assert (Eps : IndexByte pv "/" = len p)
    by (unfold pv; apply IndexByte_app; assumption).
  rewrite Es1.
  rewrite (slice_app3 line (m +:+ String " " "") after1 "");
    [|unfold line, after1; streq|leneq|unfold line, after1; leneq].
  cbn [exec_bind]. rewrite Es2.
  pose proof (len_nonneg m). pose proof (len_nonneg u). pose proof (len_nonneg p).
  destruct (Z.ltb_spec (len m) 0); [lia|]. destruct (Z.ltb_spec (len u) 0); [lia|].
  cbn [orb].
  rewrite (slice_app3 line (m +:+ String " " (u +:+ String " " "")) pv "");
    [|unfold line, pv; streq|leneq|unfold line, pv; leneq].
  cbn [exec_bind]. rewrite Eps.
  destruct (Z.ltb_spec (len p) 0); [lia|].
  rewrite (slice_app3 line "" m (String " " after1));
    [|unfold line, after1; streq|leneq|leneq].
  rewrite (slice_app3 line (m +:+ String " " "") u (String " " pv));
    [|unfold line, pv; streq|leneq|leneq].
  rewrite (slice_app3 pv "" p (String "/" v));
    [|unfold pv; streq|leneq|leneq].
  rewrite (slice_app3 pv (p +:+ String "/" "") v "");
    [|unfold pv; streq|leneq|unfold pv; leneq].
  cbn [exec_bind]. do 6 f_equal. unfold X. destruct isCRLF; leneq.
Qed.

(** X16.  A request line method, space, URI, space, protocol, slash,
    version, followed by the line end, is split into its four parts, and
    the index of its LF is returned. *)
Theorem parseRequestLine_well_formed (m u p v rest : string) (isCRLF : bool) :
  request_line_ok m u p v ->
  parseRequestLine (request_line m u p v +:+ line_end isCRLF +:+ rest) isCRLF
  = Ret (len (request_line m u p v) + (if isCRLF then 1 else 0), m, u, p, v, None).
Proof. apply parseRequestLine_run. Qed.

Lemma parseRequestLine_well_formed_witness :
  parseRequestLine (request_line "GET" "/chat" "HTTP" "1.1" +:+ line_end true
                    +:+ "Host: a") true
  = Ret (len (request_line "GET" "/chat" "HTTP" "1.1") + 1,
         "GET", "/chat", "HTTP", "1.1", None).
Proof.
  apply (parseRequestLine_well_formed "GET" "/chat" "HTTP" "1.1" "Host: a" true).
  repeat split; vm_compute; reflexivity.
Defined.


(** *** Reading the request *)

Context `{NetUrl}.

Lemma string_of_bytes_of_string (s : string) :
  string_of_bytes (Accept.bytes_of_string s) = s.
Proof.
  unfold string_of_bytes, Accept.bytes_of_string.
  induction s as [|c s IH]; [reflexivity|].
  cbn [list_ascii_of_string map string_of_list_ascii].
  rewrite N2Z.id, ascii_N_embedding. f_equal. exact IH.
Qed.

Lemma bytes_of_string_length (s : string) :
  Z.of_nat (length (Accept.bytes_of_string s)) = len s.
Proof.
  unfold Accept.bytes_of_string, len. rewrite length_map. f_equal.
  induction s as [|c s IH]; cbn; [reflexivity|]. rewrite IH. reflexivity.
Qed.

(** Two bytes LF LF are not the end of bytes that end in CR LF CR LF. *)
Lemma emptyLine2_not_emptyLine1 (pre pre' : string) :
  pre +:+ emptyLine2 = pre' +:+ emptyLine1 -> False.
Proof.
  revert pre'. induction pre as [|c pre IH]; intros pre' E.
  - destruct pre' as [|a [|b [|d [|e pre']]]]; cbn in E; try discriminate.
    destruct pre'; discriminate.
  - destruct pre' as [|a pre'].
    + cbn in E. injection E as _ E. destruct pre as [|? [|? ?]]; discriminate.
    + cbn [String.append] in E. injection E as _ E. eapply IH. exact E.
Qed.

Lemma checkLastEmptyLine_run (pre : string) (isCRLF : bool) :
  pre <> "" ->
  checkLastEmptyLine (pre +:+ line_end isCRLF +:+ line_end isCRLF)
  = Ret (isCRLF, true).
Proof.
  intros Hpre.
  destruct (checkLastEmptyLine_spec (pre +:+ line_end isCRLF +:+ line_end isCRLF))
    as (c & ok & -> & S1 & S2).
  destruct isCRLF.
  - assert (Hok : ok = true /\ c = true).
    { apply S2. exists pre. split; [assumption|]. streq. }
    destruct Hok as [-> ->]. reflexivity.
  - assert (Hok : ok = true /\ c = false).
    { apply S1. exists pre. split; [assumption|]. streq. }
    destruct Hok as [-> ->]. reflexivity.
Qed.

Lemma field_block_end (isCRLF : bool) (kvs : list (string * string)) :
  kvs = [] \/ exists b, field_block isCRLF kvs = b +:+ line_end isCRLF.
Proof.
  induction kvs as [|[k v] kvs IH]; [left; reflexivity|right].
  destruct IH as [->|[b Eb]].
  - exists (k +:+ String ":" (String " " v)). cbn [field_block].
    unfold field_line. cbn [fst snd]. rewrite app_empty_r, string_app_assoc. reflexivity.
  - exists (field_line isCRLF (k, v) +:+ b). cbn [field_block].
    rewrite Eb, string_app_assoc. reflexivity.
Qed.

Lemma request_line_nonempty (m u p v : string) (s : string) :
  request_line m u p v +:+ s <> "".
Proof. unfold request_line. destruct m; discriminate. Qed.

Lemma ReadFrom_run (isCRLF : bool) (m u p v path : string)
    (kvs : list (string * string)) (r' : Reader) (maxSize : Z) :
  request_line_ok m u p v ->
  Forall field_ok kvs ->
  url_Parse u = Some path ->
  len (request isCRLF m u p v kvs) <= maxSize ->
  ReadFrom (Accept.bytes_of_string (request isCRLF m u p v kvs) :: r') maxSize
  = Ret (Ok {| Conn.Method := m;
               Conn.RequestURI := u;
               Conn.RequestURL_Path := path;
               Conn.Proto := p;
               Conn.ProtoVer := v;
               Conn.Header_ := add_fields ∅ kvs |}, r').
Proof.
  intros Hline Hok Hurl Hmax.
  set (req := request isCRLF m u p v kvs) in *.
  set (line := request_line m u p v).
  set (block := field_block isCRLF kvs).
  pose proof (len_nonneg req) as Hreq.
  pose proof (bytes_of_string_length req) as Hlen.
  unfold ReadFrom.
  destruct (Z.ltb_spec (maxSize + 1) 0); [lia|].
  cbn [Read].
  destruct (Nat.leb_spec (length (Accept.bytes_of_string req)) (Z.to_nat (maxSize + 1)));
    [|lia].
  rewrite Hlen. destruct (Z.eqb_spec (len req) (maxSize + 1)); [lia|].
  rewrite string_of_bytes_of_string.
  assert (Echk : checkLastEmptyLine req = Ret (isCRLF, true)).
  { destruct (field_block_end isCRLF kvs) as [Ek|[b Eb]].
    - replace req with (line +:+ line_end isCRLF +:+ line_end isCRLF)
        by (unfold req, request, line; rewrite Ek; cbn [field_block String.append];
            reflexivity).
      apply checkLastEmptyLine_run.
      pose proof (request_line_nonempty m u p v "") as Hn.
      rewrite app_empty_r in Hn. exact Hn.
    - replace req with ((line +:+ line_end isCRLF +:+ b)
                        +:+ line_end isCRLF +:+ line_end isCRLF)
        by (unfold req, request, line; rewrite Eb, !string_app_assoc; reflexivity).
      apply checkLastEmptyLine_run. apply request_line_nonempty. }
  rewrite Echk. cbn [exec_bind negb].
  set (hs := line +:+ line_end isCRLF +:+ block).
  assert (Ehs : (if isCRLF then slice req 0 (len req - 2)
                 else slice req 0 (len req - 1)) = Ret hs).
  { assert (Ereq : req = "" +:+ hs +:+ line_end isCRLF)
      by (unfold req, request, hs, line, block; rewrite !string_app_assoc; reflexivity).
    assert (Lreq : len req = len hs + len (line_end isCRLF))
      by (rewrite Ereq; cbn [String.append]; apply len_app).
    destruct isCRLF; apply (slice_app3 _ "" hs _ _ _ Ereq);
      try reflexivity; rewrite Lreq; leneq. }
  rewrite Ehs. cbn [exec_bind].
  unfold hs at 1. unfold line. rewrite parseRequestLine_run by assumption.
  cbn [exec_bind]. fold line.
  rewrite (slice_app3 hs (line +:+ line_end isCRLF) block "");
    [|unfold hs; rewrite app_empty_r, string_app_assoc; reflexivity
     |destruct isCRLF; leneq
     |unfold hs; destruct isCRLF; rewrite !len_app; leneq].
  cbn [exec_bind].
  replace block with (field_block isCRLF kvs +:+ "") by apply app_empty_r.
  rewrite FromBytes_fields by assumption.
  cbn [FromBytes_loop ReadBytes exec_bind]. rewrite Hurl. reflexivity.
Qed.

(** X17.  A first read that holds a whole request of at most [maxSize]
    bytes - request line, field lines, empty line, all with the same line
    end - is parsed into the request's method, URI, URL path, protocol,
    version and header; the reads behind it stay in the stream. *)
Theorem ReadFrom_well_formed (isCRLF : bool) (m u p v path : string)
    (kvs : list (string * string)) (r' : Reader) (maxSize : Z) :
  request_line_ok m u p v ->
  Forall field_ok kvs ->
  url_Parse u = Some path ->
  len (request isCRLF m u p v kvs) <= maxSize ->
  ReadFrom (Accept.bytes_of_string (request isCRLF m u p v kvs) :: r') maxSize
  = Ret (Ok {| Conn.Method := m;
               Conn.RequestURI := u;
               Conn.RequestURL_Path := path;
               Conn.Proto := p;
               Conn.ProtoVer := v;
               Conn.Header_ := add_fields ∅ kvs |}, r').
Proof. apply ReadFrom_run. Qed.

(** X18.  A first read of more than [maxSize] bytes is refused as too
    large a handshake, whatever the bytes are. *)
Theorem ReadFrom_too_large (c : list Z) (r' : Reader) (maxSize : Z) :
  0 <= maxSize ->
  maxSize < Z.of_nat (length c) ->
  exists r'',
    ReadFrom (c :: r') maxSize
    = Ret (Err (HandshakeError "too large handshake"), r'').
Proof.
  intros H0 Hc. unfold ReadFrom.
  destruct (Z.ltb_spec (maxSize + 1) 0); [lia|]. cbn [Read].
  destruct (Nat.leb_spec (length c) (Z.to_nat (maxSize + 1))) as [Hle|Hgt].
  - destruct (Z.eqb_spec (Z.of_nat (length c)) (maxSize + 1)); [|lia]. eauto.
  - rewrite length_take.
    destruct (Z.eqb_spec (Z.of_nat (Z.to_nat (maxSize + 1) `min` length c))
                (maxSize + 1)); [|lia]. eauto.
Qed.

(** X19.  A first read that begins with LF and ends in CR LF CR LF makes
    [ReadFrom] panic: the request line is cut at index -1. *)
Theorem ReadFrom_panics_on_leading_LF (mid : string) (r' : Reader) (maxSize : Z) :
  len (String LF (mid +:+ emptyLine2)) <= maxSize ->
  ReadFrom (Accept.bytes_of_string (String LF (mid +:+ emptyLine2)) :: r') maxSize
  = Panic.
Proof.
  intros Hmax. set (req := String LF (mid +:+ emptyLine2)) in *.
  pose proof (len_nonneg req) as Hreq.
  pose proof (bytes_of_string_length req) as Hlen.
  unfold ReadFrom.
  destruct (Z.ltb_spec (maxSize + 1) 0); [lia|].
  cbn [Read].
  destruct (Nat.leb_spec (length (Accept.bytes_of_string req)) (Z.to_nat (maxSize + 1)));
    [|lia].
  rewrite Hlen. destruct (Z.eqb_spec (len req) (maxSize + 1)); [lia|].
  rewrite string_of_bytes_of_string.
  replace (checkLastEmptyLine req) with (Ret (A := bool * bool) (true, true)).
  2:{ symmetry.
      replace req with (String LF mid +:+ line_end true +:+ line_end true)
        by (unfold req; streq).
      apply checkLastEmptyLine_run. discriminate. }
  cbn [exec_bind negb].
  rewrite (slice_app3 req "" (String LF (mid +:+ String CR (String LF "")))
             (String CR (String LF "")));
    [|unfold req; streq|reflexivity|unfold req; leneq].
  cbn [exec_bind]. unfold parseRequestLine.
  cbn [IndexByte]. change (Ascii.eqb LF LF) with true. cbv iota.
  change (0 <? 0) with false. cbv iota.
  rewrite slice_out by lia. reflexivity.
Qed.

End HandshakeRequestLine.

Section HandshakeRequestSamples.
Import Header Handshake.
Local Open Scope string_scope.
Local Open Scope Z_scope.

Lemma ReadFrom_well_formed_witness :
  @ReadFrom sample_url
    (Accept.bytes_of_string
       (request true "GET" "/chat" "HTTP" "1.1" [("Host", "a"); ("Upgrade", "websocket")])
     :: [[1; 2]]) 100
  = Ret (Ok {| Conn.Method := "GET";
               Conn.RequestURI := "/chat";
               Conn.RequestURL_Path := "/chat";
               Conn.Proto := "HTTP";
               Conn.ProtoVer := "1.1";
               Conn.Header_ := add_fields ∅ [("Host", "a"); ("Upgrade", "websocket")] |},
         [[1; 2]]).
Proof.
  apply (@ReadFrom_well_formed sample_url).
  - repeat split; vm_compute; reflexivity.
  - repeat constructor; vm_compute; reflexivity.
  - reflexivity.
  - vm_compute. discriminate.
Defined.

Lemma ReadFrom_too_large_witness :
  exists r'',
    @ReadFrom sample_url ([71; 69; 84; 32; 47] :: []) 4
    = Ret (Err (HandshakeError "too large handshake"), r'').
Proof. apply (@ReadFrom_too_large sample_url); cbn; lia. Defined.

Lemma ReadFrom_panics_on_leading_LF_witness :
  @ReadFrom sample_url
    (Accept.bytes_of_string (String LF ("GET / HTTP/1.1" +:+ emptyLine2)) :: []) 1048576
  = Panic.
Proof. apply (@ReadFrom_panics_on_leading_LF sample_url). vm_compute. discriminate. Defined.

End HandshakeRequestSamples.

(** ** Registration of open handlers *)

Section Registration.
Import Header Router.
Local Open Scope string_scope.
Local Open Scope Z_scope.
#[local] Arguments String.append : simpl nomatch.
Context {Handler : Type}.

Lemma length_snoc (pre : string) (c : ascii) :
  String.length (pre +:+ String c "") = S (String.length pre).
Proof. induction pre as [|a pre IH]; cbn [String.append String.length]; congruence. Qed.

Lemma get_last (pre : string) (c : ascii) :
  String.get (String.length pre) (pre +:+ String c "") = Some c.
Proof. induction pre as [|a pre IH]; cbn; [reflexivity|exact IH]. Qed.

(** [pattern[len(pattern)-1]] on a pattern with last byte [c]. *)
Lemma index_last (pre : string) (c : ascii) :
  index (pre +:+ String c "") (len (pre +:+ String c "") - 1) = Ret c.
Proof.
  unfold index, len. rewrite length_snoc.
  destruct (Z.leb_spec 0 (Z.of_nat (S (String.length pre)) - 1)); [|lia].
  destruct (Z.ltb_spec (Z.of_nat (S (String.length pre)) - 1)
              (Z.of_nat (S (String.length pre)))); [|lia].
  cbn [andb].
  replace (Z.to_nat (Z.of_nat (S (String.length pre)) - 1)) with (String.length pre) by lia.
  rewrite get_last. reflexivity.
Qed.

Lemma string_snoc (s : string) :
  s = "" \/ exists pre c, s = pre +:+ String c "".
Proof.
  induction s as [|a s IH]; [left; reflexivity|right].
  destruct IH as [->|(pre & c & ->)].
  - exists "", a. reflexivity.
  - exists (String a pre), c. reflexivity.
Qed.

Lemma snoc_neq (s : string) (c : ascii) : s <> s +:+ String c "".
Proof.
  intros E. apply (f_equal String.length) in E. rewrite length_snoc in E. lia.
Qed.

Lemma OnConnOpenFunc_run (srv : Server (Handler := Handler))
    (router : gmap string Handler) (pre : string) (c : ascii) (fn : Handler) :
  onConnOpenRouter srv = Some router ->
  router !! (pre +:+ String c "") = None ->
  OnConnOpenFunc srv (pre +:+ String c "") fn
  = Ret (mkServer (MaxHandshakeBytes srv)
           (Some (if Ascii.eqb c "/"
                  then <[pre +:+ String c "" := fn]> router
                  else <[(pre +:+ String c "") +:+ "/" := fn]>
                         (<[pre +:+ String c "" := fn]> router)))).
Proof.
  intros Hr Hn. unfold OnConnOpenFunc. rewrite Hr.
  cbn [HasHandler Conn.DefaultOnConnOpenRouter]. rewrite Hn.
  rewrite index_last. cbn [exec_bind]. unfold HandleFunc.
  destruct (Ascii.eqb c "/"); reflexivity.
Qed.

(** X20.  Registering a pattern that has no handler yet gives it the
    handler, and, when the pattern does not end in a slash, gives the same
    handler to the pattern with a slash added, whether or not that path had
    a handler before; every other path keeps what it had. *)
Theorem OnConnOpenFunc_registers (srv : Server (Handler := Handler))
    (router : gmap string Handler) (pre : string) (c : ascii) (fn : Handler) :
  onConnOpenRouter srv = Some router ->
  router !! (pre +:+ String c "") = None ->
  exists router',
    OnConnOpenFunc srv (pre +:+ String c "") fn
    = Ret (mkServer (MaxHandshakeBytes srv) (Some router'))
    /\ router' !! (pre +:+ String c "") = Some fn
    /\ (c <> "/"%char -> router' !! ((pre +:+ String c "") +:+ "/") = Some fn)
    /\ (forall q, q <> pre +:+ String c "" ->
                  c = "/"%char \/ q <> (pre +:+ String c "") +:+ "/" ->
                  router' !! q = router !! q).
Proof.
  intros Hr Hn. rewrite (OnConnOpenFunc_run _ _ _ _ _ Hr Hn).
  eexists. split; [reflexivity|].
  destruct (Ascii.eqb_spec c "/") as [->|Hc].
  - split; [apply lookup_insert_eq|]. split; [congruence|].
    intros q Hq _. apply lookup_insert_ne. congruence.
  - split.
    { rewrite lookup_insert_ne by (intros E; symmetry in E; revert E; apply snoc_neq).
      apply lookup_insert_eq. }
    split; [intros _; apply lookup_insert_eq|].
    intros q Hq [?|Hq']; [congruence|].
    rewrite !lookup_insert_ne by congruence. reflexivity.
Qed.

(** X21.  The check for an existing handler looks at the pattern as given
    only.  With a pattern that does not end in a slash and is new to the
    router with and without the slash: registering it and then the pattern
    with the slash panics, while the other order succeeds and leaves both
    paths with the handler of the second call, the first handler gone. *)
Theorem OnConnOpenFunc_order (srv : Server (Handler := Handler))
    (router : gmap string Handler) (pre : string) (c : ascii) (f1 f2 : Handler) :
  onConnOpenRouter srv = Some router ->
  c <> "/"%char ->
  router !! (pre +:+ String c "") = None ->
  router !! ((pre +:+ String c "") +:+ "/") = None ->
  (try s1 <- OnConnOpenFunc srv (pre +:+ String c "") f1 in
   OnConnOpenFunc s1 ((pre +:+ String c "") +:+ "/") f2) = Panic
  /\ exists router',
       (try s1 <- OnConnOpenFunc srv ((pre +:+ String c "") +:+ "/") f2 in
        OnConnOpenFunc s1 (pre +:+ String c "") f1)
       = Ret (mkServer (MaxHandshakeBytes srv) (Some router'))
       /\ router' !! (pre +:+ String c "") = Some f1
       /\ router' !! ((pre +:+ String c "") +:+ "/") = Some f1.
Proof.
  intros Hr Hc Hn Hn'.
  pose proof (snoc_neq (pre +:+ String c "") "/") as Hne.
  assert (Hcb : Ascii.eqb c "/" = false) by (apply Ascii.eqb_neq; assumption).
  split.
  - rewrite (OnConnOpenFunc_run _ _ _ _ _ Hr Hn), Hcb.
    cbn [exec_bind]. unfold OnConnOpenFunc. cbn [onConnOpenRouter].
    cbn [HasHandler Conn.DefaultOnConnOpenRouter].
    rewrite lookup_insert_eq. reflexivity.
  - change ((pre +:+ String c "") +:+ "/")
      with ((pre +:+ String c "") +:+ String "/" "") in *.
    rewrite (OnConnOpenFunc_run _ _ (pre +:+ String c "") "/" _ Hr Hn').
    change (Ascii.eqb "/" "/") with true. cbv iota. cbn [exec_bind].
    rewrite (OnConnOpenFunc_run
               (mkServer (MaxHandshakeBytes srv)
                  (Some (<[(pre +:+ String c "") +:+ String "/" "" := f2]> router)))
               (<[(pre +:+ String c "") +:+ String "/" "" := f2]> router)
               pre c f1 eq_refl)
      by (rewrite lookup_insert_ne by congruence; exact Hn).
    rewrite Hcb. cbn [MaxHandshakeBytes].
    eexists. split; [reflexivity|]. split.
    + rewrite lookup_insert_ne by congruence. apply lookup_insert_eq.
    + apply lookup_insert_eq.
Qed.

(** X22.  Registration panics in three cases and no other: the server has
    no router yet, the pattern is empty, or the pattern has a handler. *)
Theorem OnConnOpenFunc_panics_iff (srv : Server (Handler := Handler))
    (pattern : string) (fn : Handler) :
  OnConnOpenFunc srv pattern fn = Panic
  <-> onConnOpenRouter srv = None
      \/ pattern = ""
      \/ exists router h, onConnOpenRouter srv = Some router
                          /\ router !! pattern = Some h.
Proof.
  destruct (onConnOpenRouter srv) as [router|] eqn:Hr.
  2:{ unfold OnConnOpenFunc. rewrite Hr. split; [auto|reflexivity]. }
  destruct (router !! pattern) as [h|] eqn:Hl.
  { unfold OnConnOpenFunc. rewrite Hr.
    cbn [HasHandler Conn.DefaultOnConnOpenRouter]. rewrite Hl.
    split; [intros _; right; right; eauto|reflexivity]. }
  destruct (string_snoc pattern) as [->|(pre & c & ->)].
  { unfold OnConnOpenFunc. rewrite Hr.
    cbn [HasHandler Conn.DefaultOnConnOpenRouter]. rewrite Hl.
    split; [auto|reflexivity]. }
  rewrite (OnConnOpenFunc_run _ _ _ _ _ Hr Hl). split; [discriminate|].
  intros [?|[E|(r & h & E & El)]]; [discriminate| |congruence].
  exfalso. destruct pre; discriminate.
Qed.


End Registration.

Section RegistrationSamples.
Import Header Router.
Local Open Scope string_scope.
Local Open Scope Z_scope.

Lemma OnConnOpenFunc_registers_witness :
  exists router',
    OnConnOpenFunc (mkServer 0 (Some (<["/echo" := 1%nat]> ∅))) ("/cha" +:+ String "t" "") 2%nat
    = Ret (mkServer 0 (Some router'))
    /\ router' !! ("/cha" +:+ String "t" "") = Some 2%nat
    /\ ("t"%char <> "/"%char ->
        router' !! (("/cha" +:+ String "t" "") +:+ "/") = Some 2%nat)
    /\ (forall q, q <> "/cha" +:+ String "t" "" ->
                  "t"%char = "/"%char \/ q <> ("/cha" +:+ String "t" "") +:+ "/" ->
                  router' !! q = (<["/echo" := 1%nat]> ∅ : gmap string nat) !! q).
Proof.
  apply (OnConnOpenFunc_registers (mkServer 0 (Some (<["/echo" := 1%nat]> ∅)))
           (<["/echo" := 1%nat]> ∅) "/cha" "t" 2%nat).
  - reflexivity.
  - vm_compute. reflexivity.
Defined.

Lemma OnConnOpenFunc_order_witness :
  (try s1 <- OnConnOpenFunc (mkServer 0 (Some ∅)) ("/cha" +:+ String "t" "") 1%nat in
   OnConnOpenFunc s1 (("/cha" +:+ String "t" "") +:+ "/") 2%nat) = Panic
  /\ exists router',
       (try s1 <- OnConnOpenFunc (mkServer 0 (Some ∅))
                    (("/cha" +:+ String "t" "") +:+ "/") 2%nat in
        OnConnOpenFunc s1 ("/cha" +:+ String "t" "") 1%nat)
       = Ret (mkServer 0 (Some router'))
       /\ router' !! ("/cha" +:+ String "t" "") = Some 1%nat
       /\ router' !! (("/cha" +:+ String "t" "") +:+ "/") = Some 1%nat.
Proof.
  apply (OnConnOpenFunc_order (mkServer 0 (Some ∅)) ∅ "/cha" "t" 1%nat 2%nat).
  - reflexivity.
  - discriminate.
  - apply lookup_empty.
  - apply lookup_empty.
Defined.

End RegistrationSamples.

(** ** The pool over sequences of operations *)

Section PoolExtras.
Import ConnPool.

(** X24.  On a new pool the connections get the IDs 1, 2, 3, ... in the
    order of the [Add]s, whatever is deleted in between: an ID is not given
    out again. *)
Theorem ConnPool_ids_count_up (ops : list op) :
  Z.of_nat (adds ops) < 2 ^ 64 ->
  snd (run NewConnPool ops) = map Z.of_nat (seq 1 (adds ops)).
Proof.
  intros Hlt. rewrite run_ids by (cbn [idx NewConnPool]; lia).
  apply map_ext. intros i. cbn [idx NewConnPool]. lia.
Qed.

Lemma ConnPool_ids_count_up_witness :
  snd (run NewConnPool [OpAdd (mkConn 0 0); OpAdd (mkConn 0 0); OpDel (mkConn 1 0);
                        OpAdd (mkConn 0 0)])
  = map Z.of_nat (seq 1 (adds [OpAdd (mkConn 0 0); OpAdd (mkConn 0 0); OpDel (mkConn 1 0);
                               OpAdd (mkConn 0 0)])).
Proof. apply ConnPool_ids_count_up. vm_compute. reflexivity. Defined.

(** X25.  As long as every [Del] is given a connection that is in the map,
    [Count] is the number of connections in the map. *)
Theorem ConnPool_Count_is_size (ops : list op) :
  Z.of_nat (adds ops) < 2 ^ 64 ->
  dels_present NewConnPool ops ->
  Count (fst (run NewConnPool ops)) = Z.of_nat (size (p (fst (run NewConnPool ops)))).
Proof.
  intros Hlt Hdels.
  apply (run_pool_inv ops NewConnPool pool_inv_New); [cbn [idx NewConnPool]; lia|assumption].
Qed.

Lemma ConnPool_Count_is_size_witness :
  Count (fst (run NewConnPool [OpAdd (mkConn 0 0); OpAdd (mkConn 0 0); OpDel (mkConn 1 0)]))
  = Z.of_nat (size (p (fst (run NewConnPool
       [OpAdd (mkConn 0 0); OpAdd (mkConn 0 0); OpDel (mkConn 1 0)])))).
Proof.
  apply ConnPool_Count_is_size.
  - vm_compute. reflexivity.
  - cbn [dels_present]. split; [|exact I]. vm_compute. eauto.
Defined.

(** X26.  On a pool with sound bookkeeping, [Add] stores the connection
    under the ID it wrote into it, and a [Del] of that connection gives
    back the map and the count from before the [Add]; the counter of IDs
    stays advanced. *)
Theorem ConnPool_Add_then_Del (cp : ConnPool) (c : Conn) :
  pool_inv cp ->
  idx cp < 2 ^ 64 - 1 ->
  let cp' := fst (Add cp c) in
  let c' := snd (Add cp c) in
  ID c' = idx cp + 1
  /\ Get cp' (ID c') = Some c'
  /\ Count cp' = Count cp + 1
  /\ p (Del cp' c') = p cp
  /\ Count (Del cp' c') = Count cp
  /\ Get (Del cp' c') (ID c') = None
  /\ idx (Del cp' c') = idx cp + 1.
Proof.
  intros (H0 & Hkeys & Hcount & Hle) Hlt. unfold Add, Del, Get, Count.
  cbn [fst snd ID p idx count].
  assert (E : u64 (idx cp + 1) = idx cp + 1)
    by (unfold u64, wrap; apply Z.mod_small; lia).
  assert (E' : u64 (count cp + 1) = count cp + 1)
    by (unfold u64, wrap; apply Z.mod_small; lia).
  assert (E'' : u64 (count cp + 1 - 1) = count cp)
    by (unfold u64, wrap; replace (count cp + 1 - 1) with (count cp) by lia;
        apply Z.mod_small; lia).
  assert (Hfresh : p cp !! (idx cp + 1) = None).
  { destruct (p cp !! (idx cp + 1)) eqn:El; [|reflexivity].
    specialize (Hkeys (idx cp + 1)). rewrite El in Hkeys.
    specialize (Hkeys (ex_intro _ _ eq_refl)). lia. }
  rewrite E, E', E''.
  split; [reflexivity|]. split; [apply lookup_insert_eq|]. split; [reflexivity|].
  split; [rewrite delete_insert_eq; apply delete_id; assumption|].
  split; [reflexivity|]. split; [apply lookup_delete_eq|reflexivity].
Qed.

Lemma ConnPool_Add_then_Del_witness :
  let cp' := fst (Add NewConnPool (mkConn 0 0)) in
  let c' := snd (Add NewConnPool (mkConn 0 0)) in
  ID c' = idx NewConnPool + 1
  /\ Get cp' (ID c') = Some c'
  /\ Count cp' = Count NewConnPool + 1
  /\ p (Del cp' c') = p NewConnPool
  /\ Count (Del cp' c') = Count NewConnPool
  /\ Get (Del cp' c') (ID c') = None
  /\ idx (Del cp' c') = idx NewConnPool + 1.
Proof.
  apply ConnPool_Add_then_Del; [apply pool_inv_New|cbn; lia].
Defined.

End PoolExtras.

(** ** Whole messages *)

Section Chunks.
Import Frame.

Lemma Read_chunk_take (w : list Z) (rest : Reader) (n : nat) :
  w <> [] ->
  Read (NewReader w ++ rest) n = (take n w, None, NewReader (drop n w) ++ rest).
Proof.
  intros Hne. destruct w as [|x w]; [congruence|].
  cbn [NewReader app Read].
  destruct (Nat.leb_spec (length (x :: w)) n) as [Hle|Hgt].
  - rewrite take_ge, drop_ge by assumption. reflexivity.
  - destruct (drop n (x :: w)) eqn:Hd; [|reflexivity].
    apply (f_equal length) in Hd. rewrite length_drop in Hd. simpl in *. lia.
Qed.

Lemma Read_chunk (a b : list Z) (rest : Reader) (n : nat) :
  a <> [] -> length a = n ->
  Read (NewReader (a ++ b) ++ rest) n = (a, None, NewReader b ++ rest).
Proof.
  intros Hne <-. rewrite Read_chunk_take by (destruct a; [congruence|discriminate]).
  rewrite take_app_length, drop_app_length. reflexivity.
Qed.

Lemma read_length_chunk (L pLen : Z) (ext : list Z) :
  0 <= L < 2 ^ 64 ->
  length_field L = Some (pLen, ext) ->
  forall f b rest,
    read_length f (NewReader (ext ++ b) ++ rest) pLen
    = (set_PayloadLen L f, NewReader b ++ rest, None).
Proof.
  intros HL. unfold length_field.
  destruct (Z.leb_spec L 125) as [H125|H125].
  - intros [= <- <-] f b rest. unfold read_length.
    destruct (Z.leb_spec L 125); [|lia].
    unfold u64, wrap. rewrite Z.mod_small by lia. reflexivity.
  - destruct (Z.leb_spec L MaxUint16) as [H16|H16].
    + intros [= <- <-] f b rest. unfold read_length.
      change (126 <=? 125) with false. change (126 =? 126) with true. cbv iota.
      rewrite (Read_chunk [u8 (Z.shiftr L 8); u8 L]) by (discriminate || reflexivity).
      cbn [short_read length Nat.eqb negb nth].
      rewrite decode16 by (unfold MaxUint16 in H16; lia). reflexivity.
    + unfold MaxUint16 in H16.
      destruct (Z.leb_spec (u64 L) MaxUint64) as [_|H64]; [|discriminate].
      intros [= <- <-] f b rest. unfold read_length.
      change (127 <=? 125) with false. change (127 =? 126) with false.
      change (127 =? 127) with true. cbv iota.
      rewrite (Read_chunk [_; _; _; _; _; _; _; _]) by (discriminate || reflexivity).
      cbn [short_read length Nat.eqb negb nth].
      rewrite (decode64 L HL). reflexivity.
Qed.

Lemma ReadBytesAsMath_loop_chunk (fuel : nat) :
  forall (w acc : list Z) (rest : Reader) (size : Z),
    w <> [] ->
    size = Z.of_nat (length acc) + Z.of_nat (length w) ->
    size < 2 ^ 64 ->
    (length w <= fuel)%nat ->
    Util.ReadBytesAsMath_loop fuel (NewReader w ++ rest) size (Z.of_nat (length acc)) acc
    = Some (Ok (acc ++ w), rest).
Proof.
  induction fuel as [|fuel IH]; intros w acc rest size Hne Hsize Hlt Hfuel.
  - destruct w; [congruence|simpl in Hfuel; lia].
  - cbn [Util.ReadBytesAsMath_loop]. rewrite Read_chunk_take by assumption.
    assert (Hlen : (0 < length w)%nat) by (destruct w; [congruence|simpl; lia]).
    assert (Htk : length (take 512 w) = Nat.min 512 (length w))
      by apply length_take.
    destruct (Z.ltb_spec 0 (Z.of_nat (length (take 512 w)))) as [_|Hz]; [|lia].
    rewrite u64_count by (rewrite Htk; lia).
    destruct (Z.eqb_spec (Z.of_nat (length acc + length (take 512 w))) size) as [He|Hn'].
    + assert (Hall : (length w <= 512)%nat) by lia.
      rewrite take_ge, drop_ge by assumption. reflexivity.
    + assert (Hmore : (512 < length w)%nat) by lia.
      assert (Hd : drop 512 w <> []).
      { intros Hd. apply (f_equal length) in Hd. rewrite length_drop in Hd.
        simpl in Hd. lia. }
      pose proof (IH (drop 512 w) (acc ++ take 512 w) rest size Hd) as IH'.
      rewrite length_app in IH'. rewrite IH'.
      * rewrite <- app_assoc, take_drop. reflexivity.
      * rewrite length_drop. lia.
      * assumption.
      * rewrite length_drop. lia.
Qed.

(** A payload read off the head of a chunk leaves the chunks behind it. *)
Lemma ReadBytesAsMath_chunk (w : list Z) (rest : Reader) :
  w <> [] ->
  Z.of_nat (length w) < 2 ^ 64 ->
  Util.ReadBytesAsMath (NewReader w ++ rest) (Z.of_nat (length w)) = (Ok w, rest).
Proof.
  intros Hne Hlt. unfold Util.ReadBytesAsMath.
  rewrite (ReadBytesAsMath_loop_chunk _ w [] rest (Z.of_nat (length w)));
    try assumption; try reflexivity.
  destruct w; [congruence|].
  unfold Util.ReadBytesAsMath_fuel, reads_left, NewReader. cbn [app concat length].
  rewrite length_app. lia.
Qed.

(** The decoder on one frame at the head of the stream, decoding into a
    frame [f0] that has been used before: the key stays when the frame has
    none, and the payload stays when the frame has none. *)
Lemma FromBufReader_chunk (f0 f : Frame) (key : option (list Z))
    (rest : Reader) (maxPayloadLen : Z) :
  sendable (f, key) ->
  Z.of_nat (length (PayloadData f)) <= maxPayloadLen ->
  FromBufReader f0 (on_wire f key :: rest) maxPayloadLen
  = (mkFrame (FIN f) (RSV1 f) (RSV2 f) (RSV3 f) (Opcode f)
             (if masked key then 1 else 0)
             (Z.of_nat (length (PayloadData f)))
             (match key with Some k => key_word k | None => MaskingKey f0 end)
             (match PayloadData f with [] => PayloadData f0 | _ => PayloadData f end),
     rest, None).
Proof.
  intros ((Hfin & Hr1 & Hr2 & Hr3 & Hop) & Hlt & Hkey) Hmax. cbn [fst snd] in *.
  set (w := PayloadData f) in *.
  assert (HL : 0 <= Z.of_nat (length w) < 2 ^ 64) by lia.
  destruct (length_field_some _ HL) as (pLen & ext & E & Hp & Hpos & _).
  pose proof (read_length_chunk _ _ _ HL E) as Hread.
  unfold on_wire. fold w. rewrite E.
  set (body := match key with Some k => k ++ MaskData w k | None => w end).
  change (([byt0 f; byt1 (masked key) pLen] ++ ext ++ body) :: rest)
    with (NewReader ([byt0 f; byt1 (masked key) pLen] ++ ext ++ body)
          ++ rest).
  unfold FromBufReader.
  rewrite Read_chunk by (discriminate || reflexivity).
  cbn [short_read length Nat.eqb negb nth].
  destruct (first_byte _ _ _ _ _ Hfin Hr1 Hr2 Hr3 Hop) as (E1 & E2 & E3 & E4 & E5 & E6).
  fold (byt0 f) in E1, E2, E3, E4, E5.
  rewrite E1, E2, E3, E4, E5. cbn [Opcode set_head]. rewrite E6. cbn [negb].
  assert (Hbit : is_bit (if masked key then 1 else 0))
    by (destruct key; [right|left]; reflexivity).
  destruct (second_byte _ pLen Hbit Hp) as (F1 & F2).
  fold (byt1 (masked key) pLen) in F1, F2. rewrite F1, F2, Hread.
  cbn [PayloadLen set_PayloadLen MASK set_MASK set_head].
  destruct (Z.gtb_spec (Z.of_nat (length w)) maxPayloadLen); [lia|].
  rewrite Hpos.
  destruct key as [k|]; unfold body; cbn [masked] in *.
  - change (1 =? 1) with true. cbv iota.
    rewrite (Read_chunk k) by (assumption || (destruct k; discriminate)).
    unfold short_read. rewrite Hkey. cbn [Nat.eqb negb].
    cbn [PayloadLen set_PayloadLen set_MaskingKey MASK].
    destruct (MaskData_involutive w k) as [Htwice Hlen].
    destruct (Z.gtb_spec (Z.of_nat (length w)) 0) as [Hgt|Hle].
    + pose proof (ReadBytesAsMath_chunk (MaskData w k) rest) as R.
      rewrite Hlen in R. rewrite R;
        [|intros Hm; rewrite Hm in Hlen; simpl in Hlen; lia|lia].
      rewrite Htwice. cbn [set_PayloadData set_MaskingKey set_PayloadLen set_MASK set_head
                           FIN RSV1 RSV2 RSV3 Opcode MASK PayloadLen MaskingKey].
      destruct w; [simpl in Hgt; lia|reflexivity].
    + destruct w; [|simpl in Hle; lia]. reflexivity.
  - change (0 =? 1) with false. cbv iota.
    cbn [PayloadLen set_PayloadLen set_MaskingKey MASK].
    destruct (Z.gtb_spec (Z.of_nat (length w)) 0) as [Hgt|Hle].
    + rewrite ReadBytesAsMath_chunk;
        [|destruct w; [simpl in Hgt; lia|discriminate]|lia].
      destruct w; [simpl in Hgt; lia|reflexivity].
    + destruct w; [|simpl in Hle; lia]. reflexivity.
Qed.

End Chunks.

Section WholeMessages.
Import Frame Message.

Lemma total_length_nonneg (fks : list (Frame * option (list Z))) :
  0 <= total_length fks.
Proof. induction fks as [|fk fks IH]; cbn [total_length fold_right]; [lia|]. fold (total_length fks). lia. Qed.

Lemma u64_small (x : Z) : 0 <= x < 2 ^ 64 -> u64 x = x.
Proof. intros Hx. unfold u64, wrap. apply Z.mod_small. assumption. Qed.

(** The loop of [ReadWhole] over the frames at the head of the stream, each
    frame a chunk: all but the last without FIN. *)
Lemma ReadWhole_loop_frames (maxMsgDataLen : Z) (last : Frame * option (list Z))
    (rest : Reader) :
  forall (init : list (Frame * option (list Z))) (fuel : nat) (c : Conn)
         (frame : Frame) (msg : Message.Message) (msgLen : Z),
    state c = StateOpen ->
    Buf c = map (fun fk => on_wire (fst fk) (snd fk)) (init ++ [last]) ++ rest ->
    Forall sendable (init ++ [last]) ->
    Forall (fun fk => FIN (fst fk) = 0) init ->
    FIN (fst last) = 1 ->
    0 <= msgLen ->
    msgLen + total_length (init ++ [last]) <= maxMsgDataLen ->
    maxMsgDataLen < 2 ^ 64 ->
    (length init < fuel)%nat ->
    ReadWhole_loop fuel c frame msg msgLen maxMsgDataLen
    = Some (Ok (mkMessage (Message.Opcode msg)
                  (Data msg
                   ++ concat (held (PayloadData frame)
                                (map (fun fk => PayloadData (fst fk)) (init ++ [last]))))),
            set_Buf rest c).
Proof.
  induction init as [|fk init IH];
    intros fuel c frame msg msgLen Hst Hbuf Hok Hfin0 Hfin1 H0 Hsum Hmax Hfuel;
    (destruct fuel as [|fuel]; [lia|]).
  - cbn [app map] in Hbuf. cbn [app] in Hok, Hsum.
    apply Forall_cons in Hok as [Hlast _].
    cbn [total_length fold_right] in Hsum.
    cbn [ReadWhole_loop]. rewrite Hst. change (negb (StateOpen =? StateOpen)) with false.
    cbv iota. rewrite Hbuf.
    destruct last as [f key]. cbn [fst snd] in *.
    rewrite FromBufReader_chunk by (assumption || lia).
    cbn [PayloadLen FIN PayloadData]. rewrite u64_small by lia.
    destruct (Z.gtb_spec (msgLen + Z.of_nat (length (PayloadData f))) maxMsgDataLen); [lia|].
    rewrite Hfin1. change (1 =? 1) with true. cbv iota.
    cbn [app map held concat]. rewrite app_nil_r. reflexivity.
  - cbn [app map] in Hbuf. rewrite <- app_comm_cons in Hok, Hsum.
    apply Forall_cons in Hok as [Hfk Hok]. apply Forall_cons in Hfin0 as [Hf0 Hfin0].
    cbn [total_length fold_right] in Hsum. fold (total_length (init ++ [last])) in Hsum.
    pose proof (total_length_nonneg (init ++ [last])) as Hnn.
    cbn [ReadWhole_loop]. rewrite Hst. change (negb (StateOpen =? StateOpen)) with false.
    cbv iota. rewrite Hbuf.
    destruct fk as [f key]. cbn [fst snd] in *.
    rewrite FromBufReader_chunk by (assumption || lia).
    cbn [PayloadLen FIN PayloadData]. rewrite u64_small by lia.
    destruct (Z.gtb_spec (msgLen + Z.of_nat (length (PayloadData f))) maxMsgDataLen); [lia|].
    rewrite Hf0. change (0 =? 1) with false. cbv iota.
    rewrite (IH fuel); try assumption; try (cbn [length] in Hfuel; lia); try reflexivity.
    cbn [Message.Opcode Data PayloadData set_Buf state written app map held concat].
    rewrite <- app_assoc. reflexivity.
Qed.

Lemma ReadWhole_frames_run (c : Conn) (maxMsgDataLen : Z)
    (init : list (Frame * option (list Z))) (last : Frame * option (list Z))
    (rest : Reader) :
  state c = StateOpen ->
  Buf c = map (fun fk => on_wire (fst fk) (snd fk)) (init ++ [last]) ++ rest ->
  Forall sendable (init ++ [last]) ->
  Forall (fun fk => FIN (fst fk) = 0) init ->
  FIN (fst last) = 1 ->
  total_length (init ++ [last]) <= maxMsgDataLen ->
  maxMsgDataLen < 2 ^ 64 ->
  ReadWhole c maxMsgDataLen
  = (Ok (mkMessage (Frame.Opcode (fst (hd last init)))
           (concat (held [] (map (fun fk => PayloadData (fst fk)) (init ++ [last]))))),
     set_Buf rest c).
Proof.
  intros Hst Hbuf Hok Hfin0 Hfin1 Hsum Hmax.
  unfold ReadWhole. rewrite Hst. change (negb (StateOpen =? StateOpen)) with false.
  cbv iota. rewrite Hbuf.
  destruct init as [|[f key] init].
  - cbn [app map hd] in *. apply Forall_cons in Hok as [Hlast _].
    cbn [total_length fold_right] in Hsum.
    destruct last as [f key]. cbn [fst snd] in *.
    rewrite FromBufReader_chunk by (assumption || lia).
    cbn [PayloadLen FIN PayloadData Frame.Opcode zero]. rewrite Hfin1.
    change (1 =? 1) with true. cbv iota.
    cbn [held concat]. rewrite app_nil_r. reflexivity.
  - cbn [hd fst]. rewrite <- app_comm_cons in *. cbn [map] in *.
    apply Forall_cons in Hok as [Hfk Hok]. apply Forall_cons in Hfin0 as [Hf0 Hfin0].
    cbn [total_length fold_right] in Hsum. fold (total_length (init ++ [last])) in Hsum.
    pose proof (total_length_nonneg (init ++ [last])) as Hnn.
    cbn [fst snd] in *. cbn [app map fst snd].
    rewrite FromBufReader_chunk by (assumption || lia).
    cbn [PayloadLen FIN PayloadData Frame.Opcode zero]. rewrite Hf0.
    change (0 =? 1) with false. cbv iota.
    rewrite (ReadWhole_loop_frames maxMsgDataLen last rest init);
      try assumption; try reflexivity.
    + rewrite u64_small by lia. lia.
    + rewrite u64_small by lia. lia.
    + unfold reads_left. rewrite length_app, length_map, length_app. cbn [length]. lia.
Qed.

Lemma held_nonempty (ps : list (list Z)) :
  forall prev, Forall (fun p => p <> []) ps -> held prev ps = ps.
Proof.
  induction ps as [|p ps IH]; intros prev Hne; [reflexivity|].
  apply Forall_cons in Hne as [Hp Hne]. cbn [held].
  destruct p; [congruence|]. rewrite IH by assumption. reflexivity.
Qed.

(** X27.  [ReadWhole] on an open connection whose stream begins with the
    frames of one message, each arriving as a read of its own, all but the
    last without FIN, their lengths summing to the limit at most: the
    message has the opcode of the first frame, whatever the opcodes of the
    others, and its data is what the decoder held after each frame, joined;
    that is the payloads joined when none of them is empty.  The reads
    behind the message stay in the stream. *)
Theorem ReadWhole_fragments (c : Conn) (maxMsgDataLen : Z)
    (init : list (Frame * option (list Z))) (last : Frame * option (list Z))
    (rest : Reader) :
  state c = StateOpen ->
  Buf c = map (fun fk => on_wire (fst fk) (snd fk)) (init ++ [last]) ++ rest ->
  Forall sendable (init ++ [last]) ->
  Forall (fun fk => FIN (fst fk) = 0) init ->
  FIN (fst last) = 1 ->
  total_length (init ++ [last]) <= maxMsgDataLen ->
  maxMsgDataLen < 2 ^ 64 ->
  let payloads := map (fun fk => PayloadData (fst fk)) (init ++ [last]) in
  ReadWhole c maxMsgDataLen
  = (Ok (mkMessage (Frame.Opcode (fst (hd last init))) (concat (held [] payloads))),
     set_Buf rest c)
  /\ (Forall (fun p => p <> []) payloads -> held [] payloads = payloads).
Proof.
  intros Hst Hbuf Hok Hfin0 Hfin1 Hsum Hmax payloads. split.
  - apply ReadWhole_frames_run; assumption.
  - apply held_nonempty.
Qed.

(** X28.  A last fragment without payload repeats the payload before it:
    the decoder keeps the payload of the frame before, and [ReadWhole]
    appends it once more, so the data is longer than the lengths that were
    checked against the limit. *)
Theorem ReadWhole_empty_fragment_repeats (c : Conn) (maxMsgDataLen : Z)
    (f1 f2 : Frame) (k1 k2 : option (list Z)) (rest : Reader) :
  state c = StateOpen ->
  Buf c = on_wire f1 k1 :: on_wire f2 k2 :: rest ->
  sendable (f1, k1) -> sendable (f2, k2) ->
  FIN f1 = 0 -> FIN f2 = 1 ->
  PayloadData f1 <> [] -> PayloadData f2 = [] ->
  Z.of_nat (length (PayloadData f1)) <= maxMsgDataLen ->
  maxMsgDataLen < 2 ^ 64 ->
  ReadWhole c maxMsgDataLen
  = (Ok (mkMessage (Frame.Opcode f1) (PayloadData f1 ++ PayloadData f1)), set_Buf rest c).
Proof.
  intros Hst Hbuf Hs1 Hs2 Hf1 Hf2 Hp1 Hp2 Hlen Hmax.
  assert (Hok : Forall sendable ([(f1, k1)] ++ [(f2, k2)]))
    by (cbn [app]; constructor; [assumption|constructor; [assumption|constructor]]).
  assert (Hfin0 : Forall (fun fk : Frame * option (list Z) => FIN (fst fk) = 0) [(f1, k1)])
    by (constructor; [assumption|constructor]).
  assert (Hsum : total_length ([(f1, k1)] ++ [(f2, k2)]) <= maxMsgDataLen)
    by (cbn [app total_length fold_right fst]; rewrite Hp2; cbn [length]; lia).
  rewrite (ReadWhole_frames_run c maxMsgDataLen [(f1, k1)] (f2, k2) rest
             Hst Hbuf Hok Hfin0 Hf2 Hsum Hmax).
  cbn [app map fst hd held concat]. rewrite Hp2.
  destruct (PayloadData f1); [congruence|]. rewrite app_nil_r. reflexivity.
Qed.

End WholeMessages.

(** *** The receiving loop ends *)

Section DecoderProgress.
Import Frame Message.

Lemma Read_le (r : Reader) (n : nat) :
  (reads_left (snd (Read r n)) <= reads_left r)%nat.
Proof.
  unfold reads_left. destruct r as [|c rest]; [cbn; lia|].
  cbn [Read]. destruct (Nat.leb_spec (length c) n); cbn [snd concat length].
  - rewrite length_app. lia.
  - rewrite !length_app, length_drop. lia.
Qed.

Lemma Read_lt (r : Reader) (n : nat) :
  (0 < n)%nat ->
  snd (fst (Read r n)) = None ->
  (reads_left (snd (Read r n)) < reads_left r)%nat.
Proof.
  unfold reads_left. intros Hn. destruct r as [|c rest]; [cbn; discriminate|].
  cbn [Read]. destruct (Nat.leb_spec (length c) n); cbn [fst snd concat length]; intros _.
  - rewrite length_app. lia.
  - rewrite !length_app, length_drop. lia.
Qed.

Lemma ReadBytesAsMath_loop_le (fuel : nat) :
  forall (r : Reader) (size n : Z) (byts : list Z) res r',
    Util.ReadBytesAsMath_loop fuel r size n byts = Some (res, r') ->
    (reads_left r' <= reads_left r)%nat.
Proof.
  induction fuel as [|fuel IH]; intros r size n byts res r'; [discriminate|].
  cbn [Util.ReadBytesAsMath_loop].
  pose proof (Read_le r 512) as Hle.
  destruct (Read r 512) as [[buf err] r1]. cbn [snd] in Hle.
  destruct (0 <? Z.of_nat (length buf)).
  - destruct (_ =? size); [intros [= _ <-]; assumption|].
    destruct err; [intros [= _ <-]; assumption|].
    intros E. apply IH in E. lia.
  - destruct err; [intros [= _ <-]; assumption|].
    intros E. apply IH in E. lia.
Qed.

Lemma ReadBytesAsMath_le (r : Reader) (size : Z) :
  (reads_left (snd (Util.ReadBytesAsMath r size)) <= reads_left r)%nat.
Proof.
  unfold Util.ReadBytesAsMath.
  destruct (ReadBytesAsMath_loop_total (Util.ReadBytesAsMath_fuel r) r size 0 [])
    as [[res r'] E]; [unfold Util.ReadBytesAsMath_fuel; lia|].
  rewrite E. cbn [snd]. eapply ReadBytesAsMath_loop_le. exact E.
Qed.

Lemma read_length_le (f : Frame) (r : Reader) (pLen : Z) :
  (reads_left (snd (fst (read_length f r pLen))) <= reads_left r)%nat.
Proof.
  unfold read_length. destruct (pLen <=? 125); [cbn [fst snd]; lia|].
  destruct (pLen =? 126).
  - pose proof (Read_le r 2) as Hle. destruct (Read r 2) as [[b e] r1].
    destruct (short_read b e 2); exact Hle.
  - destruct (pLen =? 127); [|cbn [fst snd]; lia].
    pose proof (Read_le r 8) as Hle. destruct (Read r 8) as [[b e] r1].
    destruct (short_read b e 8); exact Hle.
Qed.

(** A frame that is decoded without error has taken bytes off the reader. *)
Lemma FromBufReader_consumes (f : Frame) (r : Reader) (maxPayloadLen : Z) f' r' :
  FromBufReader f r maxPayloadLen = (f', r', None) ->
  (reads_left r' < reads_left r)%nat.
Proof.
  unfold FromBufReader.
  pose proof (Read_lt r 2 ltac:(lia)) as Hlt.
  destruct (Read r 2) as [[byt2 err] r1]. cbn [fst snd] in Hlt.
  destruct (short_read byt2 err 2) eqn:Hs; [discriminate|].
  assert (Herr : err = None) by (destruct err; [discriminate|reflexivity]).
  specialize (Hlt Herr).
  destruct (negb (CheckOpcode _)); [discriminate|].
  match goal with
  | |- context [read_length ?g r1 ?p] =>
      pose proof (read_length_le g r1 p) as Hrl;
      destruct (read_length g r1 p) as [[f2 r2] [e|]]
  end; [discriminate|]. cbn [fst snd] in Hrl.
  destruct (PayloadLen f2 >? maxPayloadLen); [discriminate|].
  destruct (MASK f2 =? 1).
  - pose proof (Read_le r2 4) as Hk. destruct (Read r2 4) as [[mkb e4] r3].
    cbn [snd] in Hk.
    destruct (short_read mkb e4 4); [discriminate|].
    destruct (_ >? 0).
    + match goal with
      | |- context [Util.ReadBytesAsMath r3 ?s] =>
          pose proof (ReadBytesAsMath_le r3 s) as Hp;
          destruct (Util.ReadBytesAsMath r3 s) as [[pld|e] r4]
      end; [|discriminate]. cbn [snd] in Hp. intros [= _ <-]. lia.
    + intros [= _ <-]. lia.
  - destruct (_ >? 0).
    + match goal with
      | |- context [Util.ReadBytesAsMath r2 ?s] =>
          pose proof (ReadBytesAsMath_le r2 s) as Hp;
          destruct (Util.ReadBytesAsMath r2 s) as [[pld|e] r4]
      end; [|discriminate]. cbn [snd] in Hp. intros [= _ <-]. lia.
    + intros [= _ <-]. lia.
Qed.

(** The loop of [ReadWhole] never runs out of the fuel it is given. *)
Lemma ReadWhole_loop_total (maxMsgDataLen : Z) (fuel : nat) :
  forall (c : Conn) (frame : Frame) (msg : Message.Message) (msgLen : Z),
    (reads_left (Buf c) < fuel)%nat ->
    exists out, ReadWhole_loop fuel c frame msg msgLen maxMsgDataLen = Some out.
Proof.
  induction fuel as [|fuel IH]; intros c frame msg msgLen Hfuel; [lia|].
  cbn [ReadWhole_loop].
  destruct (negb (state c =? StateOpen)); [eauto|].
  destruct (FromBufReader frame (Buf c) maxMsgDataLen) as [[f' r'] [e|]] eqn:E; [eauto|].
  apply FromBufReader_consumes in E.
  destruct (_ >? maxMsgDataLen); [eauto|].
  destruct (FIN f' =? 1); [eauto|].
  apply IH. cbn [set_Buf Buf]. lia.
Qed.

End DecoderProgress.

(** *** Sending *)

Section Sending.
Import Frame Message.
Context `{MathRand}.

(** The frame of [SendWhole], and what goes out for it. *)
Lemma SendWhole_run (c : Conn) (msg : Message.Message) (mask : bool)
    (h : list Source) :
  state c = StateOpen ->
  Z.of_nat (length (Data msg)) < 2 ^ 64 ->
  let f := mkFrame 1 0 0 0 (Message.Opcode msg) 0 0 0 (Data msg) in
  let wire :=
    on_wire (if mask then set_PayloadData (MaskData (Data msg) seed35_key) f else f)
            (if mask then Some seed35_key else None) in
  SendWhole c msg mask h
  = ((Z.of_nat (length wire), None,
      mkConn (state c) (Buf c) (written c ++ wire)),
     if mask then h ++ [snd (Source_Uint32 (NewSource 35))] else h).
Proof.
  intros Hst Hlt f wire. unfold SendWhole.
  replace (negb (state c =? StateOpen)) with false by (rewrite Hst; reflexivity).
  unfold set_head, set_PayloadData, zero.
  cbn [FIN RSV1 RSV2 RSV3 Frame.Opcode MASK PayloadLen MaskingKey PayloadData].
  fold f. unfold WriteTo, Rand.bind, Rand.ret.
  destruct (ToBytes_run f mask h) as (pLen & ext & Hlf & Hrun);
    [cbn [PayloadData f]; lia|reflexivity|].
  rewrite Hrun. cbn [snd fst Write].
  assert (Ewire : wire = [byt0 f; byt1 mask pLen] ++ ext
                         ++ (if mask then seed35_key else []) ++ PayloadData f).
  { unfold wire, on_wire. destruct mask.
    - destruct (MaskData_involutive (Data msg) seed35_key) as [Htwice Hlen].
      cbn [set_PayloadData PayloadData f masked]. rewrite Hlen.
      cbn [PayloadData f] in Hlf. rewrite Hlf, Htwice. reflexivity.
    - cbn [masked]. rewrite Hlf. reflexivity. }
  rewrite <- Ewire. reflexivity.
Qed.

(** X29.  What [SendWhole] writes for a message with one of the six
    opcodes, read by [ReadWhole] on the other side: without masking the
    message comes back as it was sent; with masking the data comes back
    XORed with the key, the payload having gone out in the clear under the
    MASK bit. *)
Theorem SendWhole_then_ReadWhole (cs cr : Conn) (msg : Message.Message)
    (mask : bool) (h : list Source) (maxMsgDataLen : Z) (rest : Reader) :
  state cs = StateOpen ->
  state cr = StateOpen ->
  In (Message.Opcode msg) [0x0; 0x1; 0x2; 0x8; 0x9; 0xA] ->
  Z.of_nat (length (Data msg)) <= maxMsgDataLen ->
  maxMsgDataLen < 2 ^ 64 ->
  exists wire h',
    SendWhole cs msg mask h
    = ((Z.of_nat (length wire), None,
        mkConn (state cs) (Buf cs) (written cs ++ wire)), h')
    /\ ReadWhole (set_Buf (wire :: rest) cr) maxMsgDataLen
       = (Ok (mkMessage (Message.Opcode msg)
                (if mask then MaskData (Data msg) seed35_key else Data msg)),
          set_Buf rest cr).
Proof.
  intros Hs Hr Hop Hlen Hmax.
  pose proof (SendWhole_run cs msg mask h Hs ltac:(lia)) as Hrun. cbv zeta in Hrun.
  eexists _, _. split; [exact Hrun|].
  set (f := mkFrame 1 0 0 0 (Message.Opcode msg) 0 0 0 (Data msg)).
  set (g := if mask then set_PayloadData (MaskData (Data msg) seed35_key) f else f).
  set (key := if mask then Some seed35_key else None).
  destruct (MaskData_involutive (Data msg) seed35_key) as [_ Hmlen].
  assert (Hg : PayloadData g = if mask then MaskData (Data msg) seed35_key else Data msg)
    by (unfold g; destruct mask; reflexivity).
  assert (Hglen : length (PayloadData g) = length (Data msg))
    by (rewrite Hg; destruct mask; [assumption|reflexivity]).
  assert (Hsend : sendable (g, key)).
  { unfold sendable. cbn [fst snd]. split; [|split].
    - unfold g, well_formed, is_bit. destruct mask;
        cbn [set_PayloadData FIN RSV1 RSV2 RSV3 Frame.Opcode f]; tauto.
    - rewrite Hglen. lia.
    - unfold key. destruct mask; [reflexivity|exact I]. }
  assert (Hfin : FIN g = 1) by (unfold g; destruct mask; reflexivity).
  assert (Hopg : Frame.Opcode g = Message.Opcode msg)
    by (unfold g; destruct mask; reflexivity).
  rewrite (ReadWhole_frames_run (set_Buf (on_wire g key :: rest) cr) maxMsgDataLen
             [] (g, key) rest).
  - cbn [app map fst snd hd held concat]. rewrite app_nil_r, Hopg, Hg.
    generalize (if mask then MaskData (Data msg) seed35_key else Data msg).
    intros [|x d]; reflexivity.
  - exact Hr.
  - reflexivity.
  - cbn [app]. constructor; [assumption|constructor].
  - constructor.
  - exact Hfin.
  - cbn [app total_length fold_right fst]. rewrite Hglen. lia.
  - assumption.
Qed.

Lemma SendWholeWithReader_loop_run (fuel : nat) :
  forall (r : Reader) (data : list Z),
    (reads_left r < fuel)%nat ->
    SendWholeWithReader_loop fuel r data = Some (data ++ pending r, []).
Proof.
  unfold reads_left, pending.
  induction fuel as [|fuel IH]; intros r data Hfuel; [lia|].
  cbn [SendWholeWithReader_loop]. destruct r as [|c rest].
  - cbn [Read length concat]. change (0 <? Z.of_nat 0) with false. cbv iota.
    rewrite app_nil_r. reflexivity.
  - cbn [Read]. cbn [length concat] in Hfuel. rewrite length_app in Hfuel.
    destruct (Nat.leb_spec (length c) 512) as [Hle|Hgt].
    + rewrite IH by lia. cbn [concat].
      destruct (Z.ltb_spec 0 (Z.of_nat (length c))) as [Hc|Hc].
      * rewrite <- app_assoc. reflexivity.
      * destruct c; [reflexivity|cbn in Hc; lia].
    + assert (Hl : length (take 512 c) = 512%nat) by (rewrite length_take; lia).
      rewrite Hl. change (0 <? Z.of_nat 512) with true. cbv iota.
      rewrite IH by (cbn [length concat]; rewrite length_app, length_drop; lia).
      cbn [concat]. rewrite <- !app_assoc, (app_assoc (take 512 c)), take_drop.
      reflexivity.
Qed.

(** X30.  [SendWholeWithReader] reads the reader to its end and sends one
    frame whose payload is 512 zero bytes followed by the reader's bytes:
    it does what [SendWhole] does for a message with that data. *)
Theorem SendWholeWithReader_zero_prefix (c : Conn) (r : Reader) (opcode : Z)
    (mask : bool) (h : list Source) :
  SendWholeWithReader c r opcode mask h
  = (let '(out, h') := SendWhole c (mkMessage opcode (repeat 0 512 ++ pending r)) mask h in
     (out, if state c =? StateOpen then [] else r, h')).
Proof.
  unfold SendWholeWithReader, SendWhole.
  destruct (state c =? StateOpen); cbn [negb]; [|reflexivity].
  rewrite SendWholeWithReader_loop_run by lia.
  unfold Rand.bind, Rand.ret, make, set_head, set_PayloadData, zero.
  cbn [FIN RSV1 RSV2 RSV3 Frame.Opcode MASK PayloadLen
       MaskingKey PayloadData Message.Opcode Data].
  destruct (WriteTo _ c mask h) as [out h']. reflexivity.
Qed.

End Sending.

Section WholeMessageSamples.
Import Frame Message.

Lemma ReadWhole_fragments_witness :
  let f1 := mkFrame 0 0 0 0 OpcodeText 0 0 0 [72; 105] in
  let f2 := mkFrame 1 0 0 0 OpcodeContinue 0 0 0 [33] in
  let k := Some [1; 2; 3; 4] in
  let c := mkConn StateOpen
             (map (fun fk => on_wire (fst fk) (snd fk)) ([(f1, k)] ++ [(f2, None)])
              ++ [[9]]) [] in
  let payloads := map (fun fk => PayloadData (fst fk)) ([(f1, k)] ++ [(f2, None)]) in
  ReadWhole c 100
  = (Ok (mkMessage (Frame.Opcode (fst (hd (f2, None) [(f1, k)])))
           (concat (held [] payloads))),
     set_Buf [[9]] c)
  /\ (Forall (fun p => p <> []) payloads -> held [] payloads = payloads).
Proof.
  intros f1 f2 k c payloads.
  apply (ReadWhole_fragments c 100 [(f1, k)] (f2, None) [[9]]).
  - reflexivity.
  - reflexivity.
  - cbn [app]. constructor; [|constructor; [|constructor]];
      unfold sendable, well_formed, is_bit; cbn; intuition lia.
  - constructor; [reflexivity|constructor].
  - reflexivity.
  - cbn. lia.
  - lia.
Defined.

Lemma ReadWhole_empty_fragment_repeats_witness :
  let f1 := mkFrame 0 0 0 0 OpcodeText 0 0 0 [72; 105] in
  let f2 := mkFrame 1 0 0 0 OpcodeContinue 0 0 0 [] in
  let c := mkConn StateOpen [on_wire f1 None; on_wire f2 (Some [1; 2; 3; 4])] [] in
  ReadWhole c 2
  = (Ok (mkMessage (Frame.Opcode f1) (PayloadData f1 ++ PayloadData f1)), set_Buf [] c).
Proof.
  intros f1 f2 c.
  apply (ReadWhole_empty_fragment_repeats c 2 f1 f2 None (Some [1; 2; 3; 4]) []).
  - reflexivity.
  - reflexivity.
  - unfold sendable, well_formed, is_bit; cbn; intuition lia.
  - unfold sendable, well_formed, is_bit; cbn; intuition lia.
  - reflexivity.
  - reflexivity.
  - discriminate.
  - reflexivity.
  - cbn. lia.
  - lia.
Defined.

Lemma SendWhole_then_ReadWhole_witness :
  exists wire h',
    SendWhole (H := sample_rand) (mkConn StateOpen [] []) (mkMessage OpcodeText [72; 105])
              true []
    = ((Z.of_nat (length wire), None,
        mkConn (state (mkConn StateOpen [] [])) (Buf (mkConn StateOpen [] []))
               (written (mkConn StateOpen [] []) ++ wire)), h')
    /\ ReadWhole (set_Buf (wire :: []) (mkConn StateOpen [] [])) 125
       = (Ok (mkMessage (Message.Opcode (mkMessage OpcodeText [72; 105]))
                (if true
                 then MaskData (Data (mkMessage OpcodeText [72; 105]))
                               (seed35_key (H := sample_rand))
                 else Data (mkMessage OpcodeText [72; 105]))),
          set_Buf [] (mkConn StateOpen [] [])).
Proof.
  apply (SendWhole_then_ReadWhole (H := sample_rand)).
  - reflexivity.
  - reflexivity.
  - cbn. tauto.
  - cbn. lia.
  - lia.
Defined.

End WholeMessageSamples.
